(** * KRUS quarterly-data converter: a shallow embedding of [file_convert]

    The converter reads a directory of CSV exports, reshapes every table to
    long form, resolves a reporting period for every row, keeps the rows of
    2024 and 2025, and writes one master table.

    Python text is modelled as a sequence of Unicode code points, regular
    expressions as syntax trees run by a backtracking matcher that lists the
    successes in priority order, data-frame cells as a small tagged union,
    and exceptions as an explicit result type. *)

From Stdlib Require Import String Ascii DecimalString.
From Stdlib Require Import List NArith ZArith Bool Lia.
Import ListNotations.

Set Implicit Arguments.

(* ===================================================================== *)
(** ** Text: code points and the Unicode character database *)
(* ===================================================================== *)

(** A Python [str]: its code points, in order. *)
Definition Str := list N.

(** Literals are written as UTF-8 and decoded to code points. *)
Fixpoint utf8 (l : list N) : Str :=
  match l with
  | [] => []
  | b0 :: tl =>
    if (b0 <? 0x80)%N then b0 :: utf8 tl
    else if (b0 <? 0xE0)%N then
      match tl with
      | b1 :: tl1 => ((b0 mod 32) * 64 + b1 mod 64)%N :: utf8 tl1
      | [] => []
      end
    else if (b0 <? 0xF0)%N then
      match tl with
      | b1 :: b2 :: tl2 =>
        ((b0 mod 16) * 4096 + (b1 mod 64) * 64 + b2 mod 64)%N :: utf8 tl2
      | _ => []
      end
    else
      match tl with
      | b1 :: b2 :: b3 :: tl3 =>
        ((b0 mod 8) * 262144 + (b1 mod 64) * 4096 + (b2 mod 64) * 64 + b3 mod 64)%N
          :: utf8 tl3
      | _ => []
      end
  end.

Definition py (s : string) : Str :=
  utf8 (map N_of_ascii (list_ascii_of_string s)).

Arguments py s%_string.

Definition str_eqb (a b : Str) : bool :=
  if list_eq_dec N.eq_dec a b then true else false.

(** The code points below U+0180 (Basic Latin, Latin-1 Supplement and
    Latin Extended-A, which holds the Polish letters) are classified here;
    the rest of the character database is a parameter. *)
Definition latin (c : N) : bool := (c <? 0x180)%N.

Definition in_range (lo hi c : N) : bool := ((lo <=? c) && (c <=? hi))%N.

(** [str.isspace] and the pattern class [\s]: every white-space code point
    of the database. *)
Definition isspace (c : N) : bool :=
  in_range 0x09 0x0D c || in_range 0x1C 0x20 c || (c =? 0x85)%N || (c =? 0xA0)%N
  || (c =? 0x1680)%N || in_range 0x2000 0x200A c || (c =? 0x2028)%N
  || (c =? 0x2029)%N || (c =? 0x202F)%N || (c =? 0x205F)%N || (c =? 0x3000)%N.

(** What the program reads from the character database for the code points
    from U+0180 on, with the facts about it that the proofs use: decimal
    digits and white space have no case, and no white space is a decimal
    digit or a digit. *)
Class UnicodeData := {
  u_isdecimal : N -> bool;
  u_decimal : N -> Z;
  u_isdigit : N -> bool;
  u_isnumeric : N -> bool;
  u_isalpha : N -> bool;
  u_tolower : N -> N;
  u_iscased : N -> bool;
  u_casefix : N -> list N;
  u_lower : Str -> Str;
  u_strip_accents : Str -> Str;
  u_decimal_uncased : forall c, u_isdecimal c = true -> u_tolower c = c;
  u_space_uncased : forall c, isspace c = true -> u_tolower c = c;
  u_space_not_decimal : forall c, isspace c = true -> u_isdecimal c = false;
  u_space_not_digit : forall c, isspace c = true -> u_isdigit c = false
}.

(** The database cut down to the classified code points: nothing beyond
    them is a digit or a letter. *)
#[refine] Instance latin_only : UnicodeData := {
  u_isdecimal := fun _ => false;
  u_decimal := fun _ => 0%Z;
  u_isdigit := fun _ => false;
  u_isnumeric := fun _ => false;
  u_isalpha := fun _ => false;
  u_tolower := fun c => c;
  u_iscased := fun _ => false;
  u_casefix := fun _ => [];
  u_lower := fun s => s;
  u_strip_accents := fun s => s
}.
Proof. all: reflexivity. Defined.

Section Text.
Context {U : UnicodeData}.

(** [str.isdecimal], the pattern class [\d]. *)
Definition isdecimal (c : N) : bool :=
  if latin c then in_range 0x30 0x39 c else u_isdecimal c.

(** The value [int] gives a decimal digit. *)
Definition decimal_value (c : N) : Z :=
  if latin c then Z.of_N (c - 0x30) else u_decimal c.

(** [str.isdigit] on one code point. *)
Definition isdigit_char (c : N) : bool :=
  if latin c then in_range 0x30 0x39 c || in_range 0xB2 0xB3 c || (c =? 0xB9)%N
  else u_isdigit c.

Definition isnumeric (c : N) : bool :=
  if latin c then
    in_range 0x30 0x39 c || in_range 0xB2 0xB3 c || (c =? 0xB9)%N || in_range 0xBC 0xBE c
  else u_isnumeric c.

Definition isalpha (c : N) : bool :=
  if latin c then
    in_range 0x41 0x5A c || in_range 0x61 0x7A c || (c =? 0xAA)%N || (c =? 0xB5)%N
    || (c =? 0xBA)%N || in_range 0xC0 0xD6 c || in_range 0xD8 0xF6 c
    || in_range 0xF8 0x17F c
  else u_isalpha c.

(** CPython's [Py_UNICODE_ISALNUM]. *)
Definition isalnum (c : N) : bool :=
  isalpha c || isdecimal c || isdigit_char c || isnumeric c.

(** The pattern class [\w]: alphanumeric or underscore. *)
Definition isword (c : N) : bool := isalnum c || (c =? 0x5F)%N.

(** The one-to-one lower-case mapping the pattern matcher uses. *)
Definition tolower (c : N) : N :=
  if latin c then
    if in_range 0x41 0x5A c then (c + 32)%N
    else if in_range 0xC0 0xDE c && negb (c =? 0xD7)%N then (c + 32)%N
    else if (c =? 0x130)%N then 0x69%N
    else if (c =? 0x178)%N then 0xFF%N
    else if (in_range 0x100 0x137 c || in_range 0x14A 0x177 c) && N.even c then (c + 1)%N
    else if (in_range 0x139 0x148 c || in_range 0x179 0x17E c) && N.odd c then (c + 1)%N
    else c
  else u_tolower c.

(** Whether a code point has a case ([_sre.unicode_iscased]). *)
Definition iscased (c : N) : bool :=
  if latin c then
    in_range 0x41 0x5A c || in_range 0x61 0x7A c || (c =? 0xB5)%N
    || in_range 0xC0 0xD6 c || in_range 0xD8 0xF6 c || in_range 0xF8 0x137 c
    || in_range 0x139 0x17F c
  else u_iscased c.

(** The extra code points a lower-cased literal also matches when case is
    ignored (the matcher's case-fix table). *)
Definition casefix (c : N) : list N :=
  if latin c then
    if (c =? 0x69)%N then [0x131%N]
    else if (c =? 0x73)%N then [0x17F%N]
    else if (c =? 0xB5)%N then [0x3BC%N]
    else if (c =? 0x131)%N then [0x69%N]
    else if (c =? 0x17F)%N then [0x73%N]
    else []
  else u_casefix c.

(** [str.lower]: code point by code point on classified text (capital I
    with dot above lower-cases to two code points). *)
Definition lower_char (c : N) : Str :=
  if (c =? 0x130)%N then [0x69%N; 0x307%N] else [tolower c].

Definition lower (s : Str) : Str :=
  if forallb latin s then flat_map lower_char s else u_lower s.

(** [str.strip]. *)
Fixpoint lstrip (s : Str) : Str :=
  match s with
  | c :: tl => if isspace c then lstrip tl else s
  | [] => []
  end.

Definition rstrip (s : Str) : Str := rev (lstrip (rev s)).

Definition strip (s : Str) : Str := rstrip (lstrip s).

(** [str.isdigit]: non-empty and every code point a digit. *)
Definition isdigit (s : Str) : bool :=
  match s with [] => false | _ => forallb isdigit_char s end.

Fixpoint startswith (p s : Str) : bool :=
  match p, s with
  | [], _ => true
  | a :: p', b :: s' => (a =? b)%N && startswith p' s'
  | _ :: _, [] => false
  end.

Definition endswith (p s : Str) : bool := startswith (rev p) (rev s).

(** [s.replace(".0", "")]: every occurrence, left to right. *)
Fixpoint drop_dot0 (s : Str) : Str :=
  match s with
  | [] => []
  | c :: tl =>
    match tl with
    | d :: tl' =>
      if ((c =? 0x2E) && (d =? 0x30))%N then drop_dot0 tl' else c :: drop_dot0 tl
    | [] => [c]
    end
  end.

(** [s.zfill(2)] on a string of digits. *)
Definition zfill2 (s : Str) : Str :=
  match s with
  | [] => [0x30%N; 0x30%N]
  | [c] => [0x30%N; c]
  | _ => s
  end.

(** [int(s)] on a string of decimal digits. *)
Definition int_of_digits (s : Str) : Z :=
  fold_left (fun acc c => (10 * acc + decimal_value c)%Z) s 0%Z.

End Text.

(** [str(n)] for an integer. *)
Definition str_of_Z (z : Z) : Str :=
  map N_of_ascii (list_ascii_of_string (NilEmpty.string_of_int (Z.to_int z))).

(* ===================================================================== *)
(** ** Regular expressions: syntax and a backtracking matcher *)
(* ===================================================================== *)

(** One-character tests. *)
Inductive atom :=
| ALit (c : N)            (* a literal character *)
| ADigit                  (* \d *)
| ASpace                  (* \s *)
| ASet (cs : list N)      (* [abc] *)
| ARange (lo hi : N).     (* [a-b] *)

(** The constructs the program's patterns use. Repetition applies to
    one-character tests only, which is all the patterns need; [Opt] is the
    greedy [?] on any expression. *)
Inductive regex :=
| Eps
| Chr (a : atom)
| Bol                                         (* ^ *)
| Eol                                         (* $ *)
| WordB                                       (* \b *)
| Seq (r1 r2 : regex)
| Alt (r1 r2 : regex)                         (* r1|r2, r1 tried first *)
| Opt (r : regex)                             (* r? *)
| Rep (a : atom) (lo : nat) (hi : option nat) (* a{lo,hi}, greedy *)
| Group (n : nat) (r : regex)                 (* capturing group number n *)
| Backref (n : nat).                          (* \n *)

Fixpoint cat (l : list regex) : regex :=
  match l with
  | [] => Eps
  | [r] => r
  | r :: l' => Seq r (cat l')
  end.

Fixpoint alts (l : list regex) : regex :=
  match l with
  | [] => Eps
  | [r] => r
  | r :: l' => Alt r (alts l')
  end.

(** A literal word. *)
Definition lits (s : Str) : regex := cat (map (fun c => Chr (ALit c)) s).

(** The matcher's position: the character before it, the text ahead, the
    text matched since the innermost open group began (latest character
    first), and the groups captured so far (latest first). *)
Record mstate := {
  m_prev : option N;
  m_rest : Str;
  m_taken : Str;
  m_caps : list (nat * Str)
}.

Fixpoint assoc {A} (n : nat) (l : list (nat * A)) : option A :=
  match l with
  | [] => None
  | (k, v) :: l' => if Nat.eqb k n then Some v else assoc n l'
  end.

(** One character matched. *)
Definition take (c : N) (tl : Str) (st : mstate) : mstate :=
  {| m_prev := Some c; m_rest := tl; m_taken := c :: m_taken st; m_caps := m_caps st |}.

(** Entering a group, and leaving it with its text captured. *)
Definition open_group (st : mstate) : mstate :=
  {| m_prev := m_prev st; m_rest := m_rest st; m_taken := []; m_caps := m_caps st |}.

Definition close_group (n : nat) (st st' : mstate) : mstate :=
  {| m_prev := m_prev st'; m_rest := m_rest st';
     m_taken := m_taken st' ++ m_taken st;
     m_caps := (n, rev (m_taken st')) :: m_caps st' |}.

Section Matcher.
Context {U : UnicodeData}.

(** A literal under IGNORECASE: a cased literal matches every character
    whose lower case is the literal's or one of its case fixes; a caseless
    literal matches itself only. The sets and ranges the program uses under
    IGNORECASE are caseless, so they test the character as it is. *)
Definition lit_match (ic : bool) (c x : N) : bool :=
  if ic && iscased c then
    let lx := tolower x in
    (lx =? tolower c)%N || existsb (N.eqb lx) (casefix (tolower c))
  else (x =? c)%N.

Definition atom_match (ic : bool) (a : atom) (x : N) : bool :=
  match a with
  | ALit c => lit_match ic c x
  | ADigit => isdecimal x
  | ASpace => isspace x
  | ASet cs => existsb (N.eqb x) cs
  | ARange lo hi => in_range lo hi x
  end.

Definition isword_opt (o : option N) : bool :=
  match o with Some c => isword c | None => false end.

(** Greedy repetition: first go on (while allowed), then stop here. [hi]
    bounds the number of further characters. *)
Fixpoint rep_runs (p : N -> bool) (lo hi : nat) (st : mstate) : list mstate :=
  match hi, m_rest st with
  | S h, c :: tl => if p c then rep_runs p (pred lo) h (take c tl st) else []
  | _, _ => []
  end ++ match lo with O => [st] | S _ => [] end.

(** A back-reference matches the captured text again (comparing lower
    cases under IGNORECASE). *)
Fixpoint match_text (ic : bool) (txt : Str) (st : mstate) : option mstate :=
  match txt with
  | [] => Some st
  | c :: txt' =>
    match m_rest st with
    | x :: tl =>
      if (if ic then (tolower x =? tolower c)%N else (x =? c)%N)
      then match_text ic txt' (take x tl st) else None
    | [] => None
    end
  end.

(** Every way [r] matches at a position, in the order a backtracking
    matcher tries them: the head of the list is the match it reports. *)
Fixpoint runs (ic : bool) (r : regex) (st : mstate) : list mstate :=
  match r with
  | Eps => [st]
  | Chr a =>
    match m_rest st with
    | c :: tl => if atom_match ic a c then [take c tl st] else []
    | [] => []
    end
  | Bol => match m_prev st with None => [st] | Some _ => [] end
  | Eol =>
    match m_rest st with
    | [] => [st]
    | [c] => if (c =? 0x0A)%N then [st] else []
    | _ => []
    end
  | WordB =>
    if xorb (isword_opt (m_prev st)) (isword_opt (hd_error (m_rest st)))
    then [st] else []
  | Seq r1 r2 => flat_map (runs ic r2) (runs ic r1 st)
  | Alt r1 r2 => runs ic r1 st ++ runs ic r2 st
  | Opt r1 => runs ic r1 st ++ [st]
  | Rep a lo hi =>
    rep_runs (atom_match ic a) lo
             (match hi with Some h => h | None => length (m_rest st) end) st
  | Group n r1 => map (close_group n st) (runs ic r1 (open_group st))
  | Backref n =>
    match assoc n (m_caps st) with
    | Some txt =>
      match match_text ic txt st with
      | Some st' => [st']
      | None => []
      end
    | None => []
    end
  end.

(** A match object: the matched text and the groups. *)
Record pymatch := { g0 : Str; m_groups : list (nat * Str) }.

Definition group (m : pymatch) (n : nat) : Str :=
  match assoc n (m_groups m) with Some s => s | None => [] end.

Definition to_match (st' : mstate) : pymatch :=
  {| g0 := rev (m_taken st'); m_groups := m_caps st' |}.

Definition start (prev : option N) (rest : Str) : mstate :=
  {| m_prev := prev; m_rest := rest; m_taken := []; m_caps := [] |}.

(** The match at one position, if any. *)
Definition match_here (ic : bool) (r : regex) (prev : option N) (rest : Str)
  : option pymatch :=
  option_map to_match (hd_error (runs ic r (start prev rest))).

(** The same, but a match of the empty text does not count (the matcher's
    must-advance mode, used right after an empty match). *)
Definition match_nonempty (ic : bool) (r : regex) (prev : option N) (rest : Str)
  : option pymatch :=
  option_map to_match
    (find (fun st' => match m_taken st' with [] => false | _ :: _ => true end)
          (runs ic r (start prev rest))).

(** [re.match]. *)
Definition re_match (ic : bool) (r : regex) (s : Str) : option pymatch :=
  match_here ic r None s.

(** [re.search]: the first position, left to right, with a match. *)
Fixpoint search_from (ic : bool) (r : regex) (prev : option N) (rest : Str)
  : option pymatch :=
  match match_here ic r prev rest with
  | Some m => Some m
  | None =>
    match rest with
    | c :: tl => search_from ic r (Some c) tl
    | [] => None
    end
  end.

Definition re_search (ic : bool) (r : regex) (s : Str) : option pymatch :=
  search_from ic r None s.

(** [re.sub] with a replacement function: matches are found left to right
    and do not overlap. [skip] counts the characters of the current match
    still to pass over. *)
Fixpoint sub_go (ic : bool) (r : regex) (repl : pymatch -> Str)
         (skip : nat) (prev : option N) (rest : Str) {struct rest} : Str :=
  match skip with
  | S k =>
    match rest with
    | c :: tl => sub_go ic r repl k (Some c) tl
    | [] => []
    end
  | O =>
    let copy :=
      match rest with
      | c :: tl => c :: sub_go ic r repl 0 (Some c) tl
      | [] => []
      end in
    let pass (m : pymatch) :=
      match rest with
      | c :: tl => sub_go ic r repl (length (g0 m) - 1) (Some c) tl
      | [] => []
      end in
    match match_here ic r prev rest with
    | None => copy
    | Some m =>
      match g0 m with
      | _ :: _ => repl m ++ pass m
      | [] =>
        repl m ++
        match match_nonempty ic r prev rest with
        | Some m2 => repl m2 ++ pass m2
        | None => copy
        end
      end
    end
  end.

Definition re_sub (ic : bool) (r : regex) (repl : pymatch -> Str) (s : Str) : Str :=
  sub_go ic r repl 0 None s.

End Matcher.

(* ===================================================================== *)
(** ** The program's tables and patterns *)
(* ===================================================================== *)

Definition REGION_NAMES : list Str :=
  [py "region"; py "województwo"; py "wojewodztwo"; py "woj"; py "kraj";
   py "państwo"; py "panstwo"].

Definition PERIOD_NAMES : list Str :=
  [py "okres"; py "period"; py "kwartał"; py "kwartal"; py "rok"; py "miesiąc";
   py "miesiac"; py "year"; py "month"; py "okres według stanu"].

Definition ch (s : string) : N := hd 0%N (py s).
Arguments ch s%_string.

Definition digits (n : nat) : regex := Rep ADigit n (Some n).
Definition spaces1 : regex := Rep ASpace 1 None.

Definition REGION_PATTERNS : list regex :=
  [ cat [WordB; lits (py "woj");
         Group 1 (alts [lits (py "e"); lits (py "ewództw"); lits (py "ewodztw")]);
         lits (py "o")];
    cat [WordB; lits (py "region"); WordB];
    cat [WordB; lits (py "kraj"); WordB];
    cat [WordB; lits (py "pa"); Opt (Group 1 (lits (py "ns"))); lits (py "two"); WordB] ].

Definition PERIOD_PATTERNS : list regex :=
  [ cat [WordB; lits (py "okres"); WordB];
    cat [WordB; lits (py "period"); WordB];
    cat [WordB; lits (py "kwarta"); Group 1 (alts [lits (py "ł"); lits (py "l")]); WordB];
    cat [WordB; lits (py "rok"); WordB];
    cat [WordB; lits (py "miesi"); alts [lits (py "ąc"); lits (py "ac")]; WordB];
    cat [lits (py "okres"); spaces1; lits (py "wedlug"); spaces1; lits (py "stanu")];
    cat [lits (py "okres"); spaces1; lits (py "wed"); Chr (ASet (py "oó"));
         lits (py "ug"); spaces1; lits (py "stanu")] ].

(** [^\d{4}[-/]?q[1-4]$], compiled with IGNORECASE. *)
Definition PERIOD_Q_RE : regex :=
  cat [Bol; digits 4; Opt (Chr (ASet (py "-/"))); Chr (ALit (ch "q"));
       Chr (ARange (ch "1") (ch "4")); Eol].

(** [^\d{4}([-/])\d{2}(\1\d{2})?$] *)
Definition PERIOD_ISO_RE : regex :=
  cat [Bol; digits 4; Group 1 (Chr (ASet (py "-/"))); digits 2;
       Opt (Group 2 (cat [Backref 1; digits 2])); Eol].

(** [^\d{2}\.\d{2}\.\d{4}$] *)
Definition PERIOD_PL_RE : regex :=
  cat [Bol; digits 2; Chr (ALit (ch ".")); digits 2; Chr (ALit (ch ".")); digits 4; Eol].

(** [^\d{4}$] *)
Definition YEAR_ONLY_RE : regex := cat [Bol; digits 4; Eol].

Definition MONTHS_MAP : list (Str * Str) :=
  [ (py "stycznia", py "01"); (py "lutego", py "02"); (py "marca", py "03");
    (py "kwietnia", py "04"); (py "maja", py "05"); (py "czerwca", py "06");
    (py "lipca", py "07"); (py "sierpnia", py "08"); (py "września", py "09");
    (py "wrzesnia", py "09"); (py "października", py "10");
    (py "pazdziernika", py "10"); (py "listopada", py "11"); (py "grudnia", py "12") ].

(** [dict.get]. *)
Fixpoint dict_get {A} (k : Str) (d : list (Str * A)) : option A :=
  match d with
  | [] => None
  | (k', v) :: d' => if str_eqb k' k then Some v else dict_get k d'
  end.

(** The month alternatives of the date pattern, in the pattern's order. *)
Definition MONTH_WORDS : list Str :=
  [ py "stycznia"; py "lutego"; py "marca"; py "kwietnia"; py "maja"; py "czerwca";
    py "lipca"; py "sierpnia"; py "września"; py "wrzesnia"; py "października";
    py "pazdziernika"; py "listopada"; py "grudnia" ].

(** The tail [\s*r?\.?,?] of the date pattern. *)
Definition DATE_TAIL : regex :=
  cat [Rep ASpace 0 None; Opt (Chr (ALit (ch "r"))); Opt (Chr (ALit (ch ".")));
       Opt (Chr (ALit (ch ",")))].

(** [pat] of [normalize_polish_dates]:
    [\b(\d{1,2})\s+(stycznia|...|grudnia)\s+(\d{4})\s*r?\.?,?] *)
Definition POLISH_DATE_RE : regex :=
  cat [WordB; Group 1 (Rep ADigit 1 (Some 2)); spaces1;
       Group 2 (alts (map lits MONTH_WORDS)); spaces1;
       Group 3 (digits 4); DATE_TAIL].

(** [\b(\d{2})\.(\d{2})\.(\d{4})\b] *)
Definition DMY_RE : regex :=
  cat [WordB; Group 1 (digits 2); Chr (ALit (ch ".")); Group 2 (digits 2);
       Chr (ALit (ch ".")); Group 3 (digits 4); WordB].

(** [^(\d{4})] *)
Definition YEAR_START_RE : regex := cat [Bol; Group 1 (digits 4)].

(** [(\d{4})] *)
Definition YEAR_ANY_RE : regex := Group 1 (digits 4).

(** [\s+] *)
Definition WS_RE : regex := spaces1.

(** [^\s*[-–—]\s*$] *)
Definition DASH_RE : regex :=
  cat [Bol; Rep ASpace 0 None; Chr (ASet (py "-–—")); Rep ASpace 0 None; Eol].

(** Accented Latin letters and the letters left of them once the combining
    marks of their canonical decomposition are dropped. *)
Definition ACCENTED : Str :=
  py "ÀÁÂÃÄÅÇÈÉÊËÌÍÎÏÑÒÓÔÕÖÙÚÛÜÝàáâãäåçèéêëìíîïñòóôõöùúûüýÿĀāĂăĄąĆćĈĉĊċČčĎďĒēĔĕĖėĘęĚěĜĝĞğĠġĢģĤĥĨĩĪīĬĭĮįİĴĵĶķĹĺĻļĽľŃńŅņŇňŌōŎŏŐőŔŕŖŗŘřŚśŜŝŞşŠšŢţŤťŨũŪūŬŭŮůŰűŲųŴŵŶŷŸŹźŻżŽž".

Definition UNACCENTED : Str :=
  py "AAAAAACEEEEIIIINOOOOOUUUUYaaaaaaceeeeiiiinooooouuuuyyAaAaAaCcCcCcCcDdEeEeEeEeEeGgGgGgGgHhIiIiIiIiIJjKkLlLlLlNnNnNnOoOoOoRrRrRrSsSsSsSsTtTtUuUuUuUuUuUuWwYyYZzZzZz".

Fixpoint lookupN (c : N) (l : list (N * N)) : option N :=
  match l with
  | [] => None
  | (k, v) :: l' => if (k =? c)%N then Some v else lookupN c l'
  end.

(* ===================================================================== *)
(** ** The program's text functions *)
(* ===================================================================== *)

Section Program.
Context {U : UnicodeData}.

(** [repl] inside [normalize_polish_dates]. *)
Definition repl (m : pymatch) : Str :=
  let d := zfill2 (group m 1) in
  let y := group m 3 in
  match dict_get (lower (group m 2)) MONTHS_MAP with
  | Some mm => d ++ py "." ++ mm ++ py "." ++ y
  | None => g0 m
  end.

(** [normalize_polish_dates] on a [str] (any other value is handed back
    unchanged, see [normalize_value]). *)
Definition normalize_polish_dates (text : Str) : Str :=
  re_sub true POLISH_DATE_RE repl text.

(** [strip_accents]: canonical decomposition, combining marks removed. *)
Definition strip_accents (s : Str) : Str :=
  if forallb latin s then
    map (fun c => match lookupN c (combine ACCENTED UNACCENTED) with
                  | Some b => b
                  | None => c
                  end) s
  else u_strip_accents s.

(** [norm]. *)
Definition norm (s : Str) : Str :=
  re_sub false WS_RE (fun _ => py " ") (strip (lower (strip_accents s))).

(** [find_special_col]. *)
Definition find_special_col (columns : list Str) (exact_set : list Str)
           (patterns : list regex) : option Str :=
  match find (fun c => existsb (str_eqb (norm c)) exact_set) columns with
  | Some c => Some c
  | None =>
    find (fun c =>
            existsb (fun p => match re_search false p (norm c) with
                              | Some _ => true
                              | None => false
                              end) patterns) columns
  end.

Definition matches (ic : bool) (r : regex) (t : Str) : bool :=
  match re_match ic r t with Some _ => true | None => false end.

(** [is_period_token] on a [str]. *)
Definition is_period_token (s : Str) : bool :=
  let t := strip s in
  matches true PERIOD_Q_RE t
  || matches false PERIOD_ISO_RE t
  || matches false PERIOD_PL_RE (normalize_polish_dates t)
  || matches false YEAR_ONLY_RE t.

(** [period_year] on a [str]. *)
Definition period_year (s : Str) : option Z :=
  match strip s with
  | [] => None
  | t =>
    match re_search false DMY_RE t with
    | Some m => Some (int_of_digits (group m 3))
    | None =>
      match re_match false YEAR_START_RE t with
      | Some m => Some (int_of_digits (group m 1))
      | None =>
        match re_search false YEAR_ANY_RE t with
        | Some m => Some (int_of_digits (group m 1))
        | None => None
        end
      end
    end
  end.

End Program.

(* ===================================================================== *)
(** ** Values, exceptions and the world the script runs in *)
(* ===================================================================== *)

(** A float is observed through [is_integer]/[int] and through [str] only:
    [f_int] is [Some (int v)] when [v.is_integer()], and [f_str] is [str v]. *)
Record pyfloat := { f_int : option Z; f_str : Str }.

(** [float(n)] for an integer [n >= 0], as the integer it is equal to:
    the nearest number with a mantissa of 53 bits, a tie going to the even
    mantissa. *)
Definition to_double (n : Z) : Z :=
  let e := (Z.log2 n + 1 - 53)%Z in
  if (e <=? 0)%Z then n
  else
    let q := Z.shiftr n e in
    let r := (n - Z.shiftl q e)%Z in
    let half := Z.shiftl 1 (e - 1) in
    let q' := if (half <? r)%Z || ((r =? half)%Z && Z.odd q) then (q + 1)%Z else q in
    Z.shiftl q' e.

(** The decimal with the fewest digits that still reads back as the float
    [v] (the nearest one, when several have as few), looked for from [k]
    trailing zeros down. [lo2] and [hi2] are twice the bounds of what
    rounds to [v]; the bounds themselves round to [v] when its mantissa is
    even. *)
Fixpoint shortest_at (v lo2 hi2 : Z) (even : bool) (k : nat) : Z :=
  let p := (10 ^ Z.of_nat k)%Z in
  let c1 := (v / p * p)%Z in
  let c2 := (c1 + p)%Z in
  let ok := fun c : Z =>
    if even then (lo2 <=? 2 * c)%Z && (2 * c <=? hi2)%Z
    else (lo2 <? 2 * c)%Z && (2 * c <? hi2)%Z in
  match ok c1, ok c2 with
  | true, true => if (v - c1 <=? c2 - v)%Z then c1 else c2
  | true, false => c1
  | false, true => c2
  | false, false =>
    match k with
    | O => v
    | S k' => shortest_at v lo2 hi2 even k'
    end
  end.

Definition shortest (v : Z) : Z :=
  let e := (Z.log2 v + 1 - 53)%Z in
  if (e <=? 0)%Z then v
  else
    let m := Z.shiftr v e in
    let up := Z.shiftl 1 e in
    let down := if (m =? 2 ^ 52)%Z then Z.shiftl 1 (e - 1) else up in
    shortest_at v (2 * v - down)%Z (2 * v + up)%Z (Z.even m) (length (str_of_Z v)).

Fixpoint lstrip_zeros (s : Str) : Str :=
  match s with
  | c :: tl => if (c =? 0x30)%N then lstrip_zeros tl else s
  | [] => []
  end.

(** [str(float(n))] for an integer [n >= 0]: the digits and ".0" below
    1e16, and from there on the shortest digits with an exponent. *)
Definition float_text (n : Z) : Str :=
  let c := shortest (to_double n) in
  if (c <? 10 ^ 16)%Z then str_of_Z c ++ py ".0"
  else
    let s := str_of_Z c in
    let e := py "e+" ++ str_of_Z (Z.of_nat (length s) - 1) in
    match rev (lstrip_zeros (rev s)) with
    | [] => []
    | [d] => d :: e
    | d :: ds => d :: 0x2E%N :: ds ++ e
    end.

(** An integer cell turned into a float, as a column of integers is when
    it is put together with a column of floats. *)
Definition float_of_int (z : Z) : pyfloat :=
  {| f_int := Some (Z.sgn z * to_double (Z.abs z))%Z;
     f_str := (if (z <? 0)%Z then py "-" else []) ++ float_text (Z.abs z) |}.

(** The values a cell can hold: a missing number (NaN), the missing marker
    of the string dtype, or a float, integer, boolean or text. *)
Inductive pyval :=
| VNaN
| VNA
| VFloat (f : pyfloat)
| VInt (z : Z)
| VBool (b : bool)
| VStr (s : Str).

(** [pd.isna]. *)
Definition isna (v : pyval) : bool :=
  match v with VNaN | VNA => true | _ => false end.

(** [str(v)], which is also what [astype(str)] stores. *)
Definition str_of_val (v : pyval) : Str :=
  match v with
  | VNaN => py "nan"
  | VNA => py "<NA>"
  | VFloat f => f_str f
  | VInt z => str_of_Z z
  | VBool true => py "True"
  | VBool false => py "False"
  | VStr s => s
  end.

(** [astype("string")]: text, or the missing marker ([None] here). *)
Definition to_string (v : pyval) : option Str :=
  if isna v then None else Some (str_of_val v).

Definition of_string (o : option Str) : pyval :=
  match o with Some s => VStr s | None => VNA end.

(** A frame: its columns in order, each a label and its cells. The
    labels [read_csv] gives are distinct; stripping them can make two of
    them equal. *)
Definition DataFrame := list (Str * list pyval).

(** The dtypes [read_csv] gives a column. *)
Inductive dtype := Int64 | Float64 | BoolDtype | ObjectDtype.

Definition is_int (v : pyval) : bool :=
  match v with VInt _ => true | _ => false end.

Definition is_number (v : pyval) : bool :=
  match v with VInt _ | VFloat _ | VNaN => true | _ => false end.

Definition is_bool (v : pyval) : bool :=
  match v with VBool _ => true | _ => false end.

(** The dtype of a column, read off its cells: integers only, numbers
    with a float or a missing one among them, booleans only, or anything
    else (a column without lines too). *)
Definition dtype_of (cells : list pyval) : dtype :=
  match cells with
  | [] => ObjectDtype
  | _ :: _ =>
    if forallb is_int cells then Int64
    else if forallb is_number cells then Float64
    else if forallb is_bool cells then BoolDtype
    else ObjectDtype
  end.

(** The dtype two columns have in common when one is put under the
    other: integers and floats give floats, and every other mix gives
    objects. *)
Definition join_dtype (a b : dtype) : dtype :=
  match a, b with
  | Int64, Int64 => Int64
  | Int64, Float64 | Float64, Int64 | Float64, Float64 => Float64
  | BoolDtype, BoolDtype => BoolDtype
  | _, _ => ObjectDtype
  end.

Definition common_dtype (l : list dtype) : dtype :=
  match l with
  | [] => ObjectDtype
  | d :: l' => fold_left join_dtype l' d
  end.

(** A cell in a column of the dtype [d]: only an integer among floats
    changes. *)
Definition astype (d : dtype) (v : pyval) : pyval :=
  match d, v with
  | Float64, VInt z => VFloat (float_of_int z)
  | _, _ => v
  end.

Inductive exn :=
| ReadError (msg : Str)       (* whatever [read_csv] raised *)
| ValueError (msg : Str)
| KeyError (label : Str)
| AttributeError (msg : Str).

Inductive result (A : Type) :=
| Ok (a : A)
| Raise (e : exn).
Arguments Ok {A} a.
Arguments Raise {A} e.

(** One output record. *)
Record Row := {
  dataset : Str;
  measure : Str;
  value : Str;
  region : Str;
  period : Str;
  typ : Str
}.

(** What the script prints. *)
Inductive event :=
| EvInfo (name : Str) (years : list (option Z))  (* 0 rows after the filter *)
| EvOk (name : Str) (n : nat)
| EvError (name : Str) (e : exn)
| EvWarn (col : Str) (n : nat)
| EvSaved (n : nat)
| EvNoInput.

(** The state the script works on: the list [parts], the console, and the
    output file (absent until written). *)
Record world := {
  w_parts : list (list Row);
  w_log : list event;
  w_csv : option (list Row)
}.

Definition M (A : Type) : Type := world -> world * result A.

Definition ret {A} (a : A) : M A := fun w => (w, Ok a).

Definition bind {A B} (m : M A) (k : A -> M B) : M B :=
  fun w => match m w with
           | (w', Ok a) => k a w'
           | (w', Raise e) => (w', Raise e)
           end.

Notation "x <- m ;; k" := (bind m (fun x => k))
  (at level 61, m at next level, right associativity).
Notation "m ;; k" := (bind m (fun _ => k))
  (at level 61, right associativity).

Definition lift {A} (r : result A) : M A := fun w => (w, r).

(** [try: m except Exception as e: h e]; what [m] did before raising stays
    done. *)
Definition try_except {A} (m : M A) (h : exn -> M A) : M A :=
  fun w => match m w with
           | (w', Ok a) => (w', Ok a)
           | (w', Raise e) => h e w'
           end.

Definition print (e : event) : M unit :=
  fun w => ({| w_parts := w_parts w; w_log := w_log w ++ [e]; w_csv := w_csv w |}, Ok tt).

Definition append_part (p : list Row) : M unit :=
  fun w => ({| w_parts := w_parts w ++ [p]; w_log := w_log w; w_csv := w_csv w |}, Ok tt).

Definition get_parts : M (list (list Row)) := fun w => (w, Ok (w_parts w)).

Definition to_csv (rows : list Row) : M unit :=
  fun w => ({| w_parts := w_parts w; w_log := w_log w; w_csv := Some rows |}, Ok tt).

Definition empty_world : world := {| w_parts := []; w_log := []; w_csv := None |}.

(** [sorted] on a list of [str]: by code point, lexicographically. *)
Fixpoint str_leb (a b : Str) : bool :=
  match a, b with
  | [], _ => true
  | _ :: _, [] => false
  | x :: a', y :: b' => (x <? y)%N || ((x =? y)%N && str_leb a' b')
  end.

Fixpoint insert_sorted (x : Str) (l : list Str) : list Str :=
  match l with
  | [] => [x]
  | y :: l' => if str_leb x y then x :: l else y :: insert_sorted x l'
  end.

Definition sorted (l : list Str) : list Str := fold_right insert_sorted [] l.

(** [os.path.basename] and the root of [os.path.splitext]. *)
Fixpoint before_sep (sep : N) (r : Str) : Str :=
  match r with
  | [] => []
  | c :: tl => if (c =? sep)%N then [] else c :: before_sep sep tl
  end.

Definition basename (p : Str) : Str := rev (before_sep (ch "/") (rev p)).

Fixpoint after_dot (r : Str) : option Str :=
  match r with
  | [] => None
  | c :: tl => if (c =? ch ".")%N then Some tl else after_dot tl
  end.

Definition splitext_root (name : Str) : Str :=
  match after_dot (rev name) with
  | Some r => if forallb (N.eqb (ch ".")) r then name else rev r
  | None => name
  end.

(** [Series.mode] on integers: the most frequent values, ascending. *)
Definition count_z (z : Z) (l : list Z) : nat := count_occ Z.eq_dec l z.

Definition max_count (l : list Z) : nat :=
  fold_right (fun z m => Nat.max (count_z z l) m) 0 l.

Fixpoint insert_z (x : Z) (l : list Z) : list Z :=
  match l with
  | [] => [x]
  | y :: l' => if (x <=? y)%Z then x :: l else y :: insert_z x l'
  end.

Definition sort_z (l : list Z) : list Z := fold_right insert_z [] l.

Definition mode (l : list Z) : list Z :=
  sort_z (nodup Z.eq_dec (filter (fun z => count_z z l =? max_count l) l)).

(* ===================================================================== *)
(** ** Processing one file *)
(* ===================================================================== *)

Section Pipeline.
Context {U : UnicodeData}.

(** [clean_value]. *)
Definition clean_value (v : pyval) : Str :=
  if isna v then []
  else
    match (match v with VFloat f => f_int f | _ => None end) with
    | Some z => str_of_Z z
    | None =>
      let s := str_of_val v in
      if endswith (py ".0") s && isdigit (drop_dot0 s) then drop_dot0 s else s
    end.

(** [normalize_polish_dates] on any value: only text is rewritten. *)
Definition normalize_value (v : pyval) : pyval :=
  match v with VStr s => VStr (normalize_polish_dates s) | _ => v end.

Definition mem (c : Str) (l : list Str) : bool := existsb (str_eqb c) l.

Definition df_columns (df : DataFrame) : list Str := map fst df.

Definition nrows (df : DataFrame) : nat :=
  match df with
  | [] => 0
  | (_, cells) :: _ => length cells
  end.

Definition column (df : DataFrame) (c : Str) : list pyval :=
  match find (fun p => str_eqb (fst p) c) df with
  | Some p => snd p
  | None => []
  end.

(** Step 1: [df.replace(regex={r"^\s*[-–—]\s*$": "brak danych"})] rewrites
    text cells with [re.sub]. *)
Definition replace_dashes (df : DataFrame) : DataFrame :=
  map (fun col =>
         (fst col,
          map (fun v => match v with
                        | VStr s => VStr (re_sub false DASH_RE (fun _ => py "brak danych") s)
                        | _ => v
                        end) (snd col))) df.

(** The loop of [table_has_any_period] over the columns still to look
    at. For a label that two columns carry, [df[c]] is a frame, the test
    gives one answer per column, and [if] cannot decide it. *)
Fixpoint cells_have_period (labels : list Str) (cols : DataFrame) : result bool :=
  match cols with
  | [] => Ok false
  | col :: rest =>
    match filter (str_eqb (fst col)) labels with
    | _ :: _ :: _ =>
      Raise (ValueError (py "The truth value of a Series is ambiguous."))
    | _ =>
      if existsb (fun v => is_period_token (str_of_val v)) (snd col) then Ok true
      else cells_have_period labels rest
    end
  end.

(** [table_has_any_period]. *)
Definition table_has_any_period (df : DataFrame) : result bool :=
  if existsb is_period_token (df_columns df) then Ok true
  else cells_have_period (df_columns df) df.

(** [if x: id_vars.append(x)]: a column found, with a non-empty label. *)
Definition opt_list (o : option Str) : list Str :=
  match o with
  | Some (c :: s) => [c :: s]
  | _ => []
  end.

(** Step 2, the identifier columns. *)
Definition id_vars_of (region_col period_col typ_col : option Str) : list Str :=
  opt_list region_col ++ opt_list period_col ++ opt_list typ_col.

(** [soft_id], the identifiers of the fallback. *)
Definition soft_id_of (region_col typ_col : option Str) : list Str :=
  opt_list region_col ++ opt_list typ_col.

(** [c for c in columns if c not in ids] *)
Definition not_in (ids columns : list Str) : list Str :=
  filter (fun c => negb (mem c ids)) columns.

(** Step 3, the value columns with their fallbacks. *)
Definition value_vars_of (columns : list Str)
           (region_col period_col typ_col : option Str) : list Str :=
  let id_vars := id_vars_of region_col period_col typ_col in
  match not_in id_vars columns with
  | c :: l => c :: l
  | [] =>
    let soft_id := soft_id_of region_col typ_col in
    match not_in soft_id columns with
    | c :: l => c :: l
    | [] => columns
    end
  end.

(** A row of the melted frame: the identifier cells (in the order of
    [id_vars]), the value column's label and the cell. *)
Record MeltRow := { ids : list pyval; var : Str; val : pyval }.

Fixpoint nodup_str (l : list Str) : list Str :=
  match l with
  | [] => []
  | x :: l' => x :: filter (fun y => negb (str_eqb x y)) (nodup_str l')
  end.

(** The columns of a frame that carry a label, and the frame without
    them. *)
Definition columns_named (frame : DataFrame) (c : Str) : DataFrame :=
  filter (fun col => str_eqb (fst col) c) frame.

Definition drop_named (frame : DataFrame) (c : Str) : DataFrame :=
  filter (fun col => negb (str_eqb (fst col) c)) frame.

(** [frame.iloc[:, unique(idx)]]: the columns the labels name, label by
    label, each column once. *)
Definition cut (df : DataFrame) (labels : list Str) : DataFrame :=
  flat_map (columns_named df) (nodup_str labels).

(** The loop of [melt] over the identifiers: [frame.pop(col)] takes the
    column out, and its cells are repeated [adjusted] times. A label no
    longer in the frame, a label that two columns carry (what is popped is
    a frame then), and a negative number of repeats make it raise. *)
Fixpoint pop_ids (num_rows : nat) (adjusted : Z) (frame : DataFrame) (id_vars : list Str)
  : result (list (list pyval) * DataFrame) :=
  match id_vars with
  | [] => Ok ([], frame)
  | c :: rest =>
    match columns_named frame c with
    | [] => Raise (KeyError c)
    | [col] =>
      if (adjusted <? 0)%Z && negb (Nat.eqb num_rows 0) then
        Raise (ValueError (py "repeats may not contain negative values."))
      else
        match pop_ids num_rows adjusted (drop_named frame c) rest with
        | Ok (id_data, kept) => Ok (snd col :: id_data, kept)
        | Raise e => Raise e
        end
    | _ :: _ :: _ =>
      Raise (AttributeError (py "'DataFrame' object has no attribute 'dtype'"))
    end
  end.

(** The columns left are put one under the other, in one column of their
    common dtype; every line of each gives a row. *)
Definition stack (num_rows : nat) (id_data : list (list pyval)) (kept : DataFrame)
  : list MeltRow :=
  let d := common_dtype (map (fun col => dtype_of (snd col)) kept) in
  flat_map
    (fun col =>
       map (fun i => {| ids := map (fun cells => nth i cells VNaN) id_data;
                        var := fst col;
                        val := astype d (nth i (snd col) VNaN) |})
           (seq 0 num_rows))
    kept.

(** Step 4, [df.melt(id_vars, value_vars, var_name="measure",
    value_name="value")]: a column called [value] and a label that is no
    column make it raise; the frame is cut to the named columns, the
    identifier columns are taken out one by one, and the columns left are
    stacked. *)
Definition melt (df : DataFrame) (id_vars value_vars : list Str)
  : result (list MeltRow) :=
  if mem (py "value") (df_columns df) then
    Raise (ValueError (py "value_name (value) cannot match an element in the DataFrame columns."))
  else
    match find (fun l => negb (mem l (df_columns df))) (id_vars ++ value_vars) with
    | Some l => Raise (KeyError l)
    | None =>
      let frame := match id_vars ++ value_vars with
                   | [] => df
                   | _ :: _ => cut df (id_vars ++ value_vars)
                   end in
      let adjusted := (Z.of_nat (length frame) - Z.of_nat (length id_vars))%Z in
      match pop_ids (nrows df) adjusted frame id_vars with
      | Raise e => Raise e
      | Ok (id_data, kept) => Ok (stack (nrows df) id_data kept)
      end
    end.

(** The long frame of steps 5 and 6: the identifier cells and the five
    string columns (the data set's name is the same on every row). *)
Record LongRow := {
  l_ids : list pyval;
  l_measure : option Str;
  l_value : option Str;
  l_region : option Str;
  l_period : option Str;
  l_typ : option Str
}.

Fixpoint index_of (c : Str) (l : list Str) : nat :=
  match l with
  | [] => 0
  | x :: l' => if str_eqb x c then 0 else S (index_of c l')
  end.

(** [long[col] if col else ""], then [astype("string")]. *)
Definition pick (id_vars : list Str) (r : MeltRow) (col : option Str) : option Str :=
  match opt_list col with
  | [c] => to_string (nth (index_of c id_vars) (ids r) VNaN)
  | _ => Some []
  end.

(** Step 5. *)
Definition to_long (id_vars : list Str) (region_col period_col typ_col : option Str)
           (r : MeltRow) : LongRow :=
  {| l_ids := ids r;
     l_measure := to_string (VStr (var r));
     l_value := to_string (val r);
     l_region := pick id_vars r region_col;
     l_period := pick id_vars r period_col;
     l_typ := pick id_vars r typ_col |}.

Definition empty_period (o : option Str) : bool :=
  match o with
  | None => true
  | Some [] => true
  | Some (_ :: _) => false
  end.

(** One assignment of step 6: a period token fills a period still empty. *)
Definition adopt (candidate : Str) (r : LongRow) : LongRow :=
  if is_period_token candidate && empty_period (l_period r) then
    {| l_ids := l_ids r; l_measure := l_measure r; l_value := l_value r;
       l_region := l_region r; l_period := Some candidate; l_typ := l_typ r |}
  else r.

(** Step 6: first the measure, then every identifier cell in turn. *)
Definition backfill (r : LongRow) : LongRow :=
  fold_left (fun acc v => adopt (str_of_val v) acc) (l_ids r)
            (adopt (str_of_val (of_string (l_measure r))) r).

(** Step 7 on one cell: [clean_value], [normalize_polish_dates], white
    space collapsed and stripped. *)
Definition clean_cell (v : pyval) : Str :=
  strip (re_sub false WS_RE (fun _ => py " ") (normalize_polish_dates (clean_value v))).

(** Step 7. *)
Definition clean_row (ds : Str) (r : LongRow) : Row :=
  {| dataset := ds;
     measure := clean_cell (of_string (l_measure r));
     value := clean_cell (of_string (l_value r));
     region := clean_cell (of_string (l_region r));
     period := clean_cell (of_string (l_period r));
     typ := clean_cell (of_string (l_typ r)) |}.

Definition set_period (p : Str) (r : Row) : Row :=
  {| dataset := dataset r; measure := measure r; value := value r;
     region := region r; period := p; typ := typ r |}.

(** [isin([2024, 2025])]. *)
Definition isin_years (o : option Z) : bool :=
  match o with
  | Some y => (y =? 2024)%Z || (y =? 2025)%Z
  | None => false
  end.

Fixpoint somes {A} (l : list (option A)) : list A :=
  match l with
  | [] => []
  | Some a :: l' => a :: somes l'
  | None :: l' => somes l'
  end.

(** The years of the rows whose period gives 2024 or 2025. *)
Definition dominant_years (rows : list Row) : list Z :=
  somes (filter isin_years (map (fun r => period_year (period r)) rows)).

(** [default_year]. *)
Definition default_year (rows : list Row) : Z :=
  match mode (dominant_years rows) with
  | y :: _ => y
  | [] => 2025%Z
  end.

Definition fill_default (d : Z) (r : Row) : Row :=
  match period r with
  | [] => set_period (str_of_Z d) r
  | _ :: _ => r
  end.

(** Step 8. *)
Definition period_policy (has_any_period : bool) (rows : list Row) : list Row :=
  let rows := if has_any_period then rows else map (set_period (py "2025")) rows in
  map (fill_default (default_year rows)) rows.

(** Step 9. *)
Definition year_filter (rows : list Row) : list Row :=
  filter (fun r => isin_years (period_year (period r))) rows.

(** The file system: what [glob] lists and what [read_csv_any] gives. *)
Variable listing : list Str.
Variable read_csv_any : Str -> result DataFrame.

(** [process_file]. *)
Definition process_file (path : Str) : M (list Row) :=
  df <- lift (read_csv_any path) ;;
  let df := map (fun col => (strip (fst col), snd col)) df in
  let df := replace_dashes df in
  let dataset := splitext_root (basename path) in
  has_any_period_in_table <- lift (table_has_any_period df) ;;
  let region_col := find_special_col (df_columns df) REGION_NAMES REGION_PATTERNS in
  let period_col := find_special_col (df_columns df) PERIOD_NAMES PERIOD_PATTERNS in
  let typ_col := find (fun c => str_eqb (norm c) (py "typ")) (df_columns df) in
  let id_vars := id_vars_of region_col period_col typ_col in
  let value_vars := value_vars_of (df_columns df) region_col period_col typ_col in
  melted <- lift (melt df id_vars value_vars) ;;
  let long := map (to_long id_vars region_col period_col typ_col) melted in
  let long := map backfill long in
  let long := map (clean_row dataset) long in
  let long := period_policy has_any_period_in_table long in
  let kept := year_filter long in
  (match kept with
   | [] => print (EvInfo (basename path) (map (fun r => period_year (period r)) long))
   | _ :: _ => ret tt
   end) ;;
  ret kept.

(** The main loop. *)
Fixpoint for_paths (paths : list Str) : M unit :=
  match paths with
  | [] => ret tt
  | path :: rest =>
    try_except
      (part <- process_file path ;;
       append_part part ;;
       print (EvOk (basename path) (length part)))
      (fun e => print (EvError (basename path) e)) ;;
    for_paths rest
  end.

(** [fillna("").astype(str).str.strip()], then the default where empty. *)
Definition fill (dflt : Str) (s : Str) : Str :=
  match strip s with
  | [] => dflt
  | c :: s' => c :: s'
  end.

(** Step 10 on one row of the master table. *)
Definition fill_row (r : Row) : Row :=
  {| dataset := dataset r; measure := measure r; value := value r;
     region := fill (py "ogółem") (region r);
     period := fill (py "2025") (period r);
     typ := fill (py "ogółem") (typ r) |}.

Definition n_empty (f : Row -> Str) (rows : list Row) : nat :=
  length (filter (fun r => match strip (f r) with [] => true | _ => false end) rows).

Definition sanity_check (col : Str) (f : Row -> Str) (master : list Row) : M unit :=
  match n_empty f master with
  | O => ret tt
  | S n => print (EvWarn col (S n))
  end.

(** The script. *)
Definition main : M unit :=
  for_paths (sorted listing) ;;
  parts <- get_parts ;;
  match parts with
  | _ :: _ =>
    let master := map fill_row (concat parts) in
    sanity_check (py "region") region master ;;
    sanity_check (py "typ") typ master ;;
    sanity_check (py "period") period master ;;
    to_csv master ;;
    print (EvSaved (length master))
  | [] => print EvNoInput
  end.

End Pipeline.

(* ===================================================================== *)
(** ** What a run does, file by file *)
(* ===================================================================== *)

Section Script.
Context {U : UnicodeData}.
Variable read_csv_any : Str -> result DataFrame.

Definition add_log (w : world) (evs : list event) : world :=
  {| w_parts := w_parts w; w_log := w_log w ++ evs; w_csv := w_csv w |}.

(** What [process_file] returns or raises for a path, and what it prints. *)
Definition outcome (path : Str) : result (list Row) :=
  snd (process_file read_csv_any path empty_world).

Definition printed (path : Str) : list event :=
  w_log (fst (process_file read_csv_any path empty_world)).

(** The parts the files that were processed leave, in order. *)
Definition successes (paths : list Str) : list (list Row) :=
  flat_map (fun p => match outcome p with
                     | Ok rows => [rows]
                     | Raise _ => []
                     end) paths.

(** The console lines of the loop. *)
Definition loop_log (paths : list Str) : list event :=
  flat_map (fun p => printed p ++
                     [match outcome p with
                      | Ok rows => EvOk (basename p) (length rows)
                      | Raise e => EvError (basename p) e
                      end]) paths.

End Script.

(* ===================================================================== *)
(** ** Sample inputs *)

(** One line, no period column, the years as column labels. *)
Definition sample_wide : DataFrame :=
  [ (py "region", [VStr (py "Polska")]); (py "typ", [VStr (py "ogółem")]);
    (py "2024", [VInt 10]); (py "2025", [VInt 20]) ].

(** One line of 2023: nothing passes the year filter. *)
Definition sample_old : DataFrame :=
  [ (py "okres", [VStr (py "2023-Q1")]); (py "liczba", [VInt 7]) ].

(** A directory of two files, the second unreadable. *)
Definition sample_listing : list Str := [py "/dane/b.csv"; py "/dane/a.csv"].

Definition sample_read (path : Str) : result DataFrame :=
  if str_eqb path (py "/dane/a.csv") then Ok sample_wide
  else Raise (ReadError (py "cannot read")).

(** A table with a period column and nothing else. *)
Definition sample_period_only : DataFrame :=
  [ (py "okres", [VStr (py "2024-Q1"); VStr (py "2025-Q1")]) ].

(* ===================================================================== *)
(** ** The year extractor in the specification's words *)
(* ===================================================================== *)

Section YearInWords.
Context {U : UnicodeData}.

(** Four decimal digits at the head of a text. *)
Definition four_digits (s : Str) : option Str :=
  match s with
  | a :: b :: c :: d :: _ =>
    if isdecimal a && isdecimal b && isdecimal c && isdecimal d
    then Some [a; b; c; d] else None
  | _ => None
  end.

(** DD.MM.YYYY at the head of a text: the year and what follows it. *)
Definition dotted_date (s : Str) : option (Str * Str) :=
  match s with
  | a :: b :: p :: c :: d :: q :: tl =>
    if isdecimal a && isdecimal b && (p =? ch ".")%N
       && isdecimal c && isdecimal d && (q =? ch ".")%N
    then match four_digits tl with
         | Some y => Some (y, skipn 4 tl)
         | None => None
         end
    else None
  | _ => None
  end.

(** The year of a dotted date at a position. With [bounded], the date
    must not touch a word character on either side. *)
Definition date_year (bounded : bool) (prev : option N) (s : Str) : option Str :=
  match dotted_date s with
  | Some (y, tl) =>
    if bounded && (isword_opt prev || isword_opt (hd_error tl)) then None else Some y
  | None => None
  end.

(** The first position, left to right, where [f] finds something. *)
Fixpoint first_from (f : option N -> Str -> option Str) (prev : option N) (rest : Str)
  : option Str :=
  match f prev rest with
  | Some y => Some y
  | None =>
    match rest with
    | c :: tl => first_from f (Some c) tl
    | [] => None
    end
  end.

(** The year extractor as section 4.3 of the specification words it:
    (a) a DD.MM.YYYY substring anywhere in the text, (b) four digits at
    the very start, (c) the first run of four digits anywhere, else null.
    The spec does not say whether the date of (a) may touch a word
    character; [bounded] decides it. *)
Definition extract_year_in_words (bounded : bool) (s : Str) : option Z :=
  let t := strip s in
  match first_from (date_year bounded) None t with
  | Some y => Some (int_of_digits y)
  | None =>
    match four_digits t with
    | Some y => Some (int_of_digits y)
    | None =>
      match first_from (fun _ => four_digits) None t with
      | Some y => Some (int_of_digits y)
      | None => None
      end
    end
  end.

(** A run of four decimal digits somewhere in a text. *)
Definition has_four_digits (t : Str) : Prop :=
  exists pre a b c d post,
    t = pre ++ a :: b :: c :: d :: post
    /\ isdecimal a = true /\ isdecimal b = true
    /\ isdecimal c = true /\ isdecimal d = true.

End YearInWords.

(* ===================================================================== *)
(** ** The quarter forms of the specification's test *)
(* ===================================================================== *)

(** [^\d{4}-Q[1-4]$] and [^\d{4}Q[1-4]$], read in any letter case. *)
Definition QUARTER_DASH_RE : regex :=
  cat [Bol; digits 4; Chr (ALit (ch "-")); Chr (ALit (ch "Q")); Chr (ARange (ch "1") (ch "4")); Eol].

Definition QUARTER_PLAIN_RE : regex :=
  cat [Bol; digits 4; Chr (ALit (ch "Q")); Chr (ARange (ch "1") (ch "4")); Eol].

(** Text without any white space. *)
Definition no_space (s : Str) : bool := forallb (fun c => negb (isspace c)) s.

(* ===================================================================== *)
(** ** Notions for the date rewriting *)
(* ===================================================================== *)

Section DateNotions.
Context {U : UnicodeData}.

(** The character before a position that lies [x] further on. *)
Definition last_opt (prev : option N) (x : Str) : option N :=
  match rev x with
  | c :: _ => Some c
  | [] => prev
  end.

(** The matcher's state after the text [x], with [r] still ahead. *)
Definition moved (x r : Str) (st : mstate) : mstate :=
  {| m_prev := last_opt (m_prev st) x; m_rest := r;
     m_taken := rev x ++ m_taken st; m_caps := m_caps st |}.

(** The same, with [x] captured as group [n]. *)
Definition captured (n : nat) (x r : Str) (st : mstate) : mstate :=
  {| m_prev := last_opt (m_prev st) x; m_rest := r;
     m_taken := rev x ++ m_taken st; m_caps := (n, x) :: m_caps st |}.

(** A word of the pattern against a text, letter by letter, ignoring case. *)
Fixpoint word_match (w x : Str) : bool :=
  match w, x with
  | [], [] => true
  | c :: w', a :: x' => lit_match true c a && word_match w' x'
  | _, _ => false
  end.

(** The letters of the pattern: those of the month words, and the "r" of
    the tail. *)
Definition date_letters : list N := ch "r" :: concat MONTH_WORDS.

(** A text one of the month alternatives matches. *)
Definition month_text (mo : Str) : bool := existsb (fun w => word_match w mo) MONTH_WORDS.

(** What the date pattern needs at a position, up to the year: no word
    character before, one or two digits, white space, a month, white
    space, four digits. *)
Definition date_core (prev : option N) (d w1 mo w2 y : Str) : Prop :=
  isword_opt prev = false
  /\ (length d = 1 \/ length d = 2) /\ forallb isdecimal d = true
  /\ w1 <> [] /\ forallb isspace w1 = true
  /\ month_text mo = true
  /\ w2 <> [] /\ forallb isspace w2 = true
  /\ length y = 4 /\ forallb isdecimal y = true.

(** A match of the date pattern whose month is in [MONTHS_MAP], so that
    [repl] rewrites it. *)
Definition hit (prev : option N) (rest : Str) : bool :=
  match match_here true POLISH_DATE_RE prev rest with
  | Some m =>
    match dict_get (lower (group m 2)) MONTHS_MAP with
    | Some _ => true
    | None => false
    end
  | None => false
  end.

(** A digit, then white space, or a second digit and then white space or
    a full stop, with no word character before: how the text of a match
    and its replacement both begin. *)
Definition day_start (prev : option N) (o : Str) : bool :=
  negb (isword_opt prev)
  && match o with
     | a :: b :: rest =>
       isdecimal a
       && (isspace b
           || (isdecimal b
               && match rest with
                  | c :: _ => isspace c || (c =? ch ".")%N
                  | [] => false
                  end))
     | _ => false
     end.

(** The same without the full stop: how the text of a match begins. *)
Definition core_start (prev : option N) (o : Str) : bool :=
  negb (isword_opt prev)
  && match o with
     | a :: b :: rest =>
       isdecimal a
       && (isspace b
           || (isdecimal b
               && match rest with
                  | c :: _ => isspace c
                  | [] => false
                  end))
     | _ => false
     end.

(** [P] at every position of [o], where [o] is followed by [after]. *)
Fixpoint all_pos (P : option N -> Str -> Prop) (prev : option N) (o after : Str) : Prop :=
  match o with
  | [] => True
  | c :: o' => P prev (o ++ after) /\ all_pos P (Some c) o' after
  end.

End DateNotions.

(* ===================================================================== *)
(** ** Reading a file: the fallback over encodings *)
(* ===================================================================== *)

From Stdlib Require Import Permutation Sorted DecimalPos.

(** The encodings [read_csv_any] tries, in its order. *)
Definition ENCODINGS : list Str :=
  [py "utf-8-sig"; py "utf-8"; py "cp1250"; py "iso-8859-2"].

Section Reader.

(** [pd.read_csv(path, encoding=enc)]; [None] stands for the call that
    names no encoding. *)
Variable read_csv : Str -> option Str -> result DataFrame.

(** The loop of [read_csv_any] over the encodings still to try, and the
    last call after it. *)
Fixpoint read_with (encs : list Str) (path : Str) : result DataFrame :=
  match encs with
  | enc :: rest =>
    match read_csv path (Some enc) with
    | Ok df => Ok df
    | Raise _ => read_with rest path
    end
  | [] => read_csv path None
  end.

(** [read_csv_any]. *)
Definition read_csv_any (path : Str) : result DataFrame :=
  read_with ENCODINGS path.

End Reader.

(* ===================================================================== *)
(** ** Shapes of text *)
(* ===================================================================== *)

(** The longest prefix of [s] whose characters all pass [p], and what is
    left after it. *)
Fixpoint take_while (p : N -> bool) (s : Str) : Str :=
  match s with
  | c :: tl => if p c then c :: take_while p tl else []
  | [] => []
  end.

Fixpoint drop_while (p : N -> bool) (s : Str) : Str :=
  match s with
  | c :: tl => if p c then drop_while p tl else s
  | [] => []
  end.

(** White space collapsed: every white-space character is a space, and
    none follows it. *)
Fixpoint spaced (s : Str) : bool :=
  match s with
  | [] => true
  | c :: tl =>
    (if isspace c
     then (c =? 0x20)%N && match tl with d :: _ => negb (isspace d) | [] => true end
     else true)
    && spaced tl
  end.

(** No white space at either end. *)
Definition trimmed (s : Str) : bool :=
  match s with
  | [] => true
  | c :: _ => negb (isspace c) && negb (isspace (last s c))
  end.

(** Collapsed and trimmed: what [norm] and step 7 of [process_file] leave. *)
Definition tidy (s : Str) : bool := spaced s && trimmed s.

(** A cell that holds one dash and white space only. *)
Definition dash_cell (s : Str) : bool :=
  match drop_while isspace s with
  | c :: tl => existsb (N.eqb c) (py "-–—") && forallb isspace tl
  | [] => false
  end.

(* ===================================================================== *)
(** ** The stages of [process_file], by name *)
(* ===================================================================== *)

Section Stages.
Context {U : UnicodeData}.

(** The two tests of [find_special_col] on a column. *)
Definition exact_hit (exact_set : list Str) (c : Str) : bool :=
  existsb (str_eqb (norm c)) exact_set.

Definition pattern_hit (patterns : list regex) (c : Str) : bool :=
  existsb (fun p => match re_search false p (norm c) with
                    | Some _ => true
                    | None => false
                    end) patterns.

(** The frame [process_file] works on: labels stripped, dash cells
    replaced (the lines before step 2). *)
Definition prepared (df : DataFrame) : DataFrame :=
  replace_dashes (map (fun col => (strip (fst col), snd col)) df).

(** Step 2 on a frame. *)
Definition region_col_of (df : DataFrame) : option Str :=
  find_special_col (df_columns df) REGION_NAMES REGION_PATTERNS.

Definition period_col_of (df : DataFrame) : option Str :=
  find_special_col (df_columns df) PERIOD_NAMES PERIOD_PATTERNS.

Definition typ_col_of (df : DataFrame) : option Str :=
  find (fun c => str_eqb (norm c) (py "typ")) (df_columns df).

Definition id_vars_in (df : DataFrame) : list Str :=
  id_vars_of (region_col_of df) (period_col_of df) (typ_col_of df).

Definition value_vars_in (df : DataFrame) : list Str :=
  value_vars_of (df_columns df) (region_col_of df) (period_col_of df) (typ_col_of df).

(** Steps 5 to 7 on one melted row. *)
Definition row_of (path : Str) (df : DataFrame) (r : MeltRow) : Row :=
  clean_row (splitext_root (basename path))
    (backfill (to_long (id_vars_in df) (region_col_of df) (period_col_of df)
                       (typ_col_of df) r)).

(** A label or a cell of the table is a period token: what
    [table_has_any_period] answers when it answers. *)
Definition period_evidence (df : DataFrame) : bool :=
  existsb is_period_token (df_columns df)
  || existsb (fun col => existsb (fun v => is_period_token (str_of_val v)) (snd col)) df.

(** Steps 5 to 8 on the melted rows. *)
Definition long_of (path : Str) (df : DataFrame) (melted : list MeltRow) : list Row :=
  period_policy (period_evidence df) (map (row_of path df) melted).

(** How many rows have a period of the year [y]. *)
Definition rows_of_year (y : Z) (rows : list Row) : nat :=
  length (filter (fun r => match period_year (period r) with
                           | Some z => (z =? y)%Z
                           | None => false
                           end) rows).

(** The candidates of step 6 for a row's period, in the order they are
    tried: the measure, then the identifier cells. *)
Definition candidates (r : LongRow) : list Str :=
  str_of_val (of_string (l_measure r)) :: map str_of_val (l_ids r).

(** The fill-in of step 10 on a field that is already stripped. *)
Definition or_default (dflt s : Str) : Str :=
  match s with
  | [] => dflt
  | _ :: _ => s
  end.

End Stages.

(** The order of [sorted] on text. *)
Definition str_le (a b : Str) : Prop := str_leb a b = true.

(* ===================================================================== *)
(** ** More sample inputs *)
(* ===================================================================== *)

(** A reader that gives the same table for every path. *)
Definition read_as (df : DataFrame) : Str -> result DataFrame := fun _ => Ok df.

(** A table with a column called value. *)
Definition sample_value : DataFrame :=
  [ (py "region", [VStr (py "Polska")]); (py " value ", [VInt 1]) ].

(** A table whose first label names a region and a period at once. *)
Definition sample_shared : DataFrame :=
  [ (py "region okres", [VStr (py "Polska")]); (py "liczba", [VInt 1]) ].

(** A table with no period in its labels or cells, and a dash cell. *)
Definition sample_plain : DataFrame :=
  [ (py "region", [VStr (py "Polska"); VStr (py "Mazowsze")]);
    (py "liczba", [VInt 7; VStr (py " - ")]) ].

(** The first line of [sample_wide] under its label "2024", melted, and
    the record it ends as when the file is "/dane/a.csv". *)
Definition sample_melted : MeltRow :=
  {| ids := [VStr (py "Polska"); VStr (py "ogółem")]; var := py "2024"; val := VInt 10 |}.

Definition sample_row : Row :=
  {| dataset := py "a"; measure := py "2024"; value := py "10";
     region := py "Polska"; period := py "2024"; typ := py "ogółem" |}.




(** Two labels that are equal once stripped. *)
Definition sample_twice : DataFrame :=
  [ (py " a", [VInt 1]); (py "a", [VInt 2]) ].

(** A reader for which the first two encodings fail. *)
Definition sample_read_csv (path : Str) (enc : option Str) : result DataFrame :=
  match enc with
  | Some e =>
    if str_eqb e (py "cp1250") || str_eqb e (py "iso-8859-2") then Ok sample_wide
    else Raise (ReadError (py "codec cannot decode"))
  | None => Raise (ReadError (py "codec cannot decode"))
  end.

(* ===================================================================== *)
(** * Properties *)
(* ===================================================================== *)

Unset Implicit Arguments.

(** ** Stripping *)

Section StripProps.
Context {U : UnicodeData}.

Lemma lstrip_idem : forall s, lstrip (lstrip s) = lstrip s.
Proof.
  induction s as [|c s IH]; simpl; auto.
  destruct (isspace c) eqn:E; auto. simpl. now rewrite E.
Qed.

Lemma lstrip_app_nonspace : forall a c b,
  isspace c = false -> lstrip (a ++ c :: b) = lstrip a ++ c :: b \/
                       (lstrip a = [] /\ lstrip (a ++ c :: b) = c :: b).
Proof.
  induction a as [|x a IH]; intros c b Hc; simpl.
  - rewrite Hc. now left.
  - destruct (isspace x); auto.
Qed.

Lemma lstrip_head : forall s c t, lstrip s = c :: t -> isspace c = false.
Proof.
  induction s as [|x s IH]; simpl; intros c t H; [discriminate|].
  destruct (isspace x) eqn:E; eauto. now inversion H; subst.
Qed.

Lemma lstrip_nonspace_head : forall c t, isspace c = false -> lstrip (c :: t) = c :: t.
Proof. intros c t H. simpl. now rewrite H. Qed.

Lemma rstrip_idem : forall s, rstrip (rstrip s) = rstrip s.
Proof. intros s. unfold rstrip. now rewrite rev_involutive, lstrip_idem. Qed.

(** Stripping the right end keeps a first character that is not white. *)
Lemma rstrip_keeps_head : forall c t,
  isspace c = false -> exists t', rstrip (c :: t) = c :: t'.
Proof.
  intros c t Hc. unfold rstrip. simpl.
  destruct (lstrip_app_nonspace (rev t) c [] Hc) as [H | [_ H]]; rewrite H.
  - rewrite rev_app_distr. simpl. eauto.
  - simpl. eauto.
Qed.

Lemma strip_idem : forall s, strip (strip s) = strip s.
Proof.
  intros s. unfold strip.
  destruct (lstrip s) as [|c t] eqn:E.
  - reflexivity.
  - pose proof (lstrip_head _ _ _ E) as Hc.
    destruct (rstrip_keeps_head c t Hc) as [t' Ht'].
    rewrite Ht', (lstrip_nonspace_head _ _ Hc), <- Ht'.
    apply rstrip_idem.
Qed.

End StripProps.

(** ** The script, as a function of the files *)

Section ScriptProps.
Context {U : UnicodeData}.
Variable read_csv_any : Str -> result DataFrame.

Lemma add_log_nil : forall w, add_log w [] = w.
Proof. intros [p l c]. unfold add_log. simpl. now rewrite app_nil_r. Qed.

Lemma add_log_app : forall w a b, add_log (add_log w a) b = add_log w (a ++ b).
Proof. intros w a b. unfold add_log. simpl. now rewrite app_assoc. Qed.

(** [process_file] touches the console only, and what it returns does not
    depend on the state it starts in. *)
Lemma process_file_run : forall path w,
  process_file read_csv_any path w
  = (add_log w (printed read_csv_any path), outcome read_csv_any path).
Proof.
  intros path w. unfold outcome, printed, process_file, bind, lift.
  destruct (read_csv_any path) as [df|e]; simpl; [|now rewrite add_log_nil].
  match goal with |- context [table_has_any_period ?d] =>
    destruct (table_has_any_period d) as [b|e] end;
    simpl; [|now rewrite add_log_nil].
  match goal with |- context [melt ?d ?i ?v] => destruct (melt d i v) as [m|e] end;
    simpl; [|now rewrite add_log_nil].
  match goal with |- context [year_filter ?l] => destruct (year_filter l) as [|r k] end;
    simpl; [reflexivity|now rewrite add_log_nil].
Qed.

(** Every row [process_file] returns passed the year filter. *)
Lemma outcome_filtered : forall path rows,
  outcome read_csv_any path = Ok rows ->
  exists long, rows = year_filter long.
Proof.
  intros path rows. unfold outcome, process_file, bind, lift.
  destruct (read_csv_any path) as [df|e]; simpl; [|discriminate].
  match goal with |- context [table_has_any_period ?d] =>
    destruct (table_has_any_period d) as [b|e] end;
    simpl; [|discriminate].
  match goal with |- context [melt ?d ?i ?v] => destruct (melt d i v) as [m|e] end;
    simpl; [|discriminate].
  match goal with |- context [year_filter ?l] =>
    remember l as long; destruct (year_filter long) as [|r k] eqn:E end;
    simpl; intros H; inversion H; subst rows; exists long; now rewrite E.
Qed.

Lemma for_paths_run : forall paths w,
  for_paths read_csv_any paths w
  = ({| w_parts := w_parts w ++ successes read_csv_any paths;
        w_log := w_log w ++ loop_log read_csv_any paths;
        w_csv := w_csv w |}, Ok tt).
Proof.
  induction paths as [|p paths IH]; intros w.
  - simpl. unfold ret. destruct w; simpl. now rewrite !app_nil_r.
  - cbn [for_paths successes loop_log flat_map].
    unfold bind at 1. unfold try_except. unfold bind at 1.
    rewrite process_file_run.
    destruct (outcome read_csv_any p) as [rows|e] eqn:E.
    + unfold bind, append_part, print. rewrite IH.
      unfold successes, loop_log. cbn. now rewrite <- ?app_assoc.
    + unfold print. rewrite IH.
      unfold successes, loop_log. cbn. now rewrite <- ?app_assoc.
Qed.

Lemma strip_const_ogolem : strip (py "ogółem") = py "ogółem".
Proof. reflexivity. Qed.

Lemma strip_const_2025 : strip (py "2025") = py "2025".
Proof. reflexivity. Qed.

Lemma fill_not_empty : forall d s,
  strip d = d -> d <> [] -> strip (fill d s) <> [] /\ fill d s <> [].
Proof.
  intros d s Hd Hn. unfold fill.
  destruct (strip s) as [|c t] eqn:E.
  - now rewrite Hd.
  - rewrite <- E, strip_idem, E. split; discriminate.
Qed.

Lemma n_empty_fill : forall (f : Row -> Str) rows,
  (forall r, strip (f (fill_row r)) <> []) ->
  n_empty f (map fill_row rows) = 0.
Proof.
  intros f rows H. unfold n_empty.
  induction rows as [|r rows IH]; simpl; auto.
  specialize (H r). destruct (strip (f (fill_row r))); [contradiction|exact IH].
Qed.

Lemma sanity_check_fill : forall col (f : Row -> Str) rows w,
  (forall r, strip (f (fill_row r)) <> []) ->
  sanity_check col f (map fill_row rows) w = (w, Ok tt).
Proof.
  intros col f rows w H. unfold sanity_check. now rewrite n_empty_fill.
Qed.

(** The whole run: the parts are those of the files that did not raise;
    with no part only the closing line is printed and nothing is written;
    otherwise the filled master table is written. The run never raises. *)
Lemma main_run : forall listing w,
  w_parts w = [] ->
  main listing read_csv_any w
  = match successes read_csv_any (sorted listing) with
    | [] =>
      ({| w_parts := [];
          w_log := w_log w ++ loop_log read_csv_any (sorted listing) ++ [EvNoInput];
          w_csv := w_csv w |}, Ok tt)
    | p :: ps =>
      let master := map fill_row (concat (p :: ps)) in
      ({| w_parts := p :: ps;
          w_log := w_log w ++ loop_log read_csv_any (sorted listing)
                         ++ [EvSaved (length master)];
          w_csv := Some master |}, Ok tt)
    end.
Proof.
  intros listing w Hw. unfold main. unfold bind at 1. rewrite for_paths_run.
  unfold bind at 1. unfold get_parts. cbn [w_parts]. rewrite Hw. cbn [app].
  destruct (successes read_csv_any (sorted listing)) as [|p ps].
  - unfold print. cbn. now rewrite <- app_assoc.
  - unfold bind.
    rewrite !sanity_check_fill.
    + unfold to_csv, print. cbn. now rewrite <- app_assoc.
    + intros r. apply fill_not_empty; [reflexivity|discriminate].
    + intros r. apply fill_not_empty; [reflexivity|discriminate].
    + intros r. apply fill_not_empty; [reflexivity|discriminate].
Qed.

End ScriptProps.

(** ** Characters *)

Section CharFacts.
Context {U : UnicodeData}.

(** A property checked on every classified code point holds of all of
    them. *)
Lemma latin_forall : forall P : N -> bool,
  forallb P (map N.of_nat (seq 0 384)) = true ->
  forall c, latin c = true -> P c = true.
Proof.
  intros P H c Hc. rewrite forallb_forall in H. apply H.
  apply in_map_iff. exists (N.to_nat c). split; [apply N2Nat.id|].
  apply in_seq. unfold latin in Hc. apply N.ltb_lt in Hc. lia.
Qed.

Lemma decimal_is_word : forall c, isdecimal c = true -> isword c = true.
Proof.
  intros c H. unfold isword, isalnum. rewrite H. now rewrite !orb_true_r.
Qed.

Lemma decimal_uncased : forall c, isdecimal c = true -> tolower c = c.
Proof.
  intros c H. destruct (latin c) eqn:L.
  - pose proof (latin_forall
      (fun c => implb (isdecimal c) (tolower c =? c)%N) eq_refl c L) as Hc.
    cbv beta in Hc. rewrite H in Hc. now apply N.eqb_eq in Hc.
  - unfold isdecimal in H. unfold tolower. rewrite L in *.
    now apply u_decimal_uncased.
Qed.

Lemma space_uncased : forall c, isspace c = true -> tolower c = c.
Proof.
  intros c H. destruct (latin c) eqn:L.
  - pose proof (latin_forall
      (fun c => implb (isspace c) (tolower c =? c)%N) eq_refl c L) as Hc.
    cbv beta in Hc. rewrite H in Hc. now apply N.eqb_eq in Hc.
  - unfold tolower. rewrite L. now apply u_space_uncased.
Qed.

Lemma space_not_decimal : forall c, isspace c = true -> isdecimal c = false.
Proof.
  intros c H. destruct (latin c) eqn:L.
  - pose proof (latin_forall
      (fun c => implb (isspace c) (negb (isdecimal c))) eq_refl c L) as Hc.
    cbv beta in Hc. rewrite H in Hc. now apply negb_true_iff in Hc.
  - unfold isdecimal. rewrite L. now apply u_space_not_decimal.
Qed.

Lemma decimal_not_space : forall c, isdecimal c = true -> isspace c = false.
Proof.
  intros c H. destruct (isspace c) eqn:E; auto.
  apply space_not_decimal in E. congruence.
Qed.

(** A character with no case of its own that matches a literal is the
    literal, its lower case, or one of its case fixes. *)
Lemma lit_match_uncased : forall c x,
  lit_match true c x = true -> tolower x = x ->
  In x (c :: tolower c :: casefix (tolower c)).
Proof.
  intros c x H Hx. unfold lit_match in H. rewrite Hx in H. cbn [andb] in H.
  destruct (iscased c).
  - apply orb_true_iff in H. destruct H as [H|H].
    + apply N.eqb_eq in H. subst x. right. now left.
    + apply existsb_exists in H. destruct H as [k [Hk Hxk]].
      apply N.eqb_eq in Hxk. subst k. right. now right.
  - apply N.eqb_eq in H. now left.
Qed.

Lemma date_letter_match : forall c x,
  In c date_letters -> lit_match true c x = true ->
  isdecimal x = false /\ isspace x = false.
Proof.
  intros c x Hc H.
  assert (forallb (fun c => forallb (fun k => negb (isdecimal k) && negb (isspace k))
                                    (c :: tolower c :: casefix (tolower c)))
                  date_letters = true) as Hall by (vm_compute; reflexivity).
  rewrite forallb_forall in Hall. specialize (Hall c Hc).
  rewrite forallb_forall in Hall.
  destruct (isdecimal x) eqn:Ed.
  - specialize (Hall x (lit_match_uncased c x H (decimal_uncased x Ed))).
    rewrite Ed in Hall. discriminate.
  - split; auto. destruct (isspace x) eqn:Es; auto.
    specialize (Hall x (lit_match_uncased c x H (space_uncased x Es))).
    rewrite Es, Ed in Hall. discriminate.
Qed.

Lemma word_match_length : forall w x, word_match w x = true -> length x = length w.
Proof.
  induction w as [|c w IH]; intros [|a x] H; simpl in *; try discriminate; auto.
  apply andb_true_iff in H. destruct H as [_ H]. now rewrite (IH x H).
Qed.

Lemma word_match_chars : forall w x,
  (forall c, In c w -> In c date_letters) ->
  word_match w x = true ->
  forallb (fun a => negb (isdecimal a) && negb (isspace a)) x = true.
Proof.
  induction w as [|c w IH]; intros [|a x] Hw H; simpl in *; try discriminate; auto.
  apply andb_true_iff in H. destruct H as [Ha H].
  destruct (date_letter_match c a (Hw c (or_introl eq_refl)) Ha) as [Hd Hs].
  rewrite Hd, Hs. cbn [negb andb]. apply IH; auto.
Qed.

(** The text of a month is not empty and has neither digit nor white
    space in it. *)
Lemma month_text_chars : forall mo,
  month_text mo = true ->
  mo <> [] /\ forallb (fun a => negb (isdecimal a) && negb (isspace a)) mo = true.
Proof.
  intros mo H. unfold month_text in H. apply existsb_exists in H.
  destruct H as [w [Hw Hm]]. split.
  - intros ->. apply word_match_length in Hm.
    assert (forallb (fun w => negb (length w =? 0)) MONTH_WORDS = true) as Hl
        by (vm_compute; reflexivity).
    rewrite forallb_forall in Hl. specialize (Hl w Hw).
    simpl in Hm. rewrite <- Hm in Hl. discriminate.
  - apply (word_match_chars w); auto.
    intros c Hc. right. apply in_concat. eauto.
Qed.

End CharFacts.

(** ** The year filter and the master table *)

Section OutputProps.
Context {U : UnicodeData}.

Lemma isin_years_iff : forall o,
  isin_years o = true <-> o = Some 2024%Z \/ o = Some 2025%Z.
Proof.
  intros [y|]; simpl.
  - rewrite orb_true_iff, !Z.eqb_eq. split.
    + intros [H|H]; subst; auto.
    + intros [H|H]; inversion H; auto.
  - split; [discriminate|intros [H|H]; discriminate].
Qed.

Lemma period_year_strip : forall s, period_year (strip s) = period_year s.
Proof. intros s. unfold period_year. now rewrite strip_idem. Qed.

Lemma period_year_some_nonempty : forall s y,
  period_year s = Some y -> strip s <> [] /\ s <> [].
Proof.
  intros s y H. unfold period_year in H.
  destruct (strip s) eqn:E; [discriminate|].
  split; [discriminate|]. intros ->. discriminate.
Qed.

(** The fill-in of step 10 leaves a period that has a year as it is, up to
    stripping, and so leaves its year. *)
Lemma fill_period_year : forall s y,
  period_year s = Some y ->
  fill (py "2025") s = strip s /\ period_year (fill (py "2025") s) = Some y.
Proof.
  intros s y H. destruct (period_year_some_nonempty s y H) as [Hs _].
  unfold fill. destruct (strip s) as [|c t] eqn:E; [contradiction|].
  split; [reflexivity|]. now rewrite <- E, period_year_strip.
Qed.

Lemma sorted_insert_in : forall x y l, In x (insert_sorted y l) <-> x = y \/ In x l.
Proof.
  induction l as [|z l IH]; simpl.
  - intuition.
  - destruct (str_leb y z); simpl; [intuition|]. rewrite IH. intuition.
Qed.

Lemma sorted_in : forall l x, In x (sorted l) <-> In x l.
Proof.
  induction l as [|y l IH]; intros x; simpl; [tauto|].
  rewrite sorted_insert_in, IH. intuition.
Qed.

Lemma successes_in : forall read paths part,
  In part (successes read paths) <->
  exists path, In path paths /\ outcome read path = Ok part.
Proof.
  intros read paths part. unfold successes. rewrite in_flat_map. split.
  - intros [p [Hp H]]. exists p. split; auto.
    destruct (outcome read p); simpl in H; [|contradiction].
    destruct H as [H|[]]. now subst.
  - intros [p [Hp H]]. exists p. split; auto. rewrite H. now left.
Qed.

Lemma successes_app : forall read a b,
  successes read (a ++ b) = successes read a ++ successes read b.
Proof. intros. unfold successes. apply flat_map_app. Qed.

End OutputProps.

(** C1. Every row of the written table has a non-empty period whose
    extracted year is 2024 or 2025: the per-file filter keeps exactly the
    rows whose period gives one of the two years, and concatenation and
    the fill-in of empty categories keep that. *)
Theorem C1_output_period_years :
  forall (U : UnicodeData),
    (forall long r,
        In r (year_filter long) <->
        In r long /\ (period_year (period r) = Some 2024%Z
                      \/ period_year (period r) = Some 2025%Z))
    /\
    (forall listing read rows r,
        w_csv (fst (main listing read empty_world)) = Some rows ->
        In r rows ->
        period r <> [] /\ (period_year (period r) = Some 2024%Z
                           \/ period_year (period r) = Some 2025%Z)).
Proof.
  intros U. split.
  - intros long r. unfold year_filter. rewrite filter_In, isin_years_iff. tauto.
  - intros listing read rows r Hcsv Hr.
    rewrite main_run in Hcsv by reflexivity.
    destruct (successes read (sorted listing)) as [|p ps] eqn:E;
      cbn [fst w_csv empty_world] in Hcsv; [discriminate|].
    inversion Hcsv; subst rows; clear Hcsv.
    apply in_map_iff in Hr. destruct Hr as [r0 [<- Hr0]].
    change (p ++ concat ps) with (concat (p :: ps)) in Hr0.
    apply in_concat in Hr0. destruct Hr0 as [part [Hpart Hr0]].
    rewrite <- E in Hpart. apply successes_in in Hpart.
    destruct Hpart as [path [_ Hout]].
    apply outcome_filtered in Hout. destruct Hout as [long ->].
    unfold year_filter in Hr0. apply filter_In in Hr0. destruct Hr0 as [_ Hy].
    assert (exists y, period_year (period r0) = Some y
                      /\ (y = 2024%Z \/ y = 2025%Z)) as [y [Hpy Hyy]].
    { apply isin_years_iff in Hy. destruct Hy as [Hy|Hy]; eauto. }
    destruct (fill_period_year _ _ Hpy) as [Hf Hfy].
    cbn [period fill_row]. rewrite Hfy. split.
    + rewrite Hf. apply (period_year_some_nonempty _ _ Hpy).
    + destruct Hyy; subst; auto.
Qed.

Lemma C1_witness :
  period (Build_Row (py "a") (py "2024") (py "10") (py "Polska") (py "2024") (py "ogółem")) <> []
  /\ (period_year (U:=latin_only) (py "2024") = Some 2024%Z
      \/ period_year (U:=latin_only) (py "2024") = Some 2025%Z).
Proof.
  apply (proj2 (C1_output_period_years latin_only) sample_listing sample_read
               [Build_Row (py "a") (py "2024") (py "10") (py "Polska") (py "2024") (py "ogółem");
                Build_Row (py "a") (py "2025") (py "20") (py "Polska") (py "2025") (py "ogółem")]).
  - vm_compute. reflexivity.
  - simpl. left. reflexivity.
Defined.

(** ** Failing files and the output file *)

Section RunProps.
Context {U : UnicodeData}.

Lemma successes_nonempty : forall read paths,
  successes read paths <> [] <->
  exists path rows, In path paths /\ outcome read path = Ok rows.
Proof.
  intros read paths. split.
  - intros H. destruct (successes read paths) as [|p ps] eqn:E; [contradiction|].
    assert (In p (successes read paths)) as Hin by (rewrite E; now left).
    apply successes_in in Hin. destruct Hin as [path [Hp Ho]]. eauto.
  - intros [path [rows [Hp Ho]]] E.
    assert (In rows (successes read paths)) as Hin
        by (apply successes_in; eauto).
    rewrite E in Hin. contradiction.
Qed.

Lemma successes_raise : forall read pre path post e,
  outcome read path = Raise e ->
  successes read (pre ++ path :: post) = successes read (pre ++ post).
Proof.
  intros read pre path post e H.
  rewrite !successes_app. f_equal.
  unfold successes at 1. cbn [flat_map]. now rewrite H.
Qed.

End RunProps.

(** C2, as stated, fails: a file whose rows are all dropped by the year
    filter still leaves a part, so the output file is written (with no
    row) although no file kept a row. *)
Lemma C2_counterexample :
  ~ exists U : UnicodeData,
      let w := fst (main [py "/dane/a.csv"] (fun _ => Ok sample_old) empty_world) in
      (w_csv w <> None <-> exists part, In part (w_parts w) /\ part <> []).
Proof.
  intros [U H]. vm_compute in H. destruct H as [H _].
  destruct H as [part [[Hp|[]] Hne]].
  - discriminate.
  - subst part. now apply Hne.
Qed.

(** C2, amended. The output file is written if and only if at least one
    input file was processed without raising, whether or not it kept any
    row; when none was, no file is written and the closing line is the
    only thing printed after the per-file lines. *)
Theorem C2_output_written_iff_part :
  forall (U : UnicodeData) (listing : list Str) (read : Str -> result DataFrame),
    let w := fst (main listing read empty_world) in
    (w_csv w <> None <->
     exists path rows, In path listing /\ outcome read path = Ok rows)
    /\ (w_csv w = None ->
        w_log w = loop_log read (sorted listing) ++ [EvNoInput])
    /\ (forall rows, w_csv w = Some rows ->
        rows = map fill_row (concat (successes read (sorted listing)))).
Proof.
  intros U listing read w. subst w.
  rewrite main_run by reflexivity.
  pose proof (successes_nonempty read (sorted listing)) as Hne.
  destruct (successes read (sorted listing)) as [|p ps] eqn:E;
    cbn [fst w_csv w_log empty_world app].
  - split; [|split].
    + split; [intros H; exfalso; now apply H|].
      intros [path [rows [Hin Ho]]]. exfalso.
      apply (proj2 Hne); [|reflexivity].
      exists path, rows. split; auto. now apply (proj2 (sorted_in _ _)).
    + reflexivity.
    + discriminate.
  - split; [|split].
    + split; [|discriminate]. intros _.
      destruct (proj1 Hne) as [path [rows [Hin Ho]]]; [discriminate|].
      exists path, rows. split; auto. now apply (proj1 (sorted_in _ _)).
    + discriminate.
    + intros rows H. now inversion H.
Qed.

Lemma C2_witness :
  w_log (fst (main (U:=latin_only) [py "/dane/b.csv"] sample_read empty_world))
  = loop_log sample_read (sorted [py "/dane/b.csv"]) ++ [EvNoInput].
Proof.
  apply (proj1 (proj2 (C2_output_written_iff_part latin_only [py "/dane/b.csv"] sample_read))).
  vm_compute. reflexivity.
Defined.

(** C9. An exception raised while a file is processed is caught at the
    file's boundary: the file leaves no part at all, the files after it
    are processed as if it were not there, its error line is printed, and
    neither the loop nor the run ends in an exception. *)
Theorem C9_failing_file_skipped :
  forall (U : UnicodeData) (read : Str -> result DataFrame)
         (pre post : list Str) (path : Str) (e : exn) (w : world),
    outcome read path = Raise e ->
    let w1 := fst (for_paths read (pre ++ path :: post) w) in
    snd (for_paths read (pre ++ path :: post) w) = Ok tt
    /\ w_parts w1 = w_parts (fst (for_paths read (pre ++ post) w))
    /\ w_parts w1 = w_parts w ++ successes read pre ++ successes read post
    /\ In (EvError (basename path) e) (w_log w1)
    /\ (forall listing, snd (main listing read empty_world) = Ok tt).
Proof.
  intros U read pre post path e w H w1. subst w1.
  rewrite !for_paths_run. cbn [fst snd w_parts w_log].
  rewrite (successes_raise read pre path post e H), successes_app.
  repeat split.
  - apply in_or_app. right. unfold loop_log. rewrite flat_map_app.
    apply in_or_app. right. cbn [flat_map]. rewrite H.
    apply in_or_app. left. apply in_or_app. right. now left.
  - intros listing. rewrite main_run by reflexivity.
    destruct (successes read (sorted listing)); reflexivity.
Qed.

Lemma C9_witness :
  let w1 := fst (for_paths (U:=latin_only) sample_read
                           ([] ++ py "/dane/b.csv" :: [py "/dane/a.csv"]) empty_world) in
  snd (for_paths (U:=latin_only) sample_read
                 ([] ++ py "/dane/b.csv" :: [py "/dane/a.csv"]) empty_world) = Ok tt
  /\ w_parts w1 = w_parts (fst (for_paths (U:=latin_only) sample_read
                                          ([] ++ [py "/dane/a.csv"]) empty_world))
  /\ w_parts w1 = w_parts empty_world ++ successes sample_read []
                          ++ successes sample_read [py "/dane/a.csv"]
  /\ In (EvError (basename (py "/dane/b.csv")) (ReadError (py "cannot read"))) (w_log w1)
  /\ (forall listing, snd (main (U:=latin_only) listing sample_read empty_world) = Ok tt).
Proof.
  apply (C9_failing_file_skipped latin_only sample_read [] [py "/dane/a.csv"]
           (py "/dane/b.csv") (ReadError (py "cannot read")) empty_world).
  vm_compute. reflexivity.
Defined.

(** ** The value columns of a degenerate table *)

Section ReshapeProps.
Context {U : UnicodeData}.

Lemma str_eqb_eq : forall a b, str_eqb a b = true <-> a = b.
Proof.
  intros a b. unfold str_eqb. destruct (list_eq_dec N.eq_dec a b); split; auto; discriminate.
Qed.

Lemma mem_In : forall c l, mem c l = true <-> In c l.
Proof.
  intros c l. unfold mem. rewrite existsb_exists. split.
  - intros [x [Hx H]]. apply str_eqb_eq in H. now subst.
  - intros H. exists c. split; auto. now apply str_eqb_eq.
Qed.

Lemma not_in_nil : forall ids columns,
  not_in ids columns = [] <-> (forall c, In c columns -> In c ids).
Proof.
  intros ids columns. unfold not_in. split.
  - intros H c Hc. apply mem_In. destruct (mem c ids) eqn:E; auto.
    assert (In c (filter (fun c => negb (mem c ids)) columns)) as Hin
        by (apply filter_In; split; auto; now rewrite E).
    rewrite H in Hin. contradiction.
  - intros H. induction columns as [|c l IH]; simpl; auto.
    rewrite (proj2 (mem_In c ids)) by (apply H; now left). simpl.
    apply IH. intros x Hx. apply H. now right.
Qed.

Lemma not_in_In : forall ids columns c,
  In c (not_in ids columns) <-> In c columns /\ ~ In c ids.
Proof.
  intros ids columns c. unfold not_in. rewrite filter_In, negb_true_iff. split.
  - intros [Hc Hn]. split; auto. intros Hin.
    apply mem_In in Hin. rewrite Hin in Hn. discriminate.
  - intros [Hc Hn]. split; auto. destruct (mem c ids) eqn:E; auto.
    exfalso. apply Hn. now apply mem_In.
Qed.

Lemma opt_list_In : forall o c, In c (opt_list o) -> opt_list o = [c].
Proof.
  intros [[|x s]|] c; simpl; try contradiction. intros [H|[]]. now subst.
Qed.

End ReshapeProps.

(** When the identifier columns leave no value column, the value columns
    are computed again as the columns that are neither the region nor the
    type column, which can only be the period column; if that leaves none
    either, every column is a value column. Every value column of such a
    table is an identifier still. *)
Lemma value_vars_fallback :
  forall (columns : list Str) (region_col period_col typ_col : option Str),
    not_in (id_vars_of region_col period_col typ_col) columns = [] ->
    value_vars_of columns region_col period_col typ_col
    = match not_in (soft_id_of region_col typ_col) columns with
      | [] => columns
      | c :: l => c :: l
      end
    /\ (forall c, In c (not_in (soft_id_of region_col typ_col) columns) ->
                  opt_list period_col = [c])
    /\ (forall c, In c (value_vars_of columns region_col period_col typ_col) ->
                  In c (id_vars_of region_col period_col typ_col)).
Proof.
  intros columns r p t H.
  assert (forall c, In c columns -> In c (id_vars_of r p t)) as Hall
      by (now apply not_in_nil).
  assert (value_vars_of columns r p t
          = match not_in (soft_id_of r t) columns with
            | [] => columns
            | c :: l => c :: l
            end) as Hv
      by (unfold value_vars_of; now rewrite H).
  split; [exact Hv|]. split.
  - intros c Hc. apply not_in_In in Hc. destruct Hc as [Hc Hsoft].
    specialize (Hall c Hc). unfold id_vars_of in Hall. unfold soft_id_of in Hsoft.
    apply in_app_or in Hall. destruct Hall as [Hr|Hpt].
    + exfalso. apply Hsoft. apply in_or_app. now left.
    + apply in_app_or in Hpt. destruct Hpt as [Hp|Ht].
      * now apply opt_list_In.
      * exfalso. apply Hsoft. apply in_or_app. now right.
  - intros c Hc. rewrite Hv in Hc. apply Hall.
    destruct (not_in (soft_id_of r t) columns) as [|x l] eqn:E; auto.
    rewrite <- E in Hc. now apply not_in_In in Hc.
Qed.

(** ** The date rewriting on the spec's example *)

(** C4, as stated, fails: the comma is part of what the pattern matches,
    so it is replaced with the rest and does not stay. *)
Lemma C4_counterexample :
  ~ exists U : UnicodeData,
      normalize_polish_dates (py "31 marca 2025 r.,") = py "31.03.2025,".
Proof. intros [U H]. vm_compute in H. discriminate. Qed.

(** C4, amended. [normalize_polish_dates] applied to "31 marca 2025 r.,"
    returns "31.03.2025": the date is rewritten to DD.MM.YYYY and the
    tail " r.," (the optional "r", full stop and comma of the pattern) is
    consumed with it. *)
Theorem C4_normalize_example :
  forall U : UnicodeData,
    normalize_polish_dates (py "31 marca 2025 r.,") = py "31.03.2025".
Proof. intros U. vm_compute. reflexivity. Qed.

(** ** The year extractor *)

Section YearProps.
Context {U : UnicodeData}.

Local Opaque isdecimal isword.
Local Arguments N.eqb : simpl never.

(** Case analysis on the character tests a pattern of fixed shape makes. *)
Ltac atoms :=
  repeat (cbn;
          match goal with
          | H : isdecimal ?c = _ |- context [isdecimal ?c] => rewrite H
          | H : N.eqb ?c ?k = _ |- context [N.eqb ?c ?k] => rewrite H
          | H : isdecimal ?c = true |- context [isword ?c] =>
            rewrite (decimal_is_word c H)
          | |- context [isdecimal ?c] => destruct (isdecimal c) eqn:?
          | |- context [N.eqb ?c ?k] => destruct (N.eqb c k) eqn:?
          | |- context [isword_opt ?o] => destruct (isword_opt o) eqn:?
          | |- context [isword ?c] => destruct (isword c) eqn:?
          end);
  cbn; try reflexivity; try congruence.

(** The three patterns of [period_year], each at one position, against
    the spec's wording. *)
Lemma dmy_match : forall prev rest,
  option_map (fun m => group m 3) (match_here false DMY_RE prev rest)
  = date_year true prev rest.
Proof.
  intros prev rest. unfold match_here, date_year, dotted_date, four_digits.
  destruct rest as [|a [|b [|p [|c [|d [|q [|y1 [|y2 [|y3 [|y4 tl]]]]]]]]]].
  all: try (destruct tl).
  all: atoms.
Qed.

Lemma year_start_match : forall rest,
  option_map (fun m => group m 1) (match_here false YEAR_START_RE None rest)
  = four_digits rest.
Proof.
  intros rest. unfold match_here, four_digits.
  destruct rest as [|a [|b [|c [|d tl]]]]; atoms.
Qed.

Lemma year_any_match : forall prev rest,
  option_map (fun m => group m 1) (match_here false YEAR_ANY_RE prev rest)
  = four_digits rest.
Proof.
  intros prev rest. unfold match_here, four_digits.
  destruct rest as [|a [|b [|c [|d tl]]]]; atoms.
Qed.

(** [re.search] is the first position where the pattern matches. *)
Lemma search_first : forall ic r (g : pymatch -> Str) f,
  (forall prev rest, option_map g (match_here ic r prev rest) = f prev rest) ->
  forall rest prev, option_map g (search_from ic r prev rest) = first_from f prev rest.
Proof.
  intros ic r g f H. induction rest as [|c tl IH]; intros prev; simpl.
  - rewrite <- H. destruct (match_here ic r prev []); reflexivity.
  - rewrite <- H. destruct (match_here ic r prev (c :: tl)); simpl; auto.
Qed.

(** The extractor is the procedure of the spec, with the date of step (a)
    bounded by non-word characters. *)
Lemma period_year_in_words : forall s,
  period_year s = extract_year_in_words true s.
Proof.
  intros s. unfold period_year, extract_year_in_words.
  set (t := strip s).
  rewrite <- (search_first false DMY_RE (fun m => group m 3) _ dmy_match).
  rewrite <- year_start_match.
  rewrite <- (search_first false YEAR_ANY_RE (fun m => group m 1) _ year_any_match).
  unfold re_search, re_match.
  destruct t as [|c t'] eqn:E; [reflexivity|].
  destruct (search_from false DMY_RE None (c :: t')); [reflexivity|].
  destruct (match_here false YEAR_START_RE None (c :: t')); [reflexivity|].
  destruct (search_from false YEAR_ANY_RE None (c :: t')); reflexivity.
Qed.

Lemma four_digits_some : forall t y,
  four_digits t = Some y ->
  exists a b c d post, t = a :: b :: c :: d :: post /\ y = [a; b; c; d]
    /\ isdecimal a = true /\ isdecimal b = true
    /\ isdecimal c = true /\ isdecimal d = true.
Proof.
  intros t y. unfold four_digits.
  destruct t as [|a [|b [|c [|d post]]]]; try discriminate.
  destruct (isdecimal a) eqn:Ha, (isdecimal b) eqn:Hb,
           (isdecimal c) eqn:Hc, (isdecimal d) eqn:Hd; simpl; try discriminate.
  intros H. inversion H. exists a, b, c, d, post. auto 10.
Qed.

Lemma four_digits_none : forall a b c d post,
  four_digits (a :: b :: c :: d :: post) = None ->
  isdecimal a && isdecimal b && isdecimal c && isdecimal d = false.
Proof.
  intros a b c d post. unfold four_digits.
  destruct (isdecimal a && isdecimal b && isdecimal c && isdecimal d); [discriminate|auto].
Qed.

Lemma first_four_some : forall t prev y,
  first_from (fun _ => four_digits) prev t = Some y -> has_four_digits t.
Proof.
  induction t as [|x t IH]; intros prev y; cbn [first_from].
  - discriminate.
  - destruct (four_digits (x :: t)) as [y'|] eqn:E.
    + intros _. apply four_digits_some in E.
      destruct E as [a [b [c [d [post [Ht [_ Hd]]]]]]].
      exists [], a, b, c, d, post. split; [exact Ht|exact Hd].
    + intros H. apply IH in H.
      destruct H as [pre [a [b [c [d [post [Ht Hd]]]]]]].
      exists (x :: pre), a, b, c, d, post. split; [now rewrite Ht|exact Hd].
Qed.

Lemma first_four_none : forall t prev,
  first_from (fun _ => four_digits) prev t = None -> ~ has_four_digits t.
Proof.
  induction t as [|x t IH]; intros prev; cbn [first_from].
  - intros _ [pre [a [b [c [d [post [Ht _]]]]]]]. now destruct pre.
  - destruct (four_digits (x :: t)) as [y'|] eqn:E; [discriminate|].
    intros H [pre [a [b [c [d [post [Ht [Ha [Hb [Hc Hd]]]]]]]]]].
    destruct pre as [|x' pre]; simpl in Ht; inversion Ht; subst.
    + apply four_digits_none in E. rewrite Ha, Hb, Hc, Hd in E. discriminate.
    + apply (IH _ H). exists pre, a, b, c, d, post. auto.
Qed.

Lemma date_year_some : forall bounded prev t y,
  date_year bounded prev t = Some y -> has_four_digits t.
Proof.
  intros bounded prev t y. unfold date_year, dotted_date.
  destruct t as [|a [|b [|p [|c [|d [|q tl]]]]]]; try discriminate.
  destruct (isdecimal a && isdecimal b && (p =? ch ".")%N && isdecimal c
            && isdecimal d && (q =? ch ".")%N); [|discriminate].
  destruct (four_digits tl) as [y'|] eqn:E; [|discriminate].
  intros _. apply four_digits_some in E.
  destruct E as [a' [b' [c' [d' [post [Ht [_ Hd]]]]]]].
  exists [a; b; p; c; d; q], a', b', c', d', post. split; [now rewrite Ht|exact Hd].
Qed.

Lemma first_date_some : forall bounded t prev y,
  first_from (date_year bounded) prev t = Some y -> has_four_digits t.
Proof.
  induction t as [|x t IH]; intros prev y; cbn [first_from].
  - destruct (date_year bounded prev []) eqn:E; [|discriminate].
    intros _. now apply date_year_some in E.
  - destruct (date_year bounded prev (x :: t)) eqn:E.
    + intros _. now apply date_year_some in E.
    + intros H. apply IH in H.
      destruct H as [pre [a [b [c [d [post [Ht Hd]]]]]]].
      exists (x :: pre), a, b, c, d, post. split; [now rewrite Ht|exact Hd].
Qed.

(** The extractor gives nothing exactly when the stripped text has no run
    of four decimal digits. *)
Lemma period_year_none_iff : forall s,
  period_year s = None <-> ~ has_four_digits (strip s).
Proof.
  intros s. rewrite period_year_in_words. unfold extract_year_in_words.
  destruct (first_from (date_year true) None (strip s)) eqn:Ea.
  { apply first_date_some in Ea. split; [discriminate|intros H; contradiction]. }
  destruct (four_digits (strip s)) eqn:Eb.
  { apply four_digits_some in Eb.
    destruct Eb as [a [b [c [d [post [Ht [_ Hd]]]]]]].
    split; [discriminate|]. intros H. exfalso. apply H.
    exists [], a, b, c, d, post. split; [exact Ht|exact Hd]. }
  destruct (first_from (fun _ => four_digits) None (strip s)) eqn:Ec.
  { apply first_four_some in Ec. split; [discriminate|intros H; contradiction]. }
  split; auto. intros _. now apply first_four_none in Ec.
Qed.

End YearProps.

Section StripDigits.
Context {U : UnicodeData}.

(** Stripping takes white space only, and a run of digits has none. *)
Lemma lstrip_split : forall s,
  exists l, s = l ++ lstrip s /\ forallb isspace l = true.
Proof.
  induction s as [|c s [l [Hs Hl]]].
  - exists []. auto.
  - simpl. destruct (isspace c) eqn:E.
    + exists (c :: l). simpl. rewrite E, Hl. split; [now rewrite <- Hs|reflexivity].
    + exists []. auto.
Qed.

Lemma strip_split : forall s,
  exists l r, s = l ++ strip s ++ r
              /\ forallb isspace l = true /\ forallb isspace r = true.
Proof.
  intros s. destruct (lstrip_split s) as [l [Hs Hl]].
  destruct (lstrip_split (rev (lstrip s))) as [r [Hr Hrs]].
  exists l, (rev r). split; [|split; auto].
  - unfold strip, rstrip. rewrite Hs at 1. f_equal.
    rewrite <- (rev_involutive (lstrip s)) at 1. rewrite Hr at 1.
    now rewrite rev_app_distr.
  - rewrite forallb_forall in *. intros x Hx. apply Hrs. now apply in_rev.
Qed.

Lemma four_digits_drop_left : forall l t,
  forallb isspace l = true -> has_four_digits (l ++ t) -> has_four_digits t.
Proof.
  induction l as [|x l IH]; intros t Hl H; auto.
  simpl in Hl. apply andb_true_iff in Hl. destruct Hl as [Hx Hl].
  apply IH; auto.
  destruct H as [pre [a [b [c [d [post [E [Ha Hd]]]]]]]].
  destruct pre as [|x' pre]; simpl in E; inversion E; subst.
  - rewrite (space_not_decimal a Hx) in Ha. discriminate.
  - exists pre, a, b, c, d, post. auto.
Qed.

Lemma four_digits_rev : forall t, has_four_digits t -> has_four_digits (rev t).
Proof.
  intros t [pre [a [b [c [d [post [E [Ha [Hb [Hc Hd]]]]]]]]]].
  exists (rev post), d, c, b, a, (rev pre). split; [|auto].
  rewrite E.
  change (pre ++ a :: b :: c :: d :: post) with (pre ++ [a; b; c; d] ++ post).
  rewrite !rev_app_distr. simpl. rewrite <- !app_assoc. reflexivity.
Qed.

Lemma four_digits_strip : forall s,
  has_four_digits (strip s) <-> has_four_digits s.
Proof.
  intros s. destruct (strip_split s) as [l [r [Hs [Hl Hr]]]]. split.
  - intros [pre [a [b [c [d [post [E Hd]]]]]]].
    exists (l ++ pre), a, b, c, d, (post ++ r). split; [|exact Hd].
    rewrite Hs at 1. rewrite E. rewrite <- !app_assoc. reflexivity.
  - intros H. rewrite Hs in H. apply four_digits_drop_left in H; auto.
    apply four_digits_rev in H. rewrite rev_app_distr in H.
    apply four_digits_drop_left in H.
    + apply four_digits_rev in H. now rewrite rev_involutive in H.
    + rewrite forallb_forall in *. intros x Hx. apply Hr. now apply in_rev.
Qed.

End StripDigits.

(** C7, as stated, fails in step (a): a DD.MM.YYYY substring that touches
    a word character is not taken, so an earlier run of four digits wins. *)
Lemma C7_counterexample :
  ~ exists U : UnicodeData,
      period_year (py "1999 x31.03.2025")
      = extract_year_in_words false (py "1999 x31.03.2025").
Proof. intros [U H]. vm_compute in H. discriminate. Qed.

(** C7, amended. [period_year] tries, in order: (a) a DD.MM.YYYY substring
    with no word character right before or right after it, taking its
    year; (b) four digits at the very start of the stripped text; (c) the
    first run of four digits anywhere. It gives nothing exactly when the
    text has no run of four decimal digits. It gives 2025 for "2025-Q1",
    "31.03.2025" and "jakiś 2025 tekst", and nothing for "brak danych". *)
Theorem C7_period_year_order :
  forall U : UnicodeData,
    (forall s, period_year s = extract_year_in_words true s)
    /\ (forall s, period_year s = None <-> ~ has_four_digits s)
    /\ period_year (py "2025-Q1") = Some 2025%Z
    /\ period_year (py "31.03.2025") = Some 2025%Z
    /\ period_year (py "jakiś 2025 tekst") = Some 2025%Z
    /\ period_year (py "brak danych") = None.
Proof.
  intros U. split; [exact period_year_in_words|].
  split.
  { intros s. rewrite period_year_none_iff. split; intros H Hd; apply H;
      now apply (four_digits_strip s). }
  repeat split; vm_compute; reflexivity.
Qed.

(** ** Quarter tokens *)

Section TokenProps.
Context {U : UnicodeData}.

Lemma lit_match_Q_q : forall x, lit_match true 81 x = lit_match true 113 x.
Proof. intros x. reflexivity. Qed.

Lemma lit_match_dash : forall x, lit_match true 45 x = (x =? 45)%N.
Proof. intros x. reflexivity. Qed.

Lemma q_not_space : forall x, lit_match true 113 x = true -> isspace x = false.
Proof.
  intros x H. destruct (isspace x) eqn:E; auto.
  apply lit_match_uncased in H; [|now apply space_uncased].
  cbn in H. destruct H as [H|[H|H]]; try subst x; try discriminate E.
  contradiction.
Qed.

Lemma range_not_space : forall x, in_range 49 52 x = true -> isspace x = false.
Proof.
  intros x H.
  assert (latin x = true) as L.
  { unfold in_range in H. apply andb_true_iff in H.
    destruct H as [_ H]. apply N.leb_le in H.
    unfold latin. apply N.ltb_lt. lia. }
  pose proof (latin_forall
    (fun c => implb (in_range 49 52 c) (negb (isspace c))) eq_refl x L) as Hc.
  cbv beta in Hc. rewrite H in Hc. now apply negb_true_iff in Hc.
Qed.

Lemma dash_not_space : forall x, (x =? 45)%N = true -> isspace x = false.
Proof. intros x H. apply N.eqb_eq in H. now subst x. Qed.

Lemma newline_space : forall x, (x =? 10)%N = true -> isspace x = true.
Proof. intros x H. apply N.eqb_eq in H. now subst x. Qed.

Local Opaque isdecimal isword lit_match in_range isspace.
Local Arguments N.eqb : simpl never.

Ltac token_atoms :=
  repeat (cbn; rewrite ?lit_match_Q_q, ?lit_match_dash;
          match goal with
          | H : isdecimal ?c = _ |- context [isdecimal ?c] => rewrite H
          | H : lit_match ?i ?k ?c = _ |- context [lit_match ?i ?k ?c] => rewrite H
          | H : in_range ?a ?b ?c = _ |- context [in_range ?a ?b ?c] => rewrite H
          | H : N.eqb ?c ?k = _ |- context [N.eqb ?c ?k] => rewrite H
          | |- context [isdecimal ?c] => destruct (isdecimal c) eqn:?
          | |- context [lit_match ?i ?k ?c] => destruct (lit_match i k c) eqn:?
          | |- context [in_range ?a ?b ?c] => destruct (in_range a b c) eqn:?
          | |- context [N.eqb ?c ?k] => destruct (N.eqb c k) eqn:?
          | |- context [match ?l with [] => _ | _ :: _ => _ end] => is_var l; destruct l
          end);
  cbn; try reflexivity; try congruence.

(** Whatever one of the two quarter forms matches, the program's quarter
    pattern matches. *)
Lemma quarter_forms_match : forall t,
  matches true QUARTER_DASH_RE t || matches true QUARTER_PLAIN_RE t = true ->
  matches true PERIOD_Q_RE t = true.
Proof.
  intros t. unfold matches, re_match, match_here.
  destruct t as [|d1 [|d2 [|d3 [|d4 [|x1 [|x2 [|x3 t]]]]]]].
  all: token_atoms.
Qed.

(** A text that matches one of the two quarter forms still matches the
    program's quarter pattern once stripped: it has no white space but,
    possibly, a final line feed. *)
Ltac strip_atoms :=
  repeat (cbn; rewrite ?lit_match_Q_q, ?lit_match_dash;
          match goal with
          | |- false = true -> _ => intros; discriminate
          | H : isdecimal ?c = true |- context [isspace ?c] =>
            rewrite (decimal_not_space c H)
          | H : lit_match true 113 ?c = true |- context [isspace ?c] =>
            rewrite (q_not_space c H)
          | H : in_range 49 52 ?c = true |- context [isspace ?c] =>
            rewrite (range_not_space c H)
          | H : N.eqb ?c 45 = true |- context [isspace ?c] =>
            rewrite (dash_not_space c H)
          | H : N.eqb ?c 10 = true |- context [isspace ?c] =>
            rewrite (newline_space c H)
          | H : isdecimal ?c = _ |- context [isdecimal ?c] => rewrite H
          | H : lit_match ?i ?k ?c = _ |- context [lit_match ?i ?k ?c] => rewrite H
          | H : in_range ?a ?b ?c = _ |- context [in_range ?a ?b ?c] => rewrite H
          | H : N.eqb ?c ?k = _ |- context [N.eqb ?c ?k] => rewrite H
          | |- context [isdecimal ?c] => destruct (isdecimal c) eqn:?
          | |- context [lit_match ?i ?k ?c] => destruct (lit_match i k c) eqn:?
          | |- context [in_range ?a ?b ?c] => destruct (in_range a b c) eqn:?
          | |- context [N.eqb ?c ?k] => destruct (N.eqb c k) eqn:?
          | |- context [match ?l with [] => _ | _ :: _ => _ end] => is_var l; destruct l
          end);
  cbn; try reflexivity; try congruence.

Lemma quarter_forms_strip : forall t,
  matches true QUARTER_DASH_RE t || matches true QUARTER_PLAIN_RE t = true ->
  matches true PERIOD_Q_RE (strip t) = true.
Proof.
  intros t. unfold matches, re_match, match_here, strip, rstrip.
  destruct t as [|d1 [|d2 [|d3 [|d4 [|x1 [|x2 [|x3 [|x4 t]]]]]]]].
  all: strip_atoms.
Qed.
End TokenProps.

(** C8. A string that matches [^\d{4}-Q[1-4]$] or [^\d{4}Q[1-4]$] in any
    letter case, as it is or once stripped, is a period token. *)
Theorem C8_quarter_is_period_token :
  forall (U : UnicodeData) (s t : Str),
    t = s \/ t = strip s ->
    matches true QUARTER_DASH_RE t = true
    \/ matches true QUARTER_PLAIN_RE t = true ->
    is_period_token s = true.
Proof.
  intros U s t Ht H. unfold is_period_token.
  assert (matches true QUARTER_DASH_RE t || matches true QUARTER_PLAIN_RE t
          = true) as Hb.
  { destruct H as [H|H]; rewrite H; [reflexivity|apply orb_true_r]. }
  destruct Ht as [->| ->].
  - now rewrite (quarter_forms_strip s Hb).
  - now rewrite (quarter_forms_match (strip s) Hb).
Qed.

Lemma C8_witness : is_period_token (U:=latin_only) (py " 2025-q3 ") = true.
Proof.
  apply (C8_quarter_is_period_token latin_only (py " 2025-q3 ")
           (strip (py " 2025-q3 "))).
  - right. reflexivity.
  - left. vm_compute. reflexivity.
Defined.

(** ** The default year *)

Section ModeProps.

Lemma insert_z_in : forall x y l, In x (insert_z y l) <-> x = y \/ In x l.
Proof.
  induction l as [|z l IH]; simpl.
  - intuition.
  - destruct (y <=? z)%Z; simpl; [intuition|]. rewrite IH. intuition.
Qed.

Lemma sort_z_in : forall l x, In x (sort_z l) <-> In x l.
Proof.
  induction l as [|y l IH]; intros x; simpl; [tauto|].
  rewrite insert_z_in, IH. intuition.
Qed.

(** The head of an insertion is below every element, when the head of the
    list was. *)
Lemma insert_z_head : forall y l h t,
  (forall h' t', l = h' :: t' -> forall x, In x l -> (h' <= x)%Z) ->
  insert_z y l = h :: t ->
  forall x, In x (insert_z y l) -> (h <= x)%Z.
Proof.
  intros y l h t Hl Hi x Hx.
  destruct l as [|z l'].
  - simpl in *. inversion Hi; subst. destruct Hx as [<-|[]]. lia.
  - specialize (Hl z l' eq_refl). simpl in Hi, Hx.
    destruct (y <=? z)%Z eqn:E.
    + inversion Hi; subst. apply Z.leb_le in E.
      destruct Hx as [<-|Hx]; [lia|]. specialize (Hl x Hx). lia.
    + inversion Hi; subst. apply Z.leb_gt in E.
      destruct Hx as [<-|Hx]; [lia|].
      apply insert_z_in in Hx. destruct Hx as [->|Hx]; [lia|].
      apply Hl. now right.
Qed.

Lemma sort_z_head : forall l h t,
  sort_z l = h :: t -> forall x, In x l -> (h <= x)%Z.
Proof.
  induction l as [|y l IH]; intros h t Hs x Hx; [contradiction|].
  simpl in Hs.
  apply (insert_z_head y (sort_z l) h t).
  - intros h' t' Hl x' Hx'. apply (IH h' t' Hl). now apply sort_z_in.
  - exact Hs.
  - apply insert_z_in. destruct Hx as [->|Hx]; [now left|right; now apply sort_z_in].
Qed.

Lemma fold_max_ge : forall (f : Z -> nat) l z,
  In z l -> f z <= fold_right (fun z m => Nat.max (f z) m) 0 l.
Proof.
  induction l as [|y l IH]; intros z Hz; [contradiction|].
  simpl. destruct Hz as [->|Hz]; [lia|]. specialize (IH z Hz). lia.
Qed.

Lemma fold_max_attained : forall (f : Z -> nat) l,
  l <> [] ->
  exists z, In z l /\ f z = fold_right (fun z m => Nat.max (f z) m) 0 l.
Proof.
  induction l as [|y l IH]; intros Hn; [contradiction|].
  simpl. destruct l as [|y' l'].
  - exists y. split; [now left|]. simpl. lia.
  - destruct IH as [z [Hz Hf]]; [discriminate|].
    destruct (Nat.le_ge_cases (f y) (fold_right (fun z m => Nat.max (f z) m) 0 (y' :: l'))).
    + exists z. split; [now right|]. rewrite Hf. lia.
    + exists y. split; [now left|]. lia.
Qed.

Lemma max_count_ge : forall l z, count_z z l <= max_count l.
Proof.
  intros l z. unfold max_count.
  destruct (in_dec Z.eq_dec z l) as [Hin|Hout].
  - now apply (fold_max_ge (fun z => count_z z l)).
  - unfold count_z. rewrite (proj1 (count_occ_not_In Z.eq_dec l z) Hout). lia.
Qed.

Lemma mode_in : forall l z,
  In z (mode l) <-> In z l /\ count_z z l = max_count l.
Proof.
  intros l z. unfold mode. rewrite sort_z_in, nodup_In, filter_In, Nat.eqb_eq. tauto.
Qed.

Lemma mode_nonempty : forall l, l <> [] -> mode l <> [].
Proof.
  intros l Hn E.
  destruct (fold_max_attained (fun z => count_z z l) l Hn) as [z [Hz Hc]].
  assert (In z (mode l)) as Hin by (apply mode_in; split; auto).
  rewrite E in Hin. contradiction.
Qed.

(** The first mode is a most frequent value, and the lowest of them. *)
Lemma mode_head : forall l d t,
  mode l = d :: t ->
  In d l
  /\ (forall y, count_z y l <= count_z d l)
  /\ (forall y, In y l -> count_z y l = count_z d l -> (d <= y)%Z).
Proof.
  intros l d t H.
  assert (In d (mode l)) as Hd by (rewrite H; now left).
  apply mode_in in Hd. destruct Hd as [Hin Hc].
  split; [exact Hin|]. split.
  - intros y. rewrite Hc. apply max_count_ge.
  - intros y Hy Hcy. unfold mode in H.
    apply (sort_z_head _ _ _ H).
    apply nodup_In, filter_In. split; auto. apply Nat.eqb_eq. congruence.
Qed.

End ModeProps.

Section DefaultYearProps.
Context {U : UnicodeData}.

Lemma somes_in : forall (l : list (option Z)) y, In y (somes l) <-> In (Some y) l.
Proof.
  induction l as [|[x|] l IH]; intros y; simpl.
  - tauto.
  - rewrite IH. split; intros [H|H]; auto; left; congruence.
  - rewrite IH. split; auto. intros [H|H]; [discriminate|auto].
Qed.

Lemma dominant_years_in : forall rows y,
  In y (dominant_years rows) <->
  (y = 2024%Z \/ y = 2025%Z)
  /\ exists r, In r rows /\ period_year (period r) = Some y.
Proof.
  intros rows y. unfold dominant_years.
  rewrite somes_in, filter_In, in_map_iff, isin_years_iff. split.
  - intros [[r [Hr Hin]] Hy]. split.
    + destruct Hy as [Hy|Hy]; inversion Hy; auto.
    + eauto.
  - intros [Hy [r [Hin Hr]]]. split; [eauto|].
    destruct Hy; subst; auto.
Qed.

(** The years step 8 counts are those of the rows: a year of 2024 or 2025
    comes as often in [dominant_years] as there are rows of that year. *)
Lemma dominant_years_count : forall rows y,
  y = 2024%Z \/ y = 2025%Z ->
  count_occ Z.eq_dec (dominant_years rows) y = rows_of_year y rows.
Proof.
  intros rows y Hy. unfold dominant_years, rows_of_year.
  induction rows as [|r rows IH]; [reflexivity|].
  cbn [map filter]. destruct (period_year (period r)) as [z|]; cbn [isin_years].
  - destruct (z =? y)%Z eqn:E.
    + apply Z.eqb_eq in E. subst z.
      assert ((y =? 2024)%Z || (y =? 2025)%Z = true) as ->
          by (destruct Hy; subst; reflexivity).
      cbn [somes length]. rewrite count_occ_cons_eq by reflexivity. now rewrite IH.
    + apply Z.eqb_neq in E.
      destruct ((z =? 2024)%Z || (z =? 2025)%Z); [|exact IH].
      cbn [somes]. rewrite count_occ_cons_neq by exact E. exact IH.
  - exact IH.
Qed.

Lemma dominant_years_nil : forall rows,
  rows_of_year 2024 rows = 0 -> rows_of_year 2025 rows = 0 -> dominant_years rows = [].
Proof.
  intros rows H4 H5. destruct (dominant_years rows) as [|y l] eqn:E; [reflexivity|].
  assert (In y (dominant_years rows)) as Hin by (rewrite E; now left).
  pose proof Hin as Hy. apply dominant_years_in in Hy. destruct Hy as [Hy _].
  apply (count_occ_In Z.eq_dec) in Hin.
  rewrite (dominant_years_count rows y Hy) in Hin.
  destruct Hy; subst y; lia.
Qed.

(** The default year, from the numbers of rows of 2024 and of 2025. *)
Lemma default_year_by_rows : forall rows,
  default_year rows
  = if (0 <? rows_of_year 2024 rows) && (rows_of_year 2025 rows <=? rows_of_year 2024 rows)
    then 2024%Z else 2025%Z.
Proof.
  intros rows. unfold default_year.
  pose proof (dominant_years_count rows 2024%Z (or_introl eq_refl)) as C4.
  pose proof (dominant_years_count rows 2025%Z (or_intror eq_refl)) as C5.
  destruct (mode (dominant_years rows)) as [|d t] eqn:E.
  - destruct (dominant_years rows) as [|y l] eqn:El.
    + cbn in C4. rewrite <- C4. reflexivity.
    + exfalso. apply (mode_nonempty (y :: l)); [discriminate|exact E].
  - destruct (mode_head _ _ _ E) as [Hin [Hmax Htie]].
    pose proof Hin as Hd. apply dominant_years_in in Hd. destruct Hd as [Hd _].
    pose proof (proj1 (count_occ_In Z.eq_dec _ _) Hin) as Hpos.
    unfold count_z in Hmax, Htie.
    destruct Hd as [-> | ->].
    + specialize (Hmax 2025%Z). rewrite C4 in Hpos. rewrite C4, C5 in Hmax.
      rewrite (proj2 (Nat.ltb_lt _ _)) by lia.
      now rewrite (proj2 (Nat.leb_le _ _)) by lia.
    + specialize (Hmax 2024%Z). rewrite C5 in Hpos. rewrite C4, C5 in Hmax.
      destruct (0 <? rows_of_year 2024 rows) eqn:E0; [|reflexivity].
      apply Nat.ltb_lt in E0. cbn [andb].
      destruct (rows_of_year 2025 rows <=? rows_of_year 2024 rows) eqn:E1;
        [|reflexivity].
      apply Nat.leb_le in E1. exfalso.
      assert (In 2024%Z (dominant_years rows)) as H24
          by (apply (count_occ_In Z.eq_dec); lia).
      specialize (Htie 2024%Z H24). rewrite C4, C5 in Htie. lia.
Qed.

End DefaultYearProps.

(** C6. The default year is the year that most rows have, among the rows
    whose period gives 2024 or 2025: 2024 when some row gives 2024 and no
    more rows give 2025 than 2024 (on a tie, the lower year), 2025 when
    more rows give 2025, and 2025 as well when no row gives either. Step 8
    writes that year, as the text "2024" or "2025", into every row whose
    period is empty, and leaves the other rows as they are; for a table
    without any period every row has the period "2025" by then. *)
Theorem C6_default_year_is_mode :
  forall (U : UnicodeData) (rows : list Row),
    let n2024 := rows_of_year 2024 rows in
    let n2025 := rows_of_year 2025 rows in
    let d := default_year rows in
    (n2024 = 0 /\ n2025 = 0 -> d = 2025%Z)
    /\ (0 < n2024 /\ n2025 <= n2024 -> d = 2024%Z)
    /\ (n2024 < n2025 -> d = 2025%Z)
    /\ period_policy true rows = map (fill_default d) rows
    /\ period_policy false rows = map (set_period (py "2025")) rows
    /\ (forall r, period r = [] ->
                  fill_default d r
                  = set_period (if (d =? 2024)%Z then py "2024" else py "2025") r)
    /\ (forall r, period r <> [] -> fill_default d r = r).
Proof.
  intros U rows n2024 n2025 d. subst n2024 n2025 d.
  rewrite (default_year_by_rows rows).
  split; [|split; [|split; [|split; [|split; [|split]]]]].
  - intros [-> ->]. reflexivity.
  - intros [H1 H2].
    rewrite (proj2 (Nat.ltb_lt _ _) H1). now rewrite (proj2 (Nat.leb_le _ _) H2).
  - intros H. rewrite (proj2 (Nat.leb_gt _ _) H). now rewrite andb_false_r.
  - unfold period_policy. now rewrite (default_year_by_rows rows).
  - unfold period_policy. rewrite map_map. apply map_ext. reflexivity.
  - intros r Hr. unfold fill_default. rewrite Hr.
    destruct ((0 <? rows_of_year 2024 rows)
              && (rows_of_year 2025 rows <=? rows_of_year 2024 rows)); reflexivity.
  - intros r Hr. unfold fill_default. destruct (period r); [contradiction|reflexivity].
Qed.

(** Two rows of 2025 and one of 2024 give 2025; one of each gives 2024;
    the row without a period gets the year as text. *)
Lemma C6_witness :
  default_year (U:=latin_only)
    [Build_Row [] [] [] [] (py "2025-Q1") []; Build_Row [] [] [] [] (py "2024") [];
     Build_Row [] [] [] [] (py "01.02.2025") []; Build_Row [] [] [] [] [] []]
  = 2025%Z
  /\ default_year (U:=latin_only)
       [Build_Row [] [] [] [] (py "2025-Q1") []; Build_Row [] [] [] [] (py "2024") [];
        Build_Row [] [] [] [] [] []]
     = 2024%Z
  /\ period_policy (U:=latin_only) true
       [Build_Row [] [] [] [] (py "2025-Q1") []; Build_Row [] [] [] [] (py "2024") [];
        Build_Row [] [] [] [] [] []]
     = [Build_Row [] [] [] [] (py "2025-Q1") []; Build_Row [] [] [] [] (py "2024") [];
        Build_Row [] [] [] [] (py "2024") []].
Proof.
  split; [|split].
  - apply (proj1 (proj2 (proj2 (C6_default_year_is_mode latin_only
      [Build_Row [] [] [] [] (py "2025-Q1") []; Build_Row [] [] [] [] (py "2024") [];
       Build_Row [] [] [] [] (py "01.02.2025") []; Build_Row [] [] [] [] [] []])))).
    vm_compute. lia.
  - apply (proj1 (proj2 (C6_default_year_is_mode latin_only
      [Build_Row [] [] [] [] (py "2025-Q1") []; Build_Row [] [] [] [] (py "2024") [];
       Build_Row [] [] [] [] [] []]))).
    vm_compute. split; lia.
  - vm_compute. reflexivity.
Defined.

(** ** Text without white space is left alone *)

Section NoSpaceProps.
Context {U : UnicodeData}.

Lemma flat_map_nil : forall {A B} (f : A -> list B) l,
  (forall x, In x l -> f x = []) -> flat_map f l = [].
Proof.
  intros A B f l H. induction l as [|x l IH]; simpl; auto.
  rewrite (H x) by now left. apply IH. intros y Hy. apply H. now right.
Qed.

Lemma no_space_app : forall a b,
  no_space (a ++ b) = true -> no_space a = true /\ no_space b = true.
Proof.
  intros a b. unfold no_space. rewrite forallb_app. apply andb_true_iff.
Qed.

Lemma no_space_tail : forall c s, no_space (c :: s) = true -> no_space s = true.
Proof. intros c s H. simpl in H. now apply andb_true_iff in H. Qed.

(** Repetition only moves forward in the text. *)
Lemma rep_runs_rest : forall p hi lo st st',
  In st' (rep_runs p lo hi st) ->
  exists pre, m_rest st = pre ++ m_rest st'.
Proof.
  induction hi as [|h IH]; intros lo st st' H.
  - simpl in H. destruct lo; simpl in H; [|contradiction].
    destruct H as [<-|[]]. now exists [].
  - cbn [rep_runs] in H. apply in_app_or in H. destruct H as [H|H].
    + destruct (m_rest st) as [|c tl] eqn:E; [contradiction|].
      destruct (p c); [|contradiction].
      apply IH in H. destruct H as [pre Hpre]. cbn [m_rest take] in Hpre.
      exists (c :: pre). now rewrite Hpre.
    + destruct lo; simpl in H; [|contradiction].
      destruct H as [<-|[]]. now exists [].
Qed.

Lemma rep_runs_head_fail : forall p lo hi st,
  match m_rest st with c :: _ => p c = false | [] => True end ->
  rep_runs p (S lo) hi st = [].
Proof.
  intros p lo hi st H. destruct hi as [|h]; cbn [rep_runs]; [reflexivity|].
  destruct (m_rest st) as [|c tl]; [reflexivity|]. now rewrite H.
Qed.

Lemma spaces1_none : forall ic st,
  no_space (m_rest st) = true -> runs ic spaces1 st = [].
Proof.
  intros ic st H. unfold spaces1. cbn [runs].
  apply rep_runs_head_fail.
  destruct (m_rest st) as [|c tl]; [exact I|].
  simpl in H. apply andb_true_iff in H. destruct H as [Hc _].
  apply negb_true_iff in Hc. exact Hc.
Qed.

Lemma ws_none : forall prev rest,
  no_space rest = true -> match_here false WS_RE prev rest = None.
Proof.
  intros prev rest H. unfold match_here, WS_RE.
  now rewrite spaces1_none.
Qed.

(** The date pattern needs white space after the day. *)
Lemma polish_date_none : forall prev rest,
  no_space rest = true -> match_here true POLISH_DATE_RE prev rest = None.
Proof.
  intros prev rest H. unfold match_here.
  set (tail := cat [Group 2 (alts (map lits MONTH_WORDS)); spaces1;
                    Group 3 (digits 4); DATE_TAIL]).
  change POLISH_DATE_RE
    with (Seq WordB (Seq (Group 1 (Rep ADigit 1 (Some 2))) (Seq spaces1 tail))).
  cbn [runs].
  rewrite flat_map_nil; [reflexivity|].
  intros st Hst.
  assert (st = start prev rest) as ->.
  { destruct (xorb _ _); [|contradiction]. destruct Hst as [<-|[]]. reflexivity. }
  apply flat_map_nil. intros st' Hst'.
  apply in_map_iff in Hst'. destruct Hst' as [st0 [<- Hst0]].
  apply rep_runs_rest in Hst0. destruct Hst0 as [pre Hpre].
  cbn [m_rest open_group start] in Hpre.
  rewrite spaces1_none; [reflexivity|].
  cbn [m_rest close_group]. rewrite Hpre in H. now apply no_space_app in H.
Qed.

(** Where the pattern matches nowhere, [re.sub] gives the text back. *)
Lemma sub_go_id : forall ic r repl rest prev,
  (forall pre suf p, rest = pre ++ suf -> match_here ic r p suf = None) ->
  sub_go ic r repl 0 prev rest = rest.
Proof.
  intros ic r repl. induction rest as [|c tl IH]; intros prev H.
  - cbn [sub_go]. now rewrite (H [] [] prev eq_refl).
  - cbn [sub_go]. rewrite (H [] (c :: tl) prev eq_refl). f_equal.
    apply IH. intros pre suf p E. apply (H (c :: pre) suf p). now rewrite E.
Qed.

Lemma sub_no_space : forall ic r repl s,
  (forall prev rest, no_space rest = true -> match_here ic r prev rest = None) ->
  no_space s = true -> re_sub ic r repl s = s.
Proof.
  intros ic r repl s Hr Hs. unfold re_sub. apply sub_go_id.
  intros pre suf p E. apply Hr. rewrite E in Hs. now apply no_space_app in Hs.
Qed.

Lemma lstrip_no_space : forall s, no_space s = true -> lstrip s = s.
Proof.
  intros [|c s] H; [reflexivity|]. simpl in *.
  apply andb_true_iff in H. destruct H as [Hc _].
  apply negb_true_iff in Hc. now rewrite Hc.
Qed.

Lemma no_space_rev : forall s, no_space s = true -> no_space (rev s) = true.
Proof.
  intros s H. unfold no_space in *. rewrite forallb_forall in *.
  intros x Hx. apply H. now apply in_rev.
Qed.

Lemma strip_no_space : forall s, no_space s = true -> strip s = s.
Proof.
  intros s H. unfold strip, rstrip.
  rewrite (lstrip_no_space s H), (lstrip_no_space _ (no_space_rev s H)).
  apply rev_involutive.
Qed.

(** Step 7 after [clean_value], on text without white space. *)
Lemma clean_steps_no_space : forall s,
  no_space s = true ->
  strip (re_sub false WS_RE (fun _ => py " ") (normalize_polish_dates s)) = s.
Proof.
  intros s H. unfold normalize_polish_dates.
  rewrite (sub_no_space true POLISH_DATE_RE repl s polish_date_none H).
  rewrite (sub_no_space false WS_RE _ s ws_none H).
  now apply strip_no_space.
Qed.

End NoSpaceProps.

(** ** Cleaning a cell *)

Section CleanProps.
Context {U : UnicodeData}.



Lemma digit_not_dot : forall c, isdigit_char c = true -> (c =? 0x2E)%N = false.
Proof.
  intros c H. destruct (c =? 0x2E)%N eqn:E; [|reflexivity].
  apply N.eqb_eq in E. subst c. discriminate.
Qed.



(** [replace(".0", "")] takes the suffix off a string of digits. *)
Lemma drop_dot0_digits : forall ds,
  forallb isdigit_char ds = true -> drop_dot0 (ds ++ py ".0") = ds.
Proof.
  induction ds as [|c ds IH]; intros H; [reflexivity|].
  simpl in H. apply andb_true_iff in H. destruct H as [Hc Hds].
  cbn [app drop_dot0].
  destruct (ds ++ py ".0") as [|d tl] eqn:E.
  - destruct ds; discriminate.
  - rewrite (digit_not_dot c Hc). cbn [andb]. now rewrite (IH Hds).
Qed.

Lemma startswith_app : forall p s, startswith p (p ++ s) = true.
Proof.
  induction p as [|c p IH]; intros s; simpl; auto.
  now rewrite N.eqb_refl, IH.
Qed.

Lemma endswith_app : forall p s, endswith p (s ++ p) = true.
Proof. intros p s. unfold endswith. rewrite rev_app_distr. apply startswith_app. Qed.

Lemma clean_value_na : forall v, isna v = true -> clean_value v = [].
Proof. intros v H. unfold clean_value. now rewrite H. Qed.



(** The decimal text of an integer has no white space. *)
Lemma uint_no_space : forall d,
  no_space (map N_of_ascii (list_ascii_of_string (NilEmpty.string_of_uint d))) = true.
Proof. induction d; simpl; auto. Qed.

Lemma str_of_Z_no_space : forall z, no_space (str_of_Z z) = true.
Proof.
  intros z. unfold str_of_Z, NilEmpty.string_of_int.
  destruct (Z.to_int z); [apply uint_no_space|].
  cbn [list_ascii_of_string map no_space forallb]. apply uint_no_space.
Qed.

End CleanProps.


(** ** Rewriting Polish dates is idempotent *)

(** *** The matcher, construct by construct *)

Section MatcherFacts.
Context {U : UnicodeData}.

Lemma last_opt_nil : forall prev, last_opt prev [] = prev.
Proof. reflexivity. Qed.

Lemma last_opt_app : forall prev x y,
  last_opt (last_opt prev x) y = last_opt prev (x ++ y).
Proof.
  intros prev x y. unfold last_opt. rewrite rev_app_distr.
  destruct (rev y); simpl; auto.
Qed.

Lemma last_opt_cons : forall prev c x,
  last_opt prev (c :: x) = last_opt (Some c) x.
Proof. intros prev c x. symmetry. apply (last_opt_app prev [c] x). Qed.

Lemma moved_nil : forall st, moved [] (m_rest st) st = st.
Proof. intros [p r t c]. reflexivity. Qed.

Lemma moved_moved : forall x y r r' st,
  moved y r' (moved x r st) = moved (x ++ y) r' st.
Proof.
  intros x y r r' st. unfold moved. cbn [m_prev m_taken m_caps].
  now rewrite last_opt_app, rev_app_distr, app_assoc.
Qed.

Lemma take_moved : forall c tl st, take c tl st = moved [c] tl st.
Proof. reflexivity. Qed.

(** Sequencing a list of expressions. *)
Lemma runs_cat_cons : forall ic r l st,
  runs ic (cat (r :: l)) st = flat_map (runs ic (cat l)) (runs ic r st).
Proof.
  intros ic r [|r' l] st.
  - cbn [cat runs]. induction (runs ic r st) as [|s l IH]; simpl; congruence.
  - reflexivity.
Qed.

(** What a repetition reaches: every run of [lo] to [hi] characters that
    pass the test. *)
Lemma rep_runs_in : forall p hi lo st st',
  In st' (rep_runs p lo hi st) <->
  exists x r, m_rest st = x ++ r /\ st' = moved x r st
              /\ forallb p x = true /\ lo <= length x <= hi.
Proof.
  induction hi as [|h IH]; intros lo st st'.
  - cbn [rep_runs app]. split.
    + destruct lo; [|contradiction]. intros [<-|[]].
      exists [], (m_rest st). rewrite moved_nil. simpl. auto with arith.
    + intros [x [r [Hr [Hst [Hp Hl]]]]].
      destruct x; [|simpl in Hl; lia]. simpl in Hl, Hr.
      destruct lo; [|lia]. left. subst. symmetry. apply moved_nil.
  - cbn [rep_runs]. rewrite in_app_iff. split.
    + intros [H|H].
      * destruct (m_rest st) as [|c tl] eqn:E; [contradiction|].
        destruct (p c) eqn:Hc; [|contradiction].
        apply IH in H. destruct H as [x [r [Hr [Hst [Hp Hl]]]]].
        cbn [m_rest take] in Hr.
        exists (c :: x), r. rewrite Hr. split; [reflexivity|]. split.
        { rewrite Hst, take_moved. apply (moved_moved [c] x). }
        split; [simpl; now rewrite Hc|]. simpl. lia.
      * destruct lo; [|contradiction]. destruct H as [<-|[]].
        exists [], (m_rest st). rewrite moved_nil. simpl. auto with arith.
    + intros [x [r [Hr [Hst [Hp Hl]]]]].
      destruct x as [|c x].
      * right. simpl in Hl, Hr. destruct lo; [|lia]. left.
        subst. symmetry. apply moved_nil.
      * left. simpl in Hr. rewrite Hr. simpl in Hp.
        apply andb_true_iff in Hp. destruct Hp as [Hc Hp]. rewrite Hc.
        apply IH. exists x, r. cbn [m_rest take]. split; [reflexivity|]. split.
        { rewrite Hst, take_moved. symmetry. apply (moved_moved [c] x). }
        split; [exact Hp|]. simpl in Hl. lia.
Qed.

Lemma chr_in : forall ic a st st',
  In st' (runs ic (Chr a) st) <->
  exists c r, m_rest st = c :: r /\ st' = moved [c] r st /\ atom_match ic a c = true.
Proof.
  intros ic a st st'. cbn [runs]. split.
  - destruct (m_rest st) as [|c tl]; [contradiction|].
    destruct (atom_match ic a c) eqn:E; [|contradiction].
    intros [<-|[]]. exists c, tl. auto.
  - intros [c [r [Hr [Hst Ha]]]]. rewrite Hr, Ha. left. now subst.
Qed.

(** A literal word. *)
Lemma lits_in : forall w st st',
  In st' (runs true (lits w) st) <->
  exists x r, m_rest st = x ++ r /\ st' = moved x r st /\ word_match w x = true.
Proof.
  induction w as [|c w IH]; intros st st'.
  - cbn. split.
    + intros [<-|[]]. exists [], (m_rest st). rewrite moved_nil. auto.
    + intros [x [r [Hr [Hst Hw]]]]. destruct x; [|discriminate].
      left. simpl in Hr. subst. symmetry. apply moved_nil.
  - unfold lits. cbn [map]. rewrite runs_cat_cons. rewrite in_flat_map. split.
    + intros [st1 [H1 H2]]. apply chr_in in H1.
      destruct H1 as [a [r1 [Hr1 [Hst1 Ha]]]].
      apply IH in H2. destruct H2 as [x [r [Hr [Hst Hw]]]].
      subst st1. cbn [m_rest moved] in Hr.
      exists (a :: x), r. rewrite Hr1, Hr. split; [reflexivity|]. split.
      { rewrite Hst. apply (moved_moved [a] x). }
      cbn [word_match]. cbn [atom_match] in Ha. now rewrite Ha.
    + intros [x [r [Hr [Hst Hw]]]]. destruct x as [|a x]; [discriminate|].
      cbn [word_match] in Hw. apply andb_true_iff in Hw. destruct Hw as [Ha Hw].
      exists (moved [a] (x ++ r) st). split.
      * apply chr_in. exists a, (x ++ r). auto.
      * apply IH. exists x, r. cbn [m_rest moved]. split; [reflexivity|]. split; auto.
        rewrite Hst. symmetry. apply (moved_moved [a] x).
Qed.

Lemma alts_in : forall ic l st st',
  l <> [] ->
  (In st' (runs ic (alts l) st) <-> exists r, In r l /\ In st' (runs ic r st)).
Proof.
  induction l as [|r l IH]; intros st st' Hn; [contradiction|].
  destruct l as [|r' l'].
  - cbn [alts]. split; [intros H; exists r; split; [now left|auto]|].
    intros [r0 [[<-|[]] H]]. exact H.
  - change (alts (r :: r' :: l')) with (Alt r (alts (r' :: l'))).
    cbn [runs]. rewrite in_app_iff, IH by discriminate. split.
    + intros [H|[r0 [Hr0 H]]]; [exists r; split; [now left|auto]|].
      exists r0. split; [now right|auto].
    + intros [r0 [[<-|Hr0] H]]; [now left|]. right. eauto.
Qed.

(** The month group. *)
Lemma month_in : forall st st',
  In st' (runs true (Group 2 (alts (map lits MONTH_WORDS))) st) <->
  exists mo r, m_rest st = mo ++ r /\ st' = captured 2 mo r st /\ month_text mo = true.
Proof.
  intros st st'. cbn [runs]. rewrite in_map_iff. split.
  - intros [st0 [<- H]].
    apply alts_in in H; [|discriminate]. destruct H as [r [Hr H]].
    apply in_map_iff in Hr. destruct Hr as [w [<- Hw]].
    apply lits_in in H. destruct H as [x [r' [Hr' [Hst Hm]]]].
    exists x, r'. split; [exact Hr'|]. split.
    + subst st0. unfold close_group, captured, moved, open_group.
      cbn [m_prev m_rest m_taken m_caps]. now rewrite !app_nil_r, rev_involutive.
    + unfold month_text. apply existsb_exists. eauto.
  - intros [mo [r [Hr [Hst Hm]]]].
    unfold month_text in Hm. apply existsb_exists in Hm. destruct Hm as [w [Hw Hm]].
    exists (moved mo r (open_group st)). split.
    + subst st'. unfold close_group, captured, moved, open_group.
      cbn [m_prev m_rest m_taken m_caps]. now rewrite !app_nil_r, rev_involutive.
    + apply alts_in; [discriminate|]. exists (lits w). split; [now apply in_map|].
      apply lits_in. exists mo, r. auto.
Qed.

(** A group of digits. *)
Lemma digit_group_in : forall n lo hi st st',
  In st' (runs true (Group n (Rep ADigit lo (Some hi))) st) <->
  exists x r, m_rest st = x ++ r /\ st' = captured n x r st
              /\ forallb isdecimal x = true /\ lo <= length x <= hi.
Proof.
  intros n lo hi st st'. cbn [runs]. rewrite in_map_iff. split.
  - intros [st0 [<- H]]. apply rep_runs_in in H.
    destruct H as [x [r [Hr [Hst [Hp Hl]]]]].
    exists x, r. split; [exact Hr|]. split; [|auto].
    subst st0. unfold close_group, captured, moved, open_group.
    cbn [m_prev m_rest m_taken m_caps]. now rewrite !app_nil_r, rev_involutive.
  - intros [x [r [Hr [Hst [Hp Hl]]]]].
    exists (moved x r (open_group st)). split.
    + subst st'. unfold close_group, captured, moved, open_group.
      cbn [m_prev m_rest m_taken m_caps]. now rewrite !app_nil_r, rev_involutive.
    + apply rep_runs_in. exists x, r. auto.
Qed.

(** White space, at least once. *)
Lemma spaces1_in : forall st st',
  In st' (runs true spaces1 st) <->
  exists x r, m_rest st = x ++ r /\ st' = moved x r st
              /\ forallb isspace x = true /\ x <> [].
Proof.
  intros st st'. unfold spaces1. cbn [runs]. rewrite rep_runs_in. split.
  - intros [x [r [Hr [Hst [Hp Hl]]]]]. exists x, r. repeat split; auto.
    intros ->. simpl in Hl. lia.
  - intros [x [r [Hr [Hst [Hp Hn]]]]]. exists x, r. repeat split; auto.
    + destruct x; [contradiction|simpl; lia].
    + rewrite Hr, length_app. lia.
Qed.

End MatcherFacts.

(** *** The date pattern as a whole *)

Section DatePattern.
Context {U : UnicodeData}.

Lemma opt_chr_in : forall c st st',
  In st' (runs true (Opt (Chr (ALit c))) st) ->
  exists t r, m_rest st = t ++ r /\ st' = moved t r st
              /\ (t = [] \/ exists x, t = [x] /\ lit_match true c x = true).
Proof.
  intros c st st' H. cbn [runs] in H. apply in_app_or in H. destruct H as [H|H].
  - apply (chr_in true (ALit c)) in H. destruct H as [x [r [Hr [Hst Hx]]]].
    exists [x], r. split; [exact Hr|]. split; [exact Hst|]. right. eauto.
  - destruct H as [<-|[]]. exists [], (m_rest st). rewrite moved_nil. auto.
Qed.

Lemma nondecimal_lit : forall c x,
  In c [ch "r"; ch "."; ch ","] -> lit_match true c x = true -> isdecimal x = false.
Proof.
  intros c x Hc H. destruct Hc as [<-|[<-|[<-|[]]]].
  - apply (date_letter_match (ch "r") x); [now left|exact H].
  - change (lit_match true (ch ".") x) with (x =? ch ".")%N in H.
    apply N.eqb_eq in H. now subst.
  - change (lit_match true (ch ",") x) with (x =? ch ",")%N in H.
    apply N.eqb_eq in H. now subst.
Qed.

Lemma opt_tail_nondecimal : forall c t,
  In c [ch "r"; ch "."; ch ","] ->
  (t = [] \/ exists x, t = [x] /\ lit_match true c x = true) ->
  forallb (fun a => negb (isdecimal a)) t = true.
Proof.
  intros c t Hc [->|[x [-> Hx]]]; [reflexivity|].
  simpl. now rewrite (nondecimal_lit c x Hc Hx).
Qed.

Lemma spaces_nondecimal : forall t,
  forallb isspace t = true -> forallb (fun a => negb (isdecimal a)) t = true.
Proof.
  intros t H. rewrite forallb_forall in *. intros a Ha.
  now rewrite (space_not_decimal a (H a Ha)).
Qed.

(** The tail takes white space, "r", a full stop and a comma: no digit. *)
Lemma tail_in : forall st st',
  In st' (runs true DATE_TAIL st) ->
  exists t r, m_rest st = t ++ r /\ st' = moved t r st
              /\ forallb (fun a => negb (isdecimal a)) t = true.
Proof.
  intros st st' H. unfold DATE_TAIL in H.
  rewrite runs_cat_cons in H. apply in_flat_map in H. destruct H as [s1 [H1 H]].
  rewrite runs_cat_cons in H. apply in_flat_map in H. destruct H as [s2 [H2 H]].
  rewrite runs_cat_cons in H. apply in_flat_map in H. destruct H as [s3 [H3 H]].
  cbn [cat] in H.
  cbn [runs] in H1. apply rep_runs_in in H1.
  destruct H1 as [t1 [r1 [Hr1 [Hs1 [Hp1 _]]]]].
  apply opt_chr_in in H2. destruct H2 as [t2 [r2 [Hr2 [Hs2 Ht2]]]].
  apply opt_chr_in in H3. destruct H3 as [t3 [r3 [Hr3 [Hs3 Ht3]]]].
  apply opt_chr_in in H. destruct H as [t4 [r4 [Hr4 [Hs4 Ht4]]]].
  subst s1. cbn [m_rest moved] in Hr2. subst s2. cbn [m_rest moved] in Hr3.
  subst s3. cbn [m_rest moved] in Hr4.
  exists (t1 ++ t2 ++ t3 ++ t4), r4. split; [|split].
  - rewrite Hr1, Hr2, Hr3, Hr4. rewrite <- ?app_assoc; reflexivity.
  - rewrite Hs4, !moved_moved. rewrite <- ?app_assoc; reflexivity.
  - rewrite !forallb_app.
    rewrite (spaces_nondecimal t1 Hp1).
    rewrite (opt_tail_nondecimal (ch "r") t2) by (simpl; auto).
    rewrite (opt_tail_nondecimal (ch ".") t3) by (simpl; auto).
    rewrite (opt_tail_nondecimal (ch ",") t4) by (simpl; auto).
    reflexivity.
Qed.

Lemma tail_empty : forall st, In st (runs true DATE_TAIL st).
Proof.
  intros st. unfold DATE_TAIL.
  rewrite runs_cat_cons. apply in_flat_map. exists st. split.
  { cbn [runs]. apply rep_runs_in. exists [], (m_rest st).
    rewrite moved_nil. simpl. auto with arith. }
  rewrite runs_cat_cons. apply in_flat_map. exists st. split.
  { cbn [runs]. apply in_or_app. right. now left. }
  rewrite runs_cat_cons. apply in_flat_map. exists st. split.
  { cbn [runs]. apply in_or_app. right. now left. }
  cbn [cat runs]. apply in_or_app. right. now left.
Qed.

Lemma forallb_hd : forall (p : N -> bool) x,
  forallb p x = true -> x <> [] -> exists c x', x = c :: x' /\ p c = true.
Proof.
  intros p [|c x] H Hn; [contradiction|]. simpl in H.
  apply andb_true_iff in H. destruct H as [Hc _]. eauto.
Qed.

(** Soundness: what a match of the date pattern is made of. *)
Lemma date_sound : forall prev rest st',
  In st' (runs true POLISH_DATE_RE (start prev rest)) ->
  exists d w1 mo w2 y t r,
    rest = d ++ w1 ++ mo ++ w2 ++ y ++ t ++ r
    /\ date_core prev d w1 mo w2 y
    /\ forallb (fun a => negb (isdecimal a)) t = true
    /\ rev (m_taken st') = d ++ w1 ++ mo ++ w2 ++ y ++ t
    /\ m_caps st' = [(3, y); (2, mo); (1, d)].
Proof.
  intros prev rest st' H. unfold POLISH_DATE_RE in H.
  rewrite runs_cat_cons in H. apply in_flat_map in H. destruct H as [s0 [H0 H]].
  rewrite runs_cat_cons in H. apply in_flat_map in H. destruct H as [s1 [H1 H]].
  rewrite runs_cat_cons in H. apply in_flat_map in H. destruct H as [s2 [H2 H]].
  rewrite runs_cat_cons in H. apply in_flat_map in H. destruct H as [s3 [H3 H]].
  rewrite runs_cat_cons in H. apply in_flat_map in H. destruct H as [s4 [H4 H]].
  rewrite runs_cat_cons in H. apply in_flat_map in H. destruct H as [s5 [H5 H]].
  cbn [cat] in H.
  cbn [runs] in H0.
  destruct (xorb (isword_opt (m_prev (start prev rest)))
                 (isword_opt (hd_error (m_rest (start prev rest))))) eqn:Hb;
    [|contradiction].
  destruct H0 as [<-|[]]. cbn [m_prev m_rest start] in Hb.
  apply digit_group_in in H1. destruct H1 as [d [r1 [Hr1 [Hs1 [Hd Hdl]]]]].
  subst s1. cbn [m_rest start] in Hr1.
  apply spaces1_in in H2. destruct H2 as [w1 [r2 [Hr2 [Hs2 [Hw1 Hw1n]]]]].
  subst s2. cbn [m_rest captured] in Hr2.
  apply month_in in H3. destruct H3 as [mo [r3 [Hr3 [Hs3 Hmo]]]].
  subst s3. cbn [m_rest moved] in Hr3.
  apply spaces1_in in H4. destruct H4 as [w2 [r4 [Hr4 [Hs4 [Hw2 Hw2n]]]]].
  subst s4. cbn [m_rest captured] in Hr4.
  unfold digits in H5.
  apply digit_group_in in H5. destruct H5 as [y [r5 [Hr5 [Hs5 [Hy Hyl]]]]].
  subst s5. cbn [m_rest moved] in Hr5.
  apply tail_in in H. destruct H as [t [r [Hr [Hs Ht]]]].
  subst st'. cbn [m_rest captured] in Hr.
  exists d, w1, mo, w2, y, t, r.
  assert (rest = d ++ w1 ++ mo ++ w2 ++ y ++ t ++ r) as Hrest
      by (rewrite Hr1, Hr2, Hr3, Hr4, Hr5, Hr; reflexivity).
  split; [exact Hrest|]. split; [|split; [exact Ht|split]].
  - assert (exists c d', d = c :: d' /\ isdecimal c = true) as [c [d' [Ed Hc]]].
    { apply forallb_hd; auto. intros ->. simpl in Hdl. lia. }
    rewrite Hrest, Ed in Hb. cbn [app hd_error isword_opt] in Hb.
    rewrite (decimal_is_word c Hc) in Hb.
    repeat split; auto.
    + destruct (isword_opt prev); [discriminate|reflexivity].
    + lia.
    + lia.
  - unfold moved, captured, start. cbn [m_taken].
    rewrite !app_nil_r. rewrite !rev_app_distr, !rev_involutive.
    rewrite <- ?app_assoc; reflexivity.
  - reflexivity.
Qed.

(** Completeness: where the text has what the pattern needs, it matches. *)
Lemma date_complete : forall prev d w1 mo w2 y r,
  date_core prev d w1 mo w2 y ->
  runs true POLISH_DATE_RE (start prev (d ++ w1 ++ mo ++ w2 ++ y ++ r)) <> [].
Proof.
  intros prev d w1 mo w2 y r [Hb [Hdl [Hd [Hw1n [Hw1 [Hmo [Hw2n [Hw2 [Hyl Hy]]]]]]]]].
  set (rest := d ++ w1 ++ mo ++ w2 ++ y ++ r).
  set (s1 := captured 1 d (w1 ++ mo ++ w2 ++ y ++ r) (start prev rest)).
  set (s2 := moved w1 (mo ++ w2 ++ y ++ r) s1).
  set (s3 := captured 2 mo (w2 ++ y ++ r) s2).
  set (s4 := moved w2 (y ++ r) s3).
  set (s5 := captured 3 y r s4).
  assert (In s5 (runs true POLISH_DATE_RE (start prev rest))) as Hin.
  { unfold POLISH_DATE_RE.
    rewrite runs_cat_cons. apply in_flat_map. exists (start prev rest). split.
    { cbn [runs m_prev m_rest start].
      assert (exists c d', d = c :: d' /\ isdecimal c = true) as [c [d' [Ed Hc]]].
      { apply forallb_hd; auto. intros ->. simpl in Hdl. lia. }
      unfold rest. rewrite Ed. cbn [app hd_error isword_opt].
      rewrite Hb, (decimal_is_word c Hc). now left. }
    rewrite runs_cat_cons. apply in_flat_map. exists s1. split.
    { apply digit_group_in. exists d, (w1 ++ mo ++ w2 ++ y ++ r).
      repeat split; auto; lia. }
    rewrite runs_cat_cons. apply in_flat_map. exists s2. split.
    { apply spaces1_in. exists w1, (mo ++ w2 ++ y ++ r). repeat split; auto. }
    rewrite runs_cat_cons. apply in_flat_map. exists s3. split.
    { apply month_in. exists mo, (w2 ++ y ++ r). repeat split; auto. }
    rewrite runs_cat_cons. apply in_flat_map. exists s4. split.
    { apply spaces1_in. exists w2, (y ++ r). repeat split; auto. }
    rewrite runs_cat_cons. apply in_flat_map. exists s5. split.
    { unfold digits. apply digit_group_in. exists y, r. repeat split; auto; lia. }
    cbn [cat]. apply tail_empty. }
  intros E. rewrite E in Hin. contradiction.
Qed.

(** The same two facts about the match at a position. *)
Lemma match_sound : forall prev rest m,
  match_here true POLISH_DATE_RE prev rest = Some m ->
  exists d w1 mo w2 y t r,
    rest = d ++ w1 ++ mo ++ w2 ++ y ++ t ++ r
    /\ date_core prev d w1 mo w2 y
    /\ forallb (fun a => negb (isdecimal a)) t = true
    /\ g0 m = d ++ w1 ++ mo ++ w2 ++ y ++ t
    /\ group m 1 = d /\ group m 2 = mo /\ group m 3 = y.
Proof.
  intros prev rest m H. unfold match_here in H.
  destruct (runs true POLISH_DATE_RE (start prev rest)) as [|st' l] eqn:E;
    [discriminate|].
  cbn [hd_error option_map] in H. inversion H; subst m; clear H.
  assert (In st' (runs true POLISH_DATE_RE (start prev rest))) as Hin
      by (rewrite E; now left).
  apply date_sound in Hin.
  destruct Hin as [d [w1 [mo [w2 [y [t [r [Hr [Hc [Ht [Hg Hcaps]]]]]]]]]]].
  exists d, w1, mo, w2, y, t, r.
  unfold to_match, group. cbn [g0 m_groups]. rewrite Hcaps. cbn.
  auto 10.
Qed.

Lemma match_complete : forall prev d w1 mo w2 y r,
  date_core prev d w1 mo w2 y ->
  match_here true POLISH_DATE_RE prev (d ++ w1 ++ mo ++ w2 ++ y ++ r) <> None.
Proof.
  intros prev d w1 mo w2 y r H. unfold match_here.
  pose proof (date_complete prev d w1 mo w2 y r H) as Hn.
  destruct (runs true POLISH_DATE_RE (start prev (d ++ w1 ++ mo ++ w2 ++ y ++ r)));
    [contradiction|discriminate].
Qed.

End DatePattern.

(** *** One step of the substitution *)

Section SubSteps.
Context {U : UnicodeData}.

Local Abbreviation norm_go := (sub_go true POLISH_DATE_RE repl).

Lemma sub_go_skip : forall ic r f A rest prev,
  sub_go ic r f (length A) prev (A ++ rest) = sub_go ic r f 0 (last_opt prev A) rest.
Proof.
  intros ic r f. induction A as [|c A IH]; intros rest prev.
  - reflexivity.
  - cbn [length app sub_go]. rewrite IH. now rewrite last_opt_cons.
Qed.

Lemma step_none : forall prev rest,
  match_here true POLISH_DATE_RE prev rest = None ->
  norm_go 0 prev rest
  = match rest with
    | [] => []
    | c :: tl => c :: norm_go 0 (Some c) tl
    end.
Proof.
  intros prev rest H. destruct rest; cbn [sub_go]; now rewrite H.
Qed.

Lemma match_text_split : forall prev rest m,
  match_here true POLISH_DATE_RE prev rest = Some m ->
  g0 m <> [] /\ exists rest', rest = g0 m ++ rest'.
Proof.
  intros prev rest m H. apply match_sound in H.
  destruct H as [d [w1 [mo [w2 [y [t [r [Hr [Hc [_ [Hg _]]]]]]]]]]].
  destruct Hc as [_ [Hdl _]]. split.
  - rewrite Hg. destruct d; [simpl in Hdl; lia|discriminate].
  - exists r. rewrite Hg, Hr. rewrite <- ?app_assoc; reflexivity.
Qed.

Lemma step_some : forall prev rest m,
  match_here true POLISH_DATE_RE prev rest = Some m ->
  exists rest',
    rest = g0 m ++ rest' /\ g0 m <> []
    /\ norm_go 0 prev rest = repl m ++ norm_go 0 (last_opt prev (g0 m)) rest'.
Proof.
  intros prev rest m H.
  destruct (match_text_split prev rest m H) as [Hn [rest' Hr]].
  exists rest'. split; [exact Hr|]. split; [exact Hn|].
  destruct (g0 m) as [|c A] eqn:Eg; [contradiction|].
  subst rest. cbn [app] in *. cbn [sub_go]. rewrite H, Eg.
  f_equal. replace (length (c :: A) - 1) with (length A) by (simpl; lia).
  rewrite sub_go_skip. now rewrite last_opt_cons.
Qed.

Lemma match_empty : forall prev, match_here true POLISH_DATE_RE prev [] = None.
Proof.
  intros prev. destruct (match_here true POLISH_DATE_RE prev []) eqn:E; auto.
  destruct (match_text_split prev [] p E) as [Hn [rest' Hr]].
  destruct (g0 p); [contradiction|discriminate].
Qed.

Lemma all_pos_app : forall P A B X prev,
  all_pos P prev (A ++ B) X <->
  all_pos P prev A (B ++ X) /\ all_pos P (last_opt prev A) B X.
Proof.
  intros P. induction A as [|c A IH]; intros B X prev.
  - simpl. rewrite last_opt_nil. tauto.
  - cbn [app all_pos]. rewrite IH, last_opt_cons.
    rewrite <- !app_assoc. cbn [app]. tauto.
Qed.

Lemma all_pos_impl : forall (P Q : option N -> Str -> Prop) o X prev,
  (forall p s, P p s -> Q p s) -> all_pos P prev o X -> all_pos Q prev o X.
Proof.
  intros P Q. induction o as [|c o IH]; intros X prev H; simpl; auto.
  intros [H1 H2]. split; auto.
Qed.

(** Where no match would be rewritten, the substitution changes nothing. *)
Lemma norm_go_id : forall n rest prev,
  length rest <= n ->
  all_pos (fun p o => hit p o = false) prev rest [] ->
  norm_go 0 prev rest = rest.
Proof.
  induction n as [|n IH]; intros rest prev Hl Hp.
  - destruct rest; [|simpl in Hl; lia].
    now rewrite (step_none prev [] (match_empty prev)).
  - destruct rest as [|c tl].
    { now rewrite (step_none prev [] (match_empty prev)). }
    destruct (match_here true POLISH_DATE_RE prev (c :: tl)) as [m|] eqn:E.
    + destruct (step_some prev (c :: tl) m E) as [rest' [Hr [Hn Hs]]].
      rewrite Hs.
      assert (hit prev (c :: tl) = false) as Hh.
      { cbn [all_pos] in Hp. destruct Hp as [Hp _]. now rewrite app_nil_r in Hp. }
      unfold hit in Hh. rewrite E in Hh.
      assert (repl m = g0 m) as ->.
      { unfold repl. destruct (dict_get (lower (group m 2)) MONTHS_MAP);
          [discriminate|reflexivity]. }
      rewrite Hr in Hp. apply all_pos_app in Hp. destruct Hp as [_ Hp].
      rewrite IH; [now rewrite <- Hr|..].
      * assert (length (c :: tl) = length (g0 m) + length rest') as Hlen
            by (rewrite Hr at 1; apply length_app).
        destruct (g0 m); [contradiction|]. simpl in Hlen, Hl. lia.
      * exact Hp.
    + rewrite (step_none prev (c :: tl) E). f_equal.
      cbn [all_pos] in Hp. destruct Hp as [_ Hp].
      apply IH; [simpl in Hl; lia|exact Hp].
Qed.

End SubSteps.

(** *** No rewritable match is left in the result *)

Section Idempotence.
Context {U : UnicodeData}.

Local Abbreviation norm_go := (sub_go true POLISH_DATE_RE repl).
Local Abbreviation nohit := (fun (p : option N) (o : Str) => hit p o = false).
Local Abbreviation noday := (fun (p : option N) (o : Str) => day_start p o = false).
Local Abbreviation nocore := (fun (p : option N) (o : Str) => core_start p o = false).

Lemma core_day : forall p o, core_start p o = true -> day_start p o = true.
Proof.
  intros p o. unfold core_start, day_start.
  destruct (negb (isword_opt p)); cbn [andb]; auto.
  destruct o as [|a [|b r]]; auto.
  destruct (isdecimal a); cbn [andb]; auto.
  destruct (isspace b); cbn [orb]; auto.
  destruct (isdecimal b); cbn [andb]; auto.
  destruct r as [|c r]; auto. intros ->. reflexivity.
Qed.

Lemma noday_nocore : forall p o, day_start p o = false -> core_start p o = false.
Proof.
  intros p o H. destruct (core_start p o) eqn:E; auto.
  apply core_day in E. congruence.
Qed.

(** The text of a match begins as [core_start] says. *)
Lemma core_shape : forall p d w1 mo w2 y X,
  date_core p d w1 mo w2 y -> core_start p (d ++ w1 ++ X) = true.
Proof.
  intros p d w1 mo w2 y X [Hb [Hdl [Hd [Hw1n [Hw1 _]]]]].
  unfold core_start. rewrite Hb. cbn [negb andb].
  destruct w1 as [|s w1]; [contradiction|].
  simpl in Hw1. apply andb_true_iff in Hw1. destruct Hw1 as [Hs _].
  destruct d as [|a [|b [|c d]]]; simpl in Hdl; try lia; simpl in Hd.
  - rewrite andb_true_r in Hd. cbn [app]. now rewrite Hd, Hs.
  - apply andb_true_iff in Hd. destruct Hd as [Ha Hd].
    rewrite andb_true_r in Hd. cbn [app]. rewrite Ha, Hd, Hs.
    now rewrite orb_true_r.
Qed.

Lemma hit_core_start : forall p o, hit p o = true -> core_start p o = true.
Proof.
  intros p o H. unfold hit in H.
  destruct (match_here true POLISH_DATE_RE p o) as [m|] eqn:E; [|discriminate].
  apply match_sound in E.
  destruct E as [d [w1 [mo [w2 [y [t [r [Hr [Hc _]]]]]]]]].
  rewrite Hr. apply (core_shape p d w1 mo w2 y _ Hc).
Qed.

Lemma nocore_nohit : forall p o, core_start p o = false -> hit p o = false.
Proof.
  intros p o H. destruct (hit p o) eqn:E; auto.
  apply hit_core_start in E. congruence.
Qed.

(** The values of [MONTHS_MAP] are two digits. *)
Lemma months_two_digits : forall k mm,
  dict_get k MONTHS_MAP = Some mm ->
  exists m1 m2, mm = [m1; m2] /\ isdecimal m1 = true /\ isdecimal m2 = true.
Proof.
  intros k mm. unfold MONTHS_MAP. cbn [dict_get].
  repeat (match goal with
          | |- context [if str_eqb ?a ?b then _ else _] => destruct (str_eqb a b)
          end;
          [intros H; inversion H; eexists; eexists; split; [reflexivity|];
           split; reflexivity|]).
  discriminate.
Qed.

(** What a match is replaced with begins as [day_start] says. *)
Lemma match_day_start : forall p rest m X,
  match_here true POLISH_DATE_RE p rest = Some m ->
  day_start p (repl m ++ X) = true.
Proof.
  intros p rest m X H. apply match_sound in H.
  destruct H as [d [w1 [mo [w2 [y [t [r [Hr [Hc [_ [Hg [H1 [H2 H3]]]]]]]]]]]]].
  unfold repl. rewrite H1, H2, H3.
  destruct (dict_get (lower mo) MONTHS_MAP) as [mm|] eqn:E.
  - destruct Hc as [Hb [Hdl [Hd _]]].
    unfold day_start. rewrite Hb. cbn [negb andb].
    destruct d as [|a [|b [|c d]]]; simpl in Hdl; try lia; simpl in Hd.
    + rewrite andb_true_r in Hd. cbn. now rewrite Hd, !orb_true_r.
    + apply andb_true_iff in Hd. destruct Hd as [Ha Hd].
      rewrite andb_true_r in Hd. cbn. now rewrite Ha, Hd, !orb_true_r.
  - rewrite Hg, <- !app_assoc. apply core_day.
    apply (core_shape p d w1 mo w2 y _ Hc).
Qed.

Lemma digit_prev_noday : forall c o, isdecimal c = true -> day_start (Some c) o = false.
Proof.
  intros c o H. unfold day_start. cbn [isword_opt].
  now rewrite (decimal_is_word c H).
Qed.

Lemma block_noday : forall B,
  forallb (fun a => negb (isdecimal a)) B = true ->
  forall p X, all_pos noday p B X.
Proof.
  induction B as [|c B IH]; intros H p X; simpl; auto.
  simpl in H. apply andb_true_iff in H. destruct H as [Hc HB].
  apply negb_true_iff in Hc. split; [|now apply IH].
  unfold day_start. destruct (B ++ X); rewrite ?Hc; now rewrite andb_false_r.
Qed.

Lemma decimal_not_dot : forall c, isdecimal c = true -> (c =? ch ".")%N = false.
Proof.
  intros c H. destruct (c =? ch ".")%N eqn:E; auto.
  apply N.eqb_eq in E. subst c. discriminate.
Qed.

Lemma year_noday : forall y,
  length y = 4 -> forallb isdecimal y = true ->
  forall p X, all_pos noday p y X.
Proof.
  intros y Hl Hy p X.
  destruct y as [|y0 [|y1 [|y2 [|y3 [|y4 y]]]]]; simpl in Hl; try lia.
  simpl in Hy. rewrite andb_true_r in Hy.
  apply andb_true_iff in Hy. destruct Hy as [H0 Hy].
  apply andb_true_iff in Hy. destruct Hy as [H1 Hy].
  apply andb_true_iff in Hy. destruct Hy as [H2 H3].
  cbn [all_pos app]. repeat split; try now apply digit_prev_noday.
  unfold day_start.
  rewrite H0, H1, (decimal_not_space y1 H1), (decimal_not_space y2 H2),
          (decimal_not_dot y2 H2).
  now rewrite andb_false_r.
Qed.

Lemma month_nondecimal : forall mo,
  month_text mo = true -> forallb (fun a => negb (isdecimal a)) mo = true.
Proof.
  intros mo H. destruct (month_text_chars mo H) as [_ Hc].
  rewrite forallb_forall in *. intros a Ha. specialize (Hc a Ha).
  now apply andb_true_iff in Hc.
Qed.

(** Inside the text of a match, after its first character, nothing begins
    as [day_start] says. *)
Lemma core_noday : forall p d w1 mo w2 y k0 d' X,
  date_core p d w1 mo w2 y -> d = k0 :: d' ->
  all_pos noday (Some k0) (d' ++ w1 ++ mo ++ w2 ++ y) X.
Proof.
  intros p d w1 mo w2 y k0 d' X [Hb [Hdl [Hd [Hw1n [Hw1 [Hmo [Hw2n [Hw2 [Hyl Hy]]]]]]]]] Ed.
  subst d. simpl in Hd. apply andb_true_iff in Hd. destruct Hd as [Hk Hd].
  apply all_pos_app. split.
  { destruct d' as [|b [|c d']]; simpl in Hdl; try lia; simpl; auto.
    split; auto. now apply digit_prev_noday. }
  apply all_pos_app. split; [apply block_noday, spaces_nondecimal, Hw1|].
  apply all_pos_app. split; [apply block_noday, month_nondecimal, Hmo|].
  apply all_pos_app. split; [apply block_noday, spaces_nondecimal, Hw2|].
  now apply year_noday.
Qed.

(** Text of the result in which nothing begins as [day_start] says was
    copied from the input. *)
Lemma walk : forall K rest prev X,
  norm_go 0 prev rest = K ++ X ->
  all_pos noday prev K X ->
  exists rest2, rest = K ++ rest2.
Proof.
  induction K as [|c K IH]; intros rest prev X Hn Hq.
  - now exists rest.
  - cbn [all_pos] in Hq. destruct Hq as [Hd Hq].
    destruct (match_here true POLISH_DATE_RE prev rest) as [m|] eqn:E.
    + destruct (step_some prev rest m E) as [rest' [_ [_ Hs]]].
      rewrite <- Hn, Hs in Hd.
      rewrite (match_day_start prev rest m _ E) in Hd. discriminate.
    + rewrite (step_none prev rest E) in Hn.
      destruct rest as [|c' tl]; [discriminate|].
      cbn [app] in Hn. inversion Hn; subst c'.
      destruct (IH tl (Some c) X H1 Hq) as [rest2 ->].
      now exists rest2.
Qed.

Lemma pair_dot_nocore : forall a b p tl,
  isdecimal b = true -> core_start p (a :: b :: ch "." :: tl) = false.
Proof.
  intros a b p tl Hb. unfold core_start.
  rewrite (decimal_not_space b Hb). change (isspace (ch ".")) with false.
  destruct (negb (isword_opt p)), (isdecimal a), (isdecimal b); reflexivity.
Qed.

Lemma dot_nocore : forall p tl, core_start p (ch "." :: tl) = false.
Proof.
  intros p tl. unfold core_start. destruct tl as [|b tl].
  - now rewrite andb_false_r.
  - change (isdecimal (ch ".")) with false. now rewrite andb_false_r.
Qed.

(** Nothing begins as [core_start] says anywhere in a replacement. *)
Lemma digits_block_nocore : forall a b m1 m2 y p X,
  isdecimal a = true -> isdecimal b = true ->
  isdecimal m1 = true -> isdecimal m2 = true ->
  length y = 4 -> forallb isdecimal y = true ->
  all_pos nocore p ([a; b] ++ py "." ++ [m1; m2] ++ py "." ++ y) X.
Proof.
  intros a b m1 m2 y p X Ha Hb H1 H2 Hl Hy.
  change ([a; b] ++ py "." ++ [m1; m2] ++ py "." ++ y)
    with ([a; b; ch "."; m1; m2; ch "."] ++ y).
  apply all_pos_app. split.
  - cbn [all_pos app]. repeat split.
    + now apply pair_dot_nocore.
    + apply noday_nocore. now apply digit_prev_noday.
    + apply dot_nocore.
    + now apply pair_dot_nocore.
    + apply noday_nocore. now apply digit_prev_noday.
    + apply dot_nocore.
  - apply (all_pos_impl noday nocore); [apply noday_nocore|].
    now apply year_noday.
Qed.

Lemma repl_nocore : forall p0 rest m p X,
  match_here true POLISH_DATE_RE p0 rest = Some m ->
  hit p0 rest = true ->
  all_pos nocore p (repl m) X
  /\ exists c, last_opt p (repl m) = Some c /\ isdecimal c = true.
Proof.
  intros p0 rest m p X H Hh. unfold hit in Hh. rewrite H in Hh.
  apply match_sound in H.
  destruct H as [d [w1 [mo [w2 [y [t [r [Hr [Hc [_ [Hg [H1 [H2 H3]]]]]]]]]]]]].
  unfold repl. rewrite H1, H2, H3. rewrite H2 in Hh.
  destruct (dict_get (lower mo) MONTHS_MAP) as [mm|] eqn:E; [|discriminate].
  destruct (months_two_digits _ _ E) as [m1 [m2 [-> [Hm1 Hm2]]]].
  destruct Hc as [_ [Hdl [Hd [_ [_ [_ [_ [_ [Hyl Hy]]]]]]]]].
  assert (exists a b, zfill2 d = [a; b] /\ isdecimal a = true /\ isdecimal b = true)
    as [a [b [-> [Ha Hb]]]].
  { destruct d as [|a [|b [|c d]]]; simpl in Hdl; try lia; simpl in Hd.
    - rewrite andb_true_r in Hd. exists 0x30%N, a. auto.
    - apply andb_true_iff in Hd. destruct Hd as [Ha Hd].
      rewrite andb_true_r in Hd. exists a, b. auto. }
  split; [now apply digits_block_nocore|].
  destruct y as [|y0 [|y1 [|y2 [|y3 [|y4 y]]]]]; simpl in Hyl; try lia.
  exists y3. split; [reflexivity|].
  simpl in Hy. rewrite andb_true_r in Hy.
  apply andb_true_iff in Hy. destruct Hy as [_ Hy].
  apply andb_true_iff in Hy. destruct Hy as [_ Hy].
  now apply andb_true_iff in Hy.
Qed.

(** Two prefixes that pass a test, each followed by a character that
    fails it, are the same. *)
Lemma span_unique : forall (p : N -> bool) A A' c c' X X',
  A ++ c :: X = A' ++ c' :: X' ->
  forallb p A = true -> forallb p A' = true ->
  p c = false -> p c' = false ->
  A = A' /\ c :: X = c' :: X'.
Proof.
  intros p. induction A as [|a A IH]; intros [|a' A'] c c' X X' E HA HA' Hc Hc'.
  - auto.
  - simpl in E, HA'. inversion E; subst. apply andb_true_iff in HA'.
    destruct HA' as [Ha' _]. congruence.
  - simpl in E, HA. inversion E; subst. apply andb_true_iff in HA.
    destruct HA as [Ha _]. congruence.
  - simpl in E, HA, HA'. inversion E; subst.
    apply andb_true_iff in HA. destruct HA as [_ HA].
    apply andb_true_iff in HA'. destruct HA' as [_ HA'].
    destruct (IH A' c c' X X' H1 HA HA' Hc Hc') as [-> HX]. auto.
Qed.

(** Two matches that begin at the same place have the same month text. *)
Lemma month_unique : forall p d w1 mo w2 y X p' d' w1' mo' w2' y' X',
  date_core p d w1 mo w2 y -> date_core p' d' w1' mo' w2' y' ->
  d ++ w1 ++ mo ++ w2 ++ X = d' ++ w1' ++ mo' ++ w2' ++ X' ->
  mo = mo'.
Proof.
  intros p d w1 mo w2 y X p' d' w1' mo' w2' y' X'
         [_ [_ [Hd [Hw1n [Hw1 [Hmo [Hw2n [Hw2 _]]]]]]]]
         [_ [_ [Hd' [Hw1n' [Hw1' [Hmo' [Hw2n' [Hw2' _]]]]]]]] E.
  destruct (month_text_chars mo Hmo) as [Hmn Hmc].
  destruct (month_text_chars mo' Hmo') as [Hmn' Hmc'].
  destruct w1 as [|s w1]; [contradiction|].
  destruct w1' as [|s' w1']; [contradiction|].
  destruct mo as [|l mo]; [contradiction|].
  destruct mo' as [|l' mo']; [contradiction|].
  destruct w2 as [|s2 w2]; [contradiction|].
  destruct w2' as [|s2' w2']; [contradiction|].
  assert (isspace s = true /\ isspace s' = true
          /\ isspace s2 = true /\ isspace s2' = true) as [Hs [Hs' [Hs2 Hs2']]].
  { simpl in Hw1, Hw1', Hw2, Hw2'.
    apply andb_true_iff in Hw1, Hw1', Hw2, Hw2'. tauto. }
  assert (isspace l = false /\ isspace l' = false) as [Hl Hl'].
  { simpl in Hmc, Hmc'. apply andb_true_iff in Hmc, Hmc'.
    destruct Hmc as [Hmc _], Hmc' as [Hmc' _].
    apply andb_true_iff in Hmc, Hmc'.
    destruct Hmc as [_ Hmc], Hmc' as [_ Hmc'].
    now apply negb_true_iff in Hmc, Hmc'. }
  cbn [app] in E.
  destruct (span_unique isdecimal d d' s s' _ _ E Hd Hd'
              (space_not_decimal s Hs) (space_not_decimal s' Hs')) as [_ E1].
  change (s :: w1 ++ l :: mo ++ s2 :: w2 ++ X)
    with ((s :: w1) ++ l :: mo ++ s2 :: w2 ++ X) in E1.
  change (s' :: w1' ++ l' :: mo' ++ s2' :: w2' ++ X')
    with ((s' :: w1') ++ l' :: mo' ++ s2' :: w2' ++ X') in E1.
  destruct (span_unique isspace _ _ l l' _ _ E1 Hw1 Hw1' Hl Hl') as [_ E2].
  change (l :: mo ++ s2 :: w2 ++ X) with ((l :: mo) ++ s2 :: w2 ++ X) in E2.
  change (l' :: mo' ++ s2' :: w2' ++ X') with ((l' :: mo') ++ s2' :: w2' ++ X') in E2.
  assert (forall m, forallb (fun a => negb (isdecimal a) && negb (isspace a)) m = true ->
                    forallb (fun a => negb (isspace a)) m = true) as Hns.
  { intros m H. rewrite forallb_forall in *. intros a Ha.
    specialize (H a Ha). now apply andb_true_iff in H. }
  destruct (span_unique (fun a => negb (isspace a)) _ _ s2 s2' _ _ E2
              (Hns _ Hmc) (Hns _ Hmc')) as [E3 _].
  - now rewrite Hs2.
  - now rewrite Hs2'.
  - exact E3.
Qed.

(** The result of the substitution has no match left that would be
    rewritten. [prev_o] is the character before the position in the
    result: the one of the input, or the last digit of a replacement. *)
Lemma norm_go_nohit : forall n rest prev prev_o,
  length rest <= n ->
  prev_o = prev \/ (exists c, prev_o = Some c /\ isdecimal c = true) ->
  all_pos nohit prev_o (norm_go 0 prev rest) [].
Proof.
  induction n as [|n IH]; intros rest prev prev_o Hl Hp.
  { destruct rest; [|simpl in Hl; lia].
    rewrite (step_none prev [] (match_empty prev)). exact I. }
  assert (forall o, hit prev_o o = true -> prev_o = prev) as Hsync.
  { intros o Ho. destruct Hp as [Hp|[c [-> Hc]]]; auto.
    apply hit_core_start in Ho. unfold core_start in Ho. cbn [isword_opt] in Ho.
    rewrite (decimal_is_word c Hc) in Ho. discriminate. }
  destruct (match_here true POLISH_DATE_RE prev rest) as [m|] eqn:E.
  - destruct (step_some prev rest m E) as [rest' [Hr [Hn Hs]]].
    assert (length rest' < length rest) as Hlt.
    { assert (length rest = length (g0 m) + length rest') as Hlen
          by (rewrite Hr at 1; apply length_app).
      destruct (g0 m); [contradiction|simpl in Hlen; lia]. }
    rewrite Hs. apply all_pos_app. rewrite app_nil_r.
    destruct (hit prev rest) eqn:Hh.
    + (* a match that is rewritten *)
      destruct (repl_nocore prev rest m prev_o
                  (norm_go 0 (last_opt prev (g0 m)) rest') E Hh) as [Hq [c [Hc Hd]]].
      split.
      * apply (all_pos_impl nocore nohit); [apply nocore_nohit|exact Hq].
      * apply IH; [lia|]. right. eauto.
    + (* a match that is left as it is *)
      assert (repl m = g0 m) as Hrepl.
      { unfold hit in Hh. rewrite E in Hh. unfold repl.
        destruct (dict_get (lower (group m 2)) MONTHS_MAP); [discriminate|reflexivity]. }
      rewrite Hrepl.
      pose proof E as Em. apply match_sound in Em.
      destruct Em as [d [w1 [mo [w2 [y [t [r [Hrest [Hc [Ht [Hg [_ [H2 _]]]]]]]]]]]]].
      assert (exists k0 d', d = k0 :: d') as [k0 [d' Ed]].
      { destruct Hc as [_ [Hdl _]]. destruct d; [simpl in Hdl; lia|eauto]. }
      split.
      * rewrite Hg, Ed. cbn [app all_pos]. split.
        { destruct (hit prev_o _) eqn:Ho; [|reflexivity]. exfalso.
          rewrite (Hsync _ Ho) in Ho. unfold hit in Ho.
          match type of Ho with
          | context [match_here true POLISH_DATE_RE prev ?o] =>
            destruct (match_here true POLISH_DATE_RE prev o) as [m2|] eqn:E2
          end; [|discriminate].
          apply match_sound in E2.
          destruct E2 as [d2 [w12 [mo2 [w22 [y2 [t2 [r2 [Hr2 [Hc2 [_ [_ [_ [H22 _]]]]]]]]]]]]].
          rewrite H22 in Ho.
          assert (mo2 = mo) as Hmo.
          { eapply (month_unique prev d2 w12 mo2 w22 y2 (y2 ++ t2 ++ r2)
                                 prev d w1 mo w2 y _ Hc2 Hc).
            rewrite <- Hr2, Ed. cbn [app]. rewrite <- ?app_assoc. reflexivity. }
          unfold hit in Hh. rewrite E, H2, <- Hmo in Hh.
          destruct (dict_get (lower mo2) MONTHS_MAP); discriminate. }
        { apply (all_pos_impl nocore nohit); [apply nocore_nohit|].
          replace (d' ++ w1 ++ mo ++ w2 ++ y ++ t)
            with ((d' ++ w1 ++ mo ++ w2 ++ y) ++ t)
            by (rewrite <- ?app_assoc; reflexivity).
          apply all_pos_app. split.
          - apply (all_pos_impl noday nocore); [apply noday_nocore|].
            now apply (core_noday prev d w1 mo w2 y).
          - apply (all_pos_impl noday nocore); [apply noday_nocore|].
            now apply block_noday. }
      * apply IH; [lia|]. left.
        destruct Hp as [->|[c [-> Hc']]]; [reflexivity|].
        rewrite Hg, Ed. cbn [app]. now rewrite !last_opt_cons.
  - rewrite (step_none prev rest E).
    destruct rest as [|c tl]; [exact I|].
    cbn [all_pos app]. rewrite app_nil_r. split.
    + destruct (hit prev_o _) eqn:Ho; [|reflexivity]. exfalso.
      rewrite (Hsync _ Ho) in Ho. unfold hit in Ho.
      match type of Ho with
      | context [match_here true POLISH_DATE_RE prev ?o] =>
        destruct (match_here true POLISH_DATE_RE prev o) as [m2|] eqn:E2
      end; [|discriminate].
      apply match_sound in E2.
      destruct E2 as [d2 [w12 [mo2 [w22 [y2 [t2 [r2 [Hr2 [Hc2 _]]]]]]]]].
      assert (exists k0 d', d2 = k0 :: d') as [k0 [d' Ed]].
      { destruct Hc2 as [_ [Hdl _]]. destruct d2; [simpl in Hdl; lia|eauto]. }
      rewrite Ed in Hr2. cbn [app] in Hr2. inversion Hr2; subst k0.
      destruct (walk (d' ++ w12 ++ mo2 ++ w22 ++ y2) tl (Some c) (t2 ++ r2))
        as [rest2 Hrest2].
      * rewrite H1. rewrite <- ?app_assoc. reflexivity.
      * now apply (core_noday prev d2 w12 mo2 w22 y2).
      * apply (match_complete prev d2 w12 mo2 w22 y2 rest2 Hc2).
        rewrite <- E. f_equal. rewrite Ed, Hrest2. cbn [app].
        rewrite <- ?app_assoc. reflexivity.
    + apply IH; [simpl in Hl; lia|now left].
Qed.

End Idempotence.

(** C5. [normalize_polish_dates] is idempotent: applying it to its own
    result changes nothing. *)
Theorem C5_normalize_idempotent :
  forall (U : UnicodeData) (s : Str),
    normalize_polish_dates (normalize_polish_dates s) = normalize_polish_dates s.
Proof.
  intros U s. unfold normalize_polish_dates, re_sub.
  apply (norm_go_id (length (sub_go true POLISH_DATE_RE repl 0 None s))); [lia|].
  apply (norm_go_nohit (length s)); [lia|now left].
Qed.
(** ** Frames: labels, the evidence test and the reshaping *)

Section FrameProps.
Context {U : UnicodeData}.

Lemma str_eqb_refl : forall a, str_eqb a a = true.
Proof. intros a. now apply str_eqb_eq. Qed.

Lemma str_eqb_sym : forall a b, str_eqb a b = str_eqb b a.
Proof.
  intros a b. destruct (str_eqb a b) eqn:E, (str_eqb b a) eqn:E'; auto.
  - apply str_eqb_eq in E. subst. now rewrite str_eqb_refl in E'.
  - apply str_eqb_eq in E'. subst. now rewrite str_eqb_refl in E.
Qed.

Lemma filter_nil_all : forall (A : Type) (p : A -> bool) (l : list A),
  (forall x, In x l -> p x = false) -> filter p l = [].
Proof.
  induction l as [|x l IH]; intros H; [reflexivity|].
  simpl. rewrite (H x) by now left. apply IH. intros y Hy. apply H. now right.
Qed.

(** A label comes at most once among distinct labels. *)
Lemma filter_eqb_nodup : forall l c,
  NoDup l -> length (filter (str_eqb c) l) <= 1.
Proof.
  induction l as [|x l IH]; intros c H; simpl; [lia|].
  inversion H as [|? ? Hx Hl]; subst.
  destruct (str_eqb c x) eqn:E.
  - apply str_eqb_eq in E. subst x.
    rewrite filter_nil_all; [simpl; lia|].
    intros y Hy. destruct (str_eqb c y) eqn:E; [|reflexivity].
    apply str_eqb_eq in E. subst. contradiction.
  - now apply IH.
Qed.

(** What the loop over the cells answers is the test on the cells. *)
Lemma cells_have_period_ok : forall labels cols b,
  cells_have_period labels cols = Ok b ->
  b = existsb (fun col => existsb (fun v => is_period_token (str_of_val v)) (snd col)) cols.
Proof.
  induction cols as [|col rest IH]; intros b H; cbn [cells_have_period existsb] in *.
  - now inversion H.
  - destruct (existsb (fun v => is_period_token (str_of_val v)) (snd col)) eqn:E.
    + destruct (filter (str_eqb (fst col)) labels) as [|? [|? ?]]; now inversion H.
    + cbn [orb].
      destruct (filter (str_eqb (fst col)) labels) as [|? [|? ?]];
        try discriminate; now apply IH.
Qed.

Lemma cells_have_period_nodup : forall labels cols,
  NoDup labels ->
  cells_have_period labels cols
  = Ok (existsb (fun col => existsb (fun v => is_period_token (str_of_val v)) (snd col))
                cols).
Proof.
  intros labels cols Hn. induction cols as [|col rest IH]; [reflexivity|].
  cbn [cells_have_period existsb].
  pose proof (filter_eqb_nodup labels (fst col) Hn) as Hl.
  destruct (filter (str_eqb (fst col)) labels) as [|? [|? ?]];
    try (simpl in Hl; lia);
    destruct (existsb (fun v => is_period_token (str_of_val v)) (snd col));
    auto.
Qed.

Lemma cells_have_period_raises : forall labels cols e,
  cells_have_period labels cols = Raise e -> exists msg, e = ValueError msg.
Proof.
  induction cols as [|col rest IH]; intros e H; cbn [cells_have_period] in H.
  - discriminate.
  - destruct (filter (str_eqb (fst col)) labels) as [|? [|? ?]];
      try (inversion H; eauto; fail);
      destruct (existsb (fun v => is_period_token (str_of_val v)) (snd col));
      try discriminate; now apply IH.
Qed.

(** [table_has_any_period] answers whether a label or a cell is a period
    token; it does answer when the labels are distinct, and what it
    raises is a [ValueError]. *)
Lemma table_has_any_period_ok : forall df b,
  table_has_any_period df = Ok b -> b = period_evidence df.
Proof.
  intros df b. unfold table_has_any_period, period_evidence.
  destruct (existsb is_period_token (df_columns df)).
  - intros H. now inversion H.
  - apply cells_have_period_ok.
Qed.

Lemma table_has_any_period_nodup : forall df,
  NoDup (df_columns df) -> table_has_any_period df = Ok (period_evidence df).
Proof.
  intros df H. unfold table_has_any_period, period_evidence.
  destruct (existsb is_period_token (df_columns df)); [reflexivity|].
  now apply cells_have_period_nodup.
Qed.

Lemma table_has_any_period_raises : forall df e,
  table_has_any_period df = Raise e -> exists msg, e = ValueError msg.
Proof.
  intros df e. unfold table_has_any_period.
  destruct (existsb is_period_token (df_columns df)); [discriminate|].
  apply cells_have_period_raises.
Qed.

(** *** Labels without repeats *)

Lemma nodup_str_in : forall l x, In x (nodup_str l) <-> In x l.
Proof.
  induction l as [|y l IH]; intros x; [tauto|].
  cbn [nodup_str]. split.
  - intros [<-|H]; [now left|]. apply filter_In in H. right. now apply IH.
  - intros [<-|H]; [now left|].
    destruct (str_eqb y x) eqn:E.
    + apply str_eqb_eq in E. now left.
    + right. apply filter_In. split; [now apply IH|]. now rewrite E.
Qed.

Lemma nodup_str_nodup : forall l, NoDup (nodup_str l).
Proof.
  induction l as [|y l IH]; [constructor|].
  cbn [nodup_str]. constructor.
  - intros H. apply filter_In in H. destruct H as [_ H].
    now rewrite str_eqb_refl in H.
  - now apply NoDup_filter.
Qed.

(** *** The columns a label names *)

Lemma columns_named_in : forall frame c col,
  In col (columns_named frame c) <-> In col frame /\ fst col = c.
Proof.
  intros frame c col. unfold columns_named. rewrite filter_In, str_eqb_eq. tauto.
Qed.

Lemma columns_named_none : forall frame c,
  ~ In c (map fst frame) -> columns_named frame c = [].
Proof.
  intros frame c H. apply filter_nil_all. intros col Hc.
  destruct (str_eqb (fst col) c) eqn:E; [|reflexivity].
  apply str_eqb_eq in E. exfalso. apply H. subst c. now apply in_map.
Qed.

Lemma columns_named_one : forall frame c,
  NoDup (map fst frame) -> In c (map fst frame) ->
  exists col, columns_named frame c = [col].
Proof.
  induction frame as [|col0 frame IH]; intros c Hn Hc; [contradiction|].
  cbn [map] in Hn. inversion Hn as [|? ? H0 Hn']; subst.
  unfold columns_named. cbn [filter].
  destruct (str_eqb (fst col0) c) eqn:E.
  - apply str_eqb_eq in E. subst c. exists col0.
    fold (columns_named frame (fst col0)). now rewrite columns_named_none.
  - destruct Hc as [Hc|Hc].
    + subst c. now rewrite str_eqb_refl in E.
    + now apply IH.
Qed.

Lemma drop_named_in : forall frame c col,
  In col (drop_named frame c) <-> In col frame /\ fst col <> c.
Proof.
  intros frame c col. unfold drop_named. rewrite filter_In, negb_true_iff.
  split; intros [H1 H2]; split; auto.
  - intros E. apply str_eqb_eq in E. congruence.
  - destruct (str_eqb (fst col) c) eqn:E; [|reflexivity].
    apply str_eqb_eq in E. contradiction.
Qed.

Lemma map_fst_filter_nodup : forall (p : Str * list pyval -> bool) frame,
  NoDup (map fst frame) -> NoDup (map fst (filter p frame)).
Proof.
  induction frame as [|col frame IH]; intros H; [constructor|].
  cbn [map] in H. inversion H as [|? ? H0 Hn]; subst.
  cbn [filter]. destruct (p col); [|now apply IH].
  cbn [map]. constructor; [|now apply IH].
  intros Hin. apply H0. apply in_map_iff in Hin. destruct Hin as [x [Hx Hin]].
  apply filter_In in Hin. rewrite <- Hx. apply in_map. tauto.
Qed.

Lemma labels_of_named : forall frame c x,
  In x (map fst (columns_named frame c)) -> x = c.
Proof.
  intros frame c x H. apply in_map_iff in H. destruct H as [col [Hx H]].
  apply columns_named_in in H. destruct H as [_ H]. congruence.
Qed.

(** *** The frame cut to the labels named *)

Lemma cut_in : forall df labels col,
  In col (cut df labels) <-> In col df /\ In (fst col) labels.
Proof.
  intros df labels col. unfold cut. rewrite in_flat_map. split.
  - intros [l [Hl H]]. apply columns_named_in in H. destruct H as [H E].
    split; [exact H|]. rewrite E. now apply nodup_str_in.
  - intros [H Hl]. exists (fst col). split; [now apply nodup_str_in|].
    now apply columns_named_in.
Qed.

Lemma flat_map_nodup : forall (g : Str -> list Str) (l : list Str),
  NoDup l -> (forall a, NoDup (g a)) -> (forall a x, In x (g a) -> x = a) ->
  NoDup (flat_map g l).
Proof.
  intros g l Hl Hg Hx. induction Hl as [|a l Ha Hl IH]; [constructor|].
  cbn [flat_map]. apply NoDup_app; auto.
  intros x H1 H2. apply Hx in H1. subst x.
  apply in_flat_map in H2. destruct H2 as [b [Hb H2]].
  apply Hx in H2. subst b. contradiction.
Qed.

Lemma map_flat_map : forall (A B C : Type) (f : B -> C) (g : A -> list B) (l : list A),
  map f (flat_map g l) = flat_map (fun a => map f (g a)) l.
Proof.
  induction l as [|a l IH]; [reflexivity|].
  cbn [flat_map]. now rewrite map_app, IH.
Qed.

Lemma cut_labels_nodup : forall df labels,
  NoDup (df_columns df) -> NoDup (map fst (cut df labels)).
Proof.
  intros df labels H. unfold cut. rewrite map_flat_map.
  apply flat_map_nodup.
  - apply nodup_str_nodup.
  - intros a. now apply map_fst_filter_nodup.
  - intros a x. apply labels_of_named.
Qed.

Lemma cut_labels_in : forall df labels c,
  In c labels -> In c (df_columns df) -> In c (map fst (cut df labels)).
Proof.
  intros df labels c Hl Hc. unfold df_columns in Hc.
  apply in_map_iff in Hc. destruct Hc as [col [E Hc]].
  apply in_map_iff. exists col. split; [exact E|].
  apply cut_in. split; [exact Hc|]. now rewrite E.
Qed.

(** *** Taking the identifier columns out *)

(** What is left when the identifiers are out: the columns that carry
    none of their labels. *)
Lemma pop_ids_kept : forall n a id_vars frame id_data kept,
  pop_ids n a frame id_vars = Ok (id_data, kept) ->
  kept = filter (fun col => negb (mem (fst col) id_vars)) frame.
Proof.
  induction id_vars as [|c rest IH]; intros frame id_data kept H;
    cbn [pop_ids] in H.
  - assert (forall l : DataFrame, l = filter (fun col => negb (mem (fst col) [])) l)
      as Hall
      by (induction l as [|x l IHl];
          [reflexivity
          |change (x :: l = x :: filter (fun col => negb (mem (fst col) [])) l);
           now f_equal]).
    inversion H. apply Hall.
  - destruct (columns_named frame c) as [|col [|? ?]]; try discriminate.
    destruct ((a <? 0)%Z && negb (Nat.eqb n 0)); [discriminate|].
    destruct (pop_ids n a (drop_named frame c) rest) as [[d k]|e] eqn:E;
      [|discriminate].
    inversion H. subst. rewrite (IH _ _ _ E). unfold drop_named.
    clear. induction frame as [|x l IHl]; [reflexivity|].
    cbn [filter mem existsb].
    destruct (str_eqb (fst x) c) eqn:E1; cbn [negb orb andb].
    + exact IHl.
    + cbn [filter]. fold (mem (fst x) rest).
      destruct (mem (fst x) rest); cbn [negb]; now rewrite IHl.
Qed.

(** Identifiers that are distinct, and each the label of one column, come
    out without an exception. *)
Lemma pop_ids_ok : forall n a id_vars frame,
  NoDup id_vars -> NoDup (map fst frame) -> incl id_vars (map fst frame) ->
  (a <? 0)%Z && negb (Nat.eqb n 0) = false ->
  exists id_data kept, pop_ids n a frame id_vars = Ok (id_data, kept).
Proof.
  induction id_vars as [|c rest IH]; intros frame Hi Hf Hin Ha; cbn [pop_ids].
  - eauto.
  - inversion Hi as [|? ? Hc Hr]; subst.
    destruct (columns_named_one frame c Hf (Hin c (or_introl eq_refl))) as [col ->].
    rewrite Ha.
    destruct (IH (drop_named frame c) Hr) as [d [k ->]]; eauto.
    + now apply map_fst_filter_nodup.
    + intros x Hx. specialize (Hin x (or_intror Hx)).
      apply in_map_iff in Hin. destruct Hin as [cx [E Hcx]].
      apply in_map_iff. exists cx. split; [exact E|].
      apply drop_named_in. split; [exact Hcx|]. congruence.
Qed.

(** An identifier named twice makes the loop raise. *)
Lemma pop_ids_twice : forall n a frame c rest,
  exists e, pop_ids n a frame (c :: c :: rest) = Raise e.
Proof.
  intros n a frame c rest. cbn [pop_ids].
  destruct (columns_named frame c) as [|col [|? ?]]; eauto.
  destruct ((a <? 0)%Z && negb (Nat.eqb n 0)); eauto.
  rewrite columns_named_none; eauto.
  intros H. apply in_map_iff in H. destruct H as [x [E H]].
  apply drop_named_in in H. tauto.
Qed.

(** *** The rows of the reshaped frame *)

Lemma stack_in : forall n id_data kept m,
  In m (stack n id_data kept) -> exists col, In col kept /\ var m = fst col.
Proof.
  intros n id_data kept m H. unfold stack in H. apply in_flat_map in H.
  destruct H as [col [Hc H]]. apply in_map_iff in H. destruct H as [i [<- _]].
  eauto.
Qed.

(** The frame [melt] works on holds columns of the table only. *)
Lemma melt_frame_in : forall df (labels : list Str) col,
  In col (match labels with [] => df | _ :: _ => cut df labels end) -> In col df.
Proof.
  intros df [|l labels] col H; [exact H|]. now apply cut_in in H.
Qed.

(** The measure of a melted row is the label of a column that is no
    identifier. *)
Lemma melt_var_in : forall df id_vars value_vars melted m,
  melt df id_vars value_vars = Ok melted -> In m melted ->
  In (var m) (df_columns df) /\ ~ In (var m) id_vars.
Proof.
  intros df id_vars value_vars melted m. unfold melt.
  destruct (mem (py "value") (df_columns df)); [discriminate|].
  destruct (find _ (id_vars ++ value_vars)); [discriminate|].
  match goal with |- context [pop_ids ?n ?a ?f ?i] =>
    destruct (pop_ids n a f i) as [[d k]|e] eqn:E end; [|discriminate].
  intros H Hm. inversion H. subst melted. clear H.
  apply stack_in in Hm. destruct Hm as [col [Hc ->]].
  rewrite (pop_ids_kept _ _ _ _ _ _ E) in Hc. apply filter_In in Hc.
  destruct Hc as [Hc Hn]. split.
  - unfold df_columns. apply in_map. now apply melt_frame_in in Hc.
  - intros Hin. apply mem_In in Hin. rewrite Hin in Hn. discriminate.
Qed.

(** When every column is an identifier, no row comes out. *)
Lemma melt_all_ids : forall df id_vars value_vars melted,
  (forall c, In c (df_columns df) -> In c id_vars) ->
  melt df id_vars value_vars = Ok melted -> melted = [].
Proof.
  intros df id_vars value_vars melted Hall H.
  destruct melted as [|m l]; [reflexivity|].
  destruct (melt_var_in _ _ _ _ m H (or_introl eq_refl)) as [H1 H2].
  exfalso. apply H2. now apply Hall.
Qed.

Lemma melt_frame_nodup : forall df (labels : list Str),
  NoDup (df_columns df) ->
  NoDup (map fst (match labels with [] => df | _ :: _ => cut df labels end)).
Proof.
  intros df [|l labels] H; [exact H|]. now apply cut_labels_nodup.
Qed.

Lemma melt_frame_labels : forall df (labels : list Str) c,
  In c labels -> In c (df_columns df) ->
  In c (map fst (match labels with [] => df | _ :: _ => cut df labels end)).
Proof.
  intros df [|l labels] c Hl Hc; [contradiction|]. now apply cut_labels_in.
Qed.

(** Distinct labels, no column called value, every label named a column
    and the identifiers distinct: then [melt] gives its rows. *)
Lemma melt_ok : forall df id_vars value_vars,
  NoDup (df_columns df) -> ~ In (py "value") (df_columns df) ->
  (forall l, In l (id_vars ++ value_vars) -> In l (df_columns df)) ->
  NoDup id_vars ->
  exists melted, melt df id_vars value_vars = Ok melted.
Proof.
  intros df id_vars value_vars Hn Hv Hl Hi. unfold melt.
  destruct (mem (py "value") (df_columns df)) eqn:E.
  { apply mem_In in E. contradiction. }
  destruct (find (fun l => negb (mem l (df_columns df))) (id_vars ++ value_vars))
    as [l|] eqn:Ef.
  { apply find_some in Ef. destruct Ef as [Hin Hm].
    apply negb_true_iff in Hm. apply Hl, mem_In in Hin. congruence. }
  assert (incl id_vars
            (map fst (match id_vars ++ value_vars with
                      | [] => df
                      | _ :: _ => cut df (id_vars ++ value_vars)
                      end))) as Hincl.
  { intros c Hc. apply melt_frame_labels.
    - apply in_or_app. now left.
    - apply Hl. apply in_or_app. now left. }
  match goal with |- context [pop_ids ?n ?a ?f ?i] =>
    destruct (pop_ids_ok n a i f) as [d [k ->]] end; eauto.
  - now apply melt_frame_nodup.
  - apply andb_false_iff. left. apply Z.ltb_ge.
    pose proof (NoDup_incl_length Hi Hincl) as Hlen.
    rewrite length_map in Hlen. apply Z.le_0_sub. now apply Nat2Z.inj_le.
Qed.

End FrameProps.


(** ** Reading with a fallback of encodings *)

Section ReaderProps.
Variable read_csv : Str -> option Str -> result DataFrame.

Lemma read_with_first : forall path pre enc post df,
  (forall e, In e pre -> exists x, read_csv path (Some e) = Raise x) ->
  read_csv path (Some enc) = Ok df ->
  read_with read_csv (pre ++ enc :: post) path = Ok df.
Proof.
  intros path pre enc post df. induction pre as [|e pre IH]; intros Hpre Hok; simpl.
  - now rewrite Hok.
  - destruct (Hpre e (or_introl eq_refl)) as [x Hx]. rewrite Hx.
    apply IH; auto. intros e' He'. apply Hpre. now right.
Qed.

Lemma read_with_all_fail : forall path encs,
  (forall e, In e encs -> exists x, read_csv path (Some e) = Raise x) ->
  read_with read_csv encs path = read_csv path None.
Proof.
  intros path encs. induction encs as [|e encs IH]; intros H; simpl; auto.
  destruct (H e (or_introl eq_refl)) as [x Hx]. rewrite Hx.
  apply IH. intros e' He'. apply H. now right.
Qed.

Lemma read_with_raise : forall path encs x,
  read_with read_csv encs path = Raise x ->
  (forall e, In e encs -> exists x', read_csv path (Some e) = Raise x')
  /\ read_csv path None = Raise x.
Proof.
  intros path encs x. induction encs as [|e encs IH]; simpl; intros H.
  - split; [intros e []|exact H].
  - destruct (read_csv path (Some e)) as [df|x'] eqn:E; [discriminate|].
    destruct (IH H) as [Hall Hlast]. split; auto.
    intros e' [<-|He']; eauto.
Qed.

End ReaderProps.

(** X1. [read_csv_any] gives the frame of the first encoding, in the order
    utf-8-sig, utf-8, cp1250, iso-8859-2, whose read does not raise; the
    encodings after it are not consulted. When the four reads all raise it
    gives or raises what the read without an encoding does, and it raises
    in no other case. *)
Theorem read_csv_any_first_success :
  forall (read_csv : Str -> option Str -> result DataFrame) (path : Str),
    (forall pre enc post df,
        ENCODINGS = pre ++ enc :: post ->
        (forall e, In e pre -> exists x, read_csv path (Some e) = Raise x) ->
        read_csv path (Some enc) = Ok df ->
        read_csv_any read_csv path = Ok df)
    /\ ((forall e, In e ENCODINGS -> exists x, read_csv path (Some e) = Raise x) ->
        read_csv_any read_csv path = read_csv path None)
    /\ (forall x, read_csv_any read_csv path = Raise x ->
                  (forall e, In e ENCODINGS -> exists x', read_csv path (Some e) = Raise x')
                  /\ read_csv path None = Raise x).
Proof.
  intros read_csv path. unfold read_csv_any. split; [|split].
  - intros pre enc post df E Hpre Hok. rewrite E. now apply read_with_first.
  - apply read_with_all_fail.
  - apply read_with_raise.
Qed.

Lemma read_csv_any_first_success_witness :
  read_csv_any sample_read_csv (py "/dane/a.csv") = Ok sample_wide.
Proof.
  destruct (read_csv_any_first_success sample_read_csv (py "/dane/a.csv")) as [H _].
  apply (H [py "utf-8-sig"; py "utf-8"] (py "cp1250") [py "iso-8859-2"]).
  - reflexivity.
  - intros e [<-|[<-|[]]]; eexists; reflexivity.
  - reflexivity.
Defined.

(** ** Choosing the special columns *)

Section ClassifierProps.
Context {U : UnicodeData}.

Lemma find_app_first : forall (f : Str -> bool) pre c post,
  (forall x, In x pre -> f x = false) -> f c = true ->
  find f (pre ++ c :: post) = Some c.
Proof.
  intros f pre c post. induction pre as [|x pre IH]; intros Hpre Hc; simpl.
  - now rewrite Hc.
  - rewrite (Hpre x (or_introl eq_refl)). apply IH; auto.
    intros y Hy. apply Hpre. now right.
Qed.

Lemma find_none_all : forall (f : Str -> bool) l,
  find f l = None <-> forall x, In x l -> f x = false.
Proof.
  intros f l. split.
  - intros H x Hx. now apply (find_none f l H).
  - induction l as [|y l IH]; intros H; simpl; auto.
    rewrite (H y (or_introl eq_refl)). apply IH. intros x Hx. apply H. now right.
Qed.

Lemma find_special_col_passes : forall columns exact_set patterns,
  find_special_col columns exact_set patterns
  = match find (exact_hit exact_set) columns with
    | Some c => Some c
    | None => find (pattern_hit patterns) columns
    end.
Proof. reflexivity. Qed.

End ClassifierProps.

(** X2. [find_special_col] gives the first column whose normalized name is
    in the exact set, wherever it stands: columns before it that only match
    a pattern do not count. *)
Theorem find_special_col_exact_first :
  forall (U : UnicodeData) (exact_set : list Str) (patterns : list regex)
         (pre post : list Str) (c : Str),
    (forall x, In x pre -> exact_hit exact_set x = false) ->
    exact_hit exact_set c = true ->
    find_special_col (pre ++ c :: post) exact_set patterns = Some c.
Proof.
  intros U exact_set patterns pre post c Hpre Hc.
  rewrite find_special_col_passes.
  now rewrite (find_app_first (exact_hit exact_set) pre c post Hpre Hc).
Qed.

Lemma find_special_col_exact_first_witness :
  find_special_col (U:=latin_only)
    ([py "region sprzedazy"] ++ py "Województwo" :: [py "2024"])
    REGION_NAMES REGION_PATTERNS = Some (py "Województwo").
Proof.
  apply (find_special_col_exact_first latin_only REGION_NAMES REGION_PATTERNS
           [py "region sprzedazy"] [py "2024"] (py "Województwo")).
  - intros x [<-|[]]. vm_compute. reflexivity.
  - vm_compute. reflexivity.
Defined.

(** X3. When no column's normalized name is in the exact set,
    [find_special_col] gives the first column whose normalized name one of
    the patterns matches somewhere. *)
Theorem find_special_col_pattern_fallback :
  forall (U : UnicodeData) (exact_set : list Str) (patterns : list regex)
         (pre post : list Str) (c : Str),
    (forall x, In x (pre ++ c :: post) -> exact_hit exact_set x = false) ->
    (forall x, In x pre -> pattern_hit patterns x = false) ->
    pattern_hit patterns c = true ->
    find_special_col (pre ++ c :: post) exact_set patterns = Some c.
Proof.
  intros U exact_set patterns pre post c Hex Hpre Hc.
  rewrite find_special_col_passes.
  rewrite (proj2 (find_none_all (exact_hit exact_set) _) Hex).
  now apply find_app_first.
Qed.

Lemma find_special_col_pattern_fallback_witness :
  find_special_col (U:=latin_only)
    ([py "2024"] ++ py "Okres sprawozdawczy" :: [py "rok"])
    REGION_NAMES PERIOD_PATTERNS = Some (py "Okres sprawozdawczy").
Proof.
  apply (find_special_col_pattern_fallback latin_only REGION_NAMES PERIOD_PATTERNS
           [py "2024"] [py "rok"] (py "Okres sprawozdawczy")).
  - intros x [<-|[<-|[<-|[]]]]; vm_compute; reflexivity.
  - intros x [<-|[]]. vm_compute. reflexivity.
  - vm_compute. reflexivity.
Defined.

(** X4. What [find_special_col] gives is a column of the table whose
    normalized name is in the exact set or is matched by a pattern, and it
    gives nothing exactly when no column passes either test. *)
Theorem find_special_col_sound :
  forall (U : UnicodeData) (columns exact_set : list Str) (patterns : list regex),
    (forall c, find_special_col columns exact_set patterns = Some c ->
               In c columns
               /\ (exact_hit exact_set c = true \/ pattern_hit patterns c = true))
    /\ (find_special_col columns exact_set patterns = None <->
        forall c, In c columns ->
                  exact_hit exact_set c = false /\ pattern_hit patterns c = false).
Proof.
  intros U columns exact_set patterns. rewrite find_special_col_passes. split.
  - intros c. destruct (find (exact_hit exact_set) columns) as [c'|] eqn:E.
    + intros H. inversion H; subst c'. apply find_some in E. tauto.
    + intros H. apply find_some in H. tauto.
  - destruct (find (exact_hit exact_set) columns) as [c'|] eqn:E.
    + split; [discriminate|]. intros H. apply find_some in E.
      destruct E as [Hin Hc]. destruct (H c' Hin) as [Hf _]. congruence.
    + rewrite find_none_all in E. rewrite find_none_all. split.
      * intros H c Hc. split; auto.
      * intros H c Hc. now apply H.
Qed.

(** ** White space: collapsing and trimming *)

Section SpaceProps.
Context {U : UnicodeData}.

Lemma lstrip_drop_while : forall s, lstrip s = drop_while isspace s.
Proof. induction s as [|c s IH]; simpl; auto. now rewrite IH. Qed.

Lemma take_drop_while : forall p s, take_while p s ++ drop_while p s = s.
Proof.
  intros p. induction s as [|c s IH]; simpl; auto.
  destruct (p c); simpl; [now rewrite IH|reflexivity].
Qed.

Lemma take_while_all : forall p s, forallb p (take_while p s) = true.
Proof.
  intros p. induction s as [|c s IH]; simpl; auto.
  destruct (p c) eqn:E; simpl; [now rewrite E|reflexivity].
Qed.

Lemma drop_while_head : forall p s c t, drop_while p s = c :: t -> p c = false.
Proof.
  intros p. induction s as [|x s IH]; simpl; intros c t H; [discriminate|].
  destruct (p x) eqn:E; [eauto|]. inversion H; subst. exact E.
Qed.

Lemma drop_while_length : forall p s, length (drop_while p s) <= length s.
Proof.
  intros p. induction s as [|c s IH]; simpl; auto.
  destruct (p c); simpl; lia.
Qed.

Lemma moved_nil_eq : forall st r, m_rest st = r -> moved [] r st = st.
Proof. intros st r <-. apply moved_nil. Qed.

(** A greedy repetition reports the longest run first. *)
Lemma rep_runs_hd : forall p hi lo st,
  length (m_rest st) <= hi ->
  lo <= length (take_while p (m_rest st)) ->
  hd_error (rep_runs p lo hi st)
  = Some (moved (take_while p (m_rest st)) (drop_while p (m_rest st)) st).
Proof.
  intros p. induction hi as [|h IH]; intros lo st Hlen Hlo.
  - destruct (m_rest st) as [|c tl] eqn:E; [|simpl in Hlen; lia].
    simpl in Hlo. assert (lo = 0) by lia. subst lo.
    cbn [rep_runs take_while drop_while]. rewrite (moved_nil_eq st [] E).
    reflexivity.
  - cbn [rep_runs]. destruct (m_rest st) as [|c tl] eqn:E.
    + simpl in Hlo. assert (lo = 0) by lia. subst lo.
      cbn [take_while drop_while]. rewrite (moved_nil_eq st [] E). reflexivity.
    + cbn [take_while drop_while] in *. destruct (p c) eqn:Ec.
      * assert (hd_error (rep_runs p (pred lo) h (take c tl st))
                = Some (moved (take_while p tl) (drop_while p tl) (take c tl st)))
          as Hh.
        { apply IH; cbn [take m_rest]; simpl in *; lia. }
        destruct (rep_runs p (pred lo) h (take c tl st)) as [|x l]; [discriminate|].
        cbn in *. rewrite Hh. rewrite take_moved, moved_moved. reflexivity.
      * simpl in Hlo. assert (lo = 0) by lia. subst lo.
        rewrite (moved_nil_eq st (c :: tl) E). reflexivity.
Qed.

Local Abbreviation sp := (fun _ : pymatch => py " ").
Local Abbreviation ws_go := (sub_go false WS_RE sp).

(** What the white-space pattern matches at a position: the whole run of
    white space that starts there. *)
Lemma ws_match : forall prev rest,
  match_here false WS_RE prev rest
  = match take_while isspace rest with
    | [] => None
    | c :: x => Some {| g0 := c :: x; m_groups := [] |}
    end.
Proof.
  intros prev rest. unfold match_here, WS_RE, spaces1. cbn [runs].
  change (atom_match false ASpace) with isspace.
  destruct (take_while isspace rest) as [|c x] eqn:E.
  - rewrite rep_runs_head_fail; [reflexivity|].
    cbn [start m_rest]. destruct rest as [|a tl]; [exact I|].
    simpl in E. destruct (isspace a); [discriminate|reflexivity].
  - rewrite rep_runs_hd.
    + cbn [start m_rest]. rewrite E. unfold to_match, moved. cbn.
      rewrite app_nil_r. f_equal. f_equal.
      change (rev (rev x ++ [c])) with (rev (rev (c :: x))).
      apply rev_involutive.
    + cbn. lia.
    + cbn [start m_rest]. rewrite E. simpl. lia.
Qed.

(** One step of the collapsing. *)
Lemma ws_go_step : forall prev rest,
  ws_go 0 prev rest
  = match rest with
    | [] => []
    | c :: tl =>
      if isspace c
      then 32%N :: ws_go 0 (last_opt prev (take_while isspace rest))
                         (drop_while isspace rest)
      else c :: ws_go 0 (Some c) tl
    end.
Proof.
  intros prev rest. destruct rest as [|c tl]; [reflexivity|].
  cbn [sub_go]. rewrite ws_match. cbn [take_while drop_while].
  destruct (isspace c) eqn:Ec; [|reflexivity].
  cbn [g0].
  replace (length (c :: take_while isspace tl) - 1)
    with (length (take_while isspace tl)) by (simpl; lia).
  change (py " ") with [32%N]. cbn [app]. f_equal.
  rewrite last_opt_cons.
  rewrite <- (sub_go_skip false WS_RE sp (take_while isspace tl)
                (drop_while isspace tl) (Some c)).
  now rewrite take_drop_while.
Qed.

Lemma ws_go_spaced : forall n rest prev,
  length rest <= n -> spaced (ws_go 0 prev rest) = true.
Proof.
  induction n as [|n IH]; intros rest prev Hn.
  - destruct rest; [reflexivity|simpl in Hn; lia].
  - rewrite ws_go_step. destruct rest as [|c tl]; [reflexivity|].
    destruct (isspace c) eqn:Ec.
    + cbn [spaced]. change (isspace 32) with true. cbn [N.eqb Pos.eqb andb].
      assert (length (drop_while isspace (c :: tl)) <= n) as Hl.
      { simpl. rewrite Ec. pose proof (drop_while_length isspace tl).
        simpl in Hn. lia. }
      rewrite (IH _ _ Hl). rewrite andb_true_r.
      rewrite ws_go_step.
      destruct (drop_while isspace (c :: tl)) as [|d tl'] eqn:Ed; [reflexivity|].
      pose proof (drop_while_head _ _ _ _ Ed) as Hd.
      rewrite Hd. cbv iota. now rewrite Hd.
    + cbn [spaced]. rewrite Ec. simpl in Hn. rewrite IH by lia. reflexivity.
Qed.

(** The collapsing goes through a character that is no white space. *)
Lemma ws_go_app : forall n a prev c b,
  length a <= n -> isspace c = false ->
  ws_go 0 prev (a ++ c :: b) = ws_go 0 prev a ++ c :: ws_go 0 (Some c) b.
Proof.
  induction n as [|n IH]; intros a prev c b Hn Hc.
  - destruct a; [|simpl in Hn; lia]. cbn [app].
    rewrite (ws_go_step prev (c :: b)), Hc. reflexivity.
  - destruct a as [|x a].
    + cbn [app]. rewrite (ws_go_step prev (c :: b)), Hc. reflexivity.
    + rewrite (ws_go_step prev ((x :: a) ++ c :: b)), (ws_go_step prev (x :: a)).
      cbn [app]. destruct (isspace x) eqn:Ex.
      * cbn [app]. f_equal.
        assert (take_while isspace (x :: a ++ c :: b) = take_while isspace (x :: a)
                /\ drop_while isspace (x :: a ++ c :: b)
                   = drop_while isspace (x :: a) ++ c :: b) as [Ht Hd].
        { clear -Hc. change (x :: a ++ c :: b) with ((x :: a) ++ c :: b).
          generalize (x :: a). induction l as [|y l [I1 I2]]; simpl.
          - now rewrite Hc.
          - destruct (isspace y); auto. now rewrite I1. }
        rewrite Ht, Hd. apply IH; auto.
        pose proof (drop_while_length isspace a). simpl in *.
        rewrite Ex in *. lia.
      * cbn [app]. f_equal. apply IH; auto. simpl in Hn. lia.
Qed.

Lemma last_app_one : forall (a : Str) l d, last (a ++ [l]) d = l.
Proof.
  induction a as [|x a IH]; intros l d; [reflexivity|].
  cbn [app]. change (last (x :: a ++ [l]) d) with
    (match a ++ [l] with [] => x | _ :: _ => last (a ++ [l]) d end).
  destruct (a ++ [l]) eqn:E; [now destruct a|]. rewrite <- E. apply IH.
Qed.

Lemma trimmed_shape : forall s,
  trimmed s = true ->
  s = [] \/ exists a l, s = a ++ [l] /\ isspace l = false
                        /\ isspace (hd l s) = false.
Proof.
  intros [|c t] H; [now left|]. right.
  unfold trimmed in H. apply andb_true_iff in H. destruct H as [Hc Hl].
  apply negb_true_iff in Hc, Hl.
  destruct (exists_last (l:=c :: t)) as [a [l E]]; [discriminate|].
  exists a, l. rewrite E in Hl. rewrite last_app_one in Hl.
  split; [exact E|]. split; [exact Hl|exact Hc].
Qed.

Lemma trimmed_intro : forall c t a l,
  c :: t = a ++ [l] -> isspace c = false -> isspace l = false ->
  trimmed (c :: t) = true.
Proof.
  intros c t a l E Hc Hl. unfold trimmed. rewrite Hc. rewrite E at 1.
  rewrite last_app_one, Hl. reflexivity.
Qed.

(** Collapsing the white space of a trimmed text leaves it trimmed. *)
Lemma ws_trimmed : forall s,
  trimmed s = true -> trimmed (re_sub false WS_RE sp s) = true.
Proof.
  intros s H. unfold re_sub.
  destruct (trimmed_shape s H) as [->|[a [l [E [Hl Hh]]]]]; [reflexivity|].
  rewrite E. rewrite (ws_go_app (length a) a None l [] (le_n _) Hl).
  rewrite (ws_go_step (Some l) []).
  destruct a as [|x a].
  - cbn [app]. rewrite ws_go_step. cbn [app]. unfold trimmed. cbn. now rewrite Hl.
  - rewrite E in Hh. cbn [app hd] in Hh.
    rewrite ws_go_step, Hh. cbn [app].
    eapply trimmed_intro; [|exact Hh|exact Hl].
    rewrite app_comm_cons. reflexivity.
Qed.

Lemma strip_trimmed : forall s, trimmed (strip s) = true.
Proof.
  intros s. unfold strip. destruct (lstrip s) as [|c t] eqn:E; [reflexivity|].
  pose proof (lstrip_head s c t E) as Hc.
  destruct (rstrip_keeps_head c t Hc) as [t' Ht]. rewrite Ht.
  unfold rstrip in Ht.
  destruct (lstrip (rev (c :: t))) as [|y ys] eqn:Ey.
  - discriminate.
  - pose proof (lstrip_head _ _ _ Ey) as Hy. cbn [rev] in Ht.
    eapply trimmed_intro; [symmetry; exact Ht|exact Hc|exact Hy].
Qed.

Lemma trimmed_strip : forall s, trimmed s = true -> strip s = s.
Proof.
  intros s H. destruct (trimmed_shape s H) as [->|[a [l [E [Hl Hh]]]]]; [reflexivity|].
  unfold strip. destruct s as [|c t]; [reflexivity|]. cbn [hd] in Hh.
  rewrite (lstrip_nonspace_head c t Hh). unfold rstrip. rewrite E.
  rewrite rev_app_distr. cbn [rev app].
  rewrite (lstrip_nonspace_head l (rev a) Hl).
  cbn [rev]. now rewrite rev_involutive.
Qed.

Lemma spaced_suffix : forall a b, spaced (a ++ b) = true -> spaced b = true.
Proof.
  induction a as [|c a IH]; intros b H; [exact H|].
  cbn [app spaced] in H. apply andb_true_iff in H. destruct H as [_ H]. auto.
Qed.

Lemma spaced_prefix : forall a b, spaced (a ++ b) = true -> spaced a = true.
Proof.
  induction a as [|c a IH]; intros b H; [reflexivity|].
  cbn [app spaced] in *. apply andb_true_iff in H. destruct H as [Hc H].
  rewrite (IH b H), andb_true_r.
  destruct (isspace c); [|reflexivity].
  apply andb_true_iff in Hc. destruct Hc as [Hc Hn]. rewrite Hc.
  destruct a as [|d a]; [reflexivity|exact Hn].
Qed.

Lemma spaced_strip : forall s, spaced s = true -> spaced (strip s) = true.
Proof.
  intros s H. destruct (strip_split s) as [l [r [E _]]].
  rewrite E in H. apply spaced_suffix in H. now apply spaced_prefix in H.
Qed.

Lemma no_space_tidy : forall s, no_space s = true -> tidy s = true.
Proof.
  intros s H. unfold tidy. apply andb_true_iff. split.
  - induction s as [|c s IH]; [reflexivity|].
    simpl in H. apply andb_true_iff in H. destruct H as [Hc H].
    apply negb_true_iff in Hc. cbn [spaced]. rewrite Hc. now rewrite IH.
  - rewrite <- (strip_no_space s H). apply strip_trimmed.
Qed.

Lemma norm_tidy : forall s, tidy (norm s) = true.
Proof.
  intros s. unfold tidy, norm. apply andb_true_iff. split.
  - unfold re_sub. now apply (ws_go_spaced _ _ _ (le_n _)).
  - apply ws_trimmed, strip_trimmed.
Qed.

Lemma clean_cell_tidy : forall v, tidy (clean_cell v) = true.
Proof.
  intros v. unfold tidy, clean_cell. apply andb_true_iff. split.
  - apply spaced_strip. unfold re_sub. now apply (ws_go_spaced _ _ _ (le_n _)).
  - apply strip_trimmed.
Qed.

End SpaceProps.

(** X5. What [norm] gives is trimmed and has its white space collapsed: no
    white space at either end, and every white-space character in it is a
    single space followed by a character that is no white space. *)
Theorem norm_is_tidy :
  forall (U : UnicodeData) (s : Str),
    spaced (norm s) = true /\ trimmed (norm s) = true /\ strip (norm s) = norm s.
Proof.
  intros U s. pose proof (norm_tidy s) as H. unfold tidy in H.
  apply andb_true_iff in H. destruct H as [H1 H2].
  split; [exact H1|]. split; [exact H2|]. now apply trimmed_strip.
Qed.

(** ** Dash cells *)

Section DashProps.
Context {U : UnicodeData}.

Local Abbreviation brak := (fun _ : pymatch => py "brak danych").

(** After the longest run, a greedy repetition tries the shorter ones, and
    each of them stops before a character of the run. *)
Lemma rep_runs_others : forall p hi lo st h tl,
  rep_runs p lo hi st = h :: tl ->
  forall st', In st' tl -> exists c r, m_rest st' = c :: r /\ p c = true.
Proof.
  intros p. induction hi as [|n IH]; intros lo st h tl E st' Hin.
  - cbn [rep_runs] in E. destruct lo; cbn in E; [|discriminate].
    inversion E; subst. destruct Hin.
  - cbn [rep_runs] in E. destruct (m_rest st) as [|c r] eqn:Er.
    + destruct lo; cbn in E; [|discriminate]. inversion E; subst. destruct Hin.
    + destruct (p c) eqn:Ec.
      * destruct (rep_runs p (pred lo) n (take c r st)) as [|h' tl'] eqn:E'.
        { destruct lo; cbn in E; [|discriminate]. inversion E; subst. destruct Hin. }
        cbn [app] in E. inversion E; subst h tl.
        apply in_app_or in Hin. destruct Hin as [Hin|Hin].
        -- exact (IH _ _ _ _ E' st' Hin).
        -- destruct lo; [|destruct Hin]. destruct Hin as [<-|[]]. eauto.
      * destruct lo; cbn in E; [|discriminate]. inversion E; subst. destruct Hin.
Qed.

Lemma hd_flat_map : forall (f : mstate -> list mstate) h tl,
  (f h <> [] \/ forall x, In x tl -> f x = []) ->
  hd_error (flat_map f (h :: tl)) = hd_error (f h).
Proof.
  intros f h tl H. cbn [flat_map]. destruct (f h) as [|y ys] eqn:E; [|reflexivity].
  destruct H as [H|H]; [congruence|]. cbn [app].
  now rewrite (flat_map_nil f tl H).
Qed.

Lemma dash_not_white : forall c,
  existsb (N.eqb c) (py "-–—") = true -> isspace c = false.
Proof.
  intros c H. cbn in H.
  repeat (apply orb_true_iff in H; destruct H as [H|H];
          [apply N.eqb_eq in H; subst c; reflexivity|]).
  discriminate.
Qed.

Lemma take_while_forall : forall p s, forallb p s = true -> take_while p s = s.
Proof.
  intros p. induction s as [|c s IH]; simpl; auto. intros H.
  apply andb_true_iff in H. destruct H as [Hc H]. rewrite Hc. now rewrite IH.
Qed.

Lemma drop_while_forall : forall p s, forallb p s = true -> drop_while p s = [].
Proof.
  intros p. induction s as [|c s IH]; simpl; auto. intros H.
  apply andb_true_iff in H. destruct H as [Hc H]. rewrite Hc. now apply IH.
Qed.

Lemma drop_while_nil_forall : forall p s, drop_while p s = [] -> forallb p s = true.
Proof.
  intros p. induction s as [|c s IH]; simpl; auto.
  destruct (p c); [auto|discriminate].
Qed.

(** The end of the pattern, [\s*$], after a position: it matches when
    only white space is left, and then takes all of it. *)
Lemma spaces_eol : forall st,
  hd_error (runs false (cat [Rep ASpace 0 None; Eol]) st)
  = if forallb isspace (m_rest st)
    then Some (moved (m_rest st) [] st) else None.
Proof.
  intros st. cbn [cat runs]. change (atom_match false ASpace) with isspace.
  pose proof (rep_runs_hd isspace (length (m_rest st)) 0 st (le_n _) (Nat.le_0_l _))
    as Hh.
  destruct (rep_runs isspace 0 (length (m_rest st)) st) as [|h tl] eqn:E;
    [discriminate|].
  cbn [hd_error] in Hh. inversion Hh as [Hh']. clear Hh.
  pose proof (rep_runs_others _ _ _ _ _ _ E) as Htl.
  subst h. rewrite hd_flat_map.
  - cbn [runs moved m_rest].
    destruct (drop_while isspace (m_rest st)) as [|c r] eqn:Ed.
    + rewrite (drop_while_nil_forall _ _ Ed).
      rewrite (take_while_forall _ _ (drop_while_nil_forall _ _ Ed)).
      reflexivity.
    + pose proof (drop_while_head _ _ _ _ Ed) as Hc.
      assert (forallb isspace (m_rest st) = false) as Hf.
      { destruct (forallb isspace (m_rest st)) eqn:F; auto.
        rewrite (drop_while_forall _ _ F) in Ed. discriminate. }
      rewrite Hf. destruct r; [|reflexivity].
      destruct (c =? 10)%N eqn:E10; [|reflexivity].
      apply N.eqb_eq in E10. subst c. discriminate Hc.
  - cbn [runs moved m_rest].
    destruct (drop_while isspace (m_rest st)) as [|c r] eqn:Ed.
    + left. discriminate.
    + right. intros x Hx. destruct (Htl x Hx) as [a [r' [Ex Ha]]].
      cbn [runs]. rewrite Ex. destruct r' as [|b r'']; [|reflexivity].
      destruct (a =? 10)%N eqn:E10; [|reflexivity]. exfalso.
      (* the text would be white space to its end *)
      destruct (proj1 (rep_runs_in isspace (length (m_rest st)) 0 st x))
        as [y [ry [Ey [Hx' [Hy _]]]]].
      { rewrite E. now right. }
      subst x. cbn [moved m_rest] in Ex. subst ry.
      assert (forallb isspace (m_rest st) = true) as F.
      { rewrite Ey. rewrite forallb_app, Hy. simpl. now rewrite Ha. }
      rewrite (drop_while_forall _ _ F) in Ed. discriminate.
Qed.

(** The dash pattern at the start of a cell. *)
Lemma dash_match : forall s,
  match_here false DASH_RE None s
  = if dash_cell s then Some {| g0 := s; m_groups := [] |} else None.
Proof.
  intros s. unfold match_here, DASH_RE.
  rewrite runs_cat_cons. cbn [runs start m_prev flat_map]. rewrite app_nil_r.
  rewrite runs_cat_cons. cbn [runs m_rest]. change (atom_match false ASpace) with isspace.
  set (st0 := start None s). change (m_rest st0) with s.
  pose proof (rep_runs_hd isspace (length s) 0 st0 (le_n _) (Nat.le_0_l _)) as Hh.
  destruct (rep_runs isspace 0 (length s) st0) as [|h tl] eqn:E; [discriminate|].
  cbn [hd_error] in Hh. inversion Hh as [Hh']. clear Hh.
  pose proof (rep_runs_others _ _ _ _ _ _ E) as Htl.
  subst h. rewrite hd_flat_map.
  2: { right. intros x Hx. destruct (Htl x Hx) as [a [r [Ex Ha]]].
       rewrite runs_cat_cons. cbn [runs]. rewrite Ex. cbn [atom_match].
       destruct (existsb (N.eqb a) (py "-–—")) eqn:Ed; [|reflexivity].
       rewrite (dash_not_white a Ed) in Ha. discriminate. }
  change (m_rest st0) with s. unfold dash_cell.
  rewrite runs_cat_cons. cbn [runs moved m_rest atom_match].
  destruct (drop_while isspace s) as [|c r] eqn:Ed; [reflexivity|].
  destruct (existsb (N.eqb c) (py "-–—")) eqn:Ec; [|reflexivity].
  cbn [flat_map andb]. rewrite app_nil_r. rewrite spaces_eol.
  cbn [take m_rest]. destruct (forallb isspace r) eqn:Er; [|reflexivity].
  cbn [option_map]. f_equal. unfold to_match, moved, take. cbn.
  f_equal. rewrite app_nil_r. rewrite rev_app_distr, rev_involutive.
  cbn [rev]. rewrite rev_involutive. rewrite <- app_assoc. cbn [app].
  rewrite <- Ed. apply take_drop_while.
Qed.

Lemma bol_later : forall ic r l c rest,
  match_here ic (cat (Bol :: r :: l)) (Some c) rest = None.
Proof. intros. unfold match_here. rewrite runs_cat_cons. reflexivity. Qed.

Lemma sub_go_anchored : forall ic r f,
  (forall c rest, match_here ic r (Some c) rest = None) ->
  forall rest c, sub_go ic r f 0 (Some c) rest = rest.
Proof.
  intros ic r f H. induction rest as [|x rest IH]; intros c.
  - cbn [sub_go]. now rewrite H.
  - cbn [sub_go]. rewrite H. now rewrite IH.
Qed.

Lemma dash_cell_nonempty : forall s, dash_cell s = true -> s <> [].
Proof. intros [|c s]; [discriminate|discriminate]. Qed.

Lemma dash_sub : forall s,
  re_sub false DASH_RE brak s = if dash_cell s then py "brak danych" else s.
Proof.
  intros s. unfold re_sub.
  assert (forall c rest, match_here false DASH_RE (Some c) rest = None) as Hb.
  { intros c rest. apply bol_later. }
  destruct s as [|c tl]; [reflexivity|].
  cbn [sub_go]. rewrite dash_match.
  destruct (dash_cell (c :: tl)) eqn:Ed.
  - cbn [g0]. replace (length (c :: tl) - 1) with (length tl) by (simpl; lia).
    pose proof (sub_go_skip false DASH_RE brak tl [] (Some c)) as Hs.
    rewrite app_nil_r in Hs. rewrite Hs.
    assert (exists d, last_opt (Some c) tl = Some d) as [d ->].
    { unfold last_opt. destruct (rev tl); eauto. }
    cbn [sub_go]. rewrite Hb. now rewrite app_nil_r.
  - now rewrite (sub_go_anchored false DASH_RE brak Hb).
Qed.

End DashProps.

(** X6. Step 1: a text cell that holds one dash (hyphen, en dash or em
    dash) and white space only becomes "brak danych"; every other cell is
    left as it is. *)
Theorem replace_dashes_cells :
  forall (U : UnicodeData) (df : DataFrame),
    replace_dashes df
    = map (fun col =>
             (fst col,
              map (fun v => match v with
                            | VStr s => if dash_cell s then VStr (py "brak danych")
                                        else VStr s
                            | _ => v
                            end) (snd col))) df.
Proof.
  intros U df. unfold replace_dashes. apply map_ext. intros col. f_equal.
  apply map_ext. intros [| |f|z|b|s]; try reflexivity.
  rewrite dash_sub. now destruct (dash_cell s).
Qed.

(** ** Period tokens and their year *)

Section TokenYear.
Context {U : UnicodeData}.

Lemma four_digits_has : forall t,
  four_digits t <> None -> has_four_digits t.
Proof.
  intros t H. destruct (four_digits t) as [y|] eqn:E; [|congruence].
  apply four_digits_some in E.
  destruct E as [a [b [c [d [post [Ht [_ Hd]]]]]]].
  exists [], a, b, c, d, post. split; [exact Ht|exact Hd].
Qed.

Lemma has_four_digits_app : forall pre t,
  has_four_digits t -> has_four_digits (pre ++ t).
Proof.
  intros pre t [p [a [b [c [d [post [E Hd]]]]]]].
  exists (pre ++ p), a, b, c, d, post. split; [|exact Hd].
  rewrite E. now rewrite <- app_assoc.
Qed.

Lemma has_four_digits_dec : forall t, has_four_digits t \/ ~ has_four_digits t.
Proof.
  intros t. destruct (first_from (fun _ => four_digits) None t) eqn:E.
  - left. now apply first_four_some in E.
  - right. now apply first_four_none in E.
Qed.

(** Where the date pattern matches there are four digits in a row, so a
    text without such a run is left as it is. *)
Lemma normalize_without_year : forall t,
  ~ has_four_digits t -> normalize_polish_dates t = t.
Proof.
  intros t H. unfold normalize_polish_dates, re_sub. apply sub_go_id.
  intros pre suf p E.
  destruct (match_here true POLISH_DATE_RE p suf) as [m|] eqn:Em; [|reflexivity].
  exfalso. apply H. rewrite E. apply has_four_digits_app.
  destruct (match_sound p suf m Em)
    as [d [w1 [mo [w2 [y [t' [r [Es [Hcore _]]]]]]]]].
  destruct Hcore as [_ [_ [_ [_ [_ [_ [_ [_ [Hlen Hy]]]]]]]]].
  destruct y as [|a [|b [|c [|e [|]]]]]; try discriminate Hlen.
  simpl in Hy. repeat (apply andb_true_iff in Hy; destruct Hy as [? Hy]).
  exists (d ++ w1 ++ mo ++ w2), a, b, c, e, (t' ++ r).
  split; [|auto]. rewrite Es. rewrite <- !app_assoc. reflexivity.
Qed.

Local Opaque isdecimal.
Local Arguments N.eqb : simpl never.

Ltac tests :=
  cbn; try (intros H; discriminate H);
  repeat (match goal with
          | E : isdecimal ?c = _ |- context [isdecimal ?c] => rewrite E
          | E : N.eqb ?c ?k = _ |- context [N.eqb ?c ?k] => rewrite E
          | |- context [isdecimal ?c] => destruct (isdecimal c) eqn:?
          | |- context [N.eqb ?c ?k] => destruct (N.eqb c k) eqn:?
          end; cbn; try (intros H; discriminate H)).

Ltac lead4 t :=
  unfold matches, re_match, match_here, four_digits;
  destruct t as [|a [|b [|c [|d tl]]]]; cbn; try (intros H; discriminate H);
  destruct (isdecimal a); cbn; try (intros H; discriminate H);
  destruct (isdecimal b); cbn; try (intros H; discriminate H);
  destruct (isdecimal c); cbn; try (intros H; discriminate H);
  destruct (isdecimal d); cbn; try (intros H; discriminate H);
  intros _; discriminate.

Lemma quarter_leads : forall t,
  matches true PERIOD_Q_RE t = true -> four_digits t <> None.
Proof. intros t. lead4 t. Qed.

Lemma iso_leads : forall t,
  matches false PERIOD_ISO_RE t = true -> four_digits t <> None.
Proof. intros t. lead4 t. Qed.

Lemma year_only_leads : forall t,
  matches false YEAR_ONLY_RE t = true -> four_digits t <> None.
Proof. intros t. lead4 t. Qed.

Lemma dotted_has_year : forall t,
  matches false PERIOD_PL_RE t = true -> has_four_digits t.
Proof.
  intros t H.
  assert (four_digits (skipn 6 t) <> None) as H4.
  { revert H. unfold matches, re_match, match_here, four_digits.
    destruct t as [|a1 [|a2 [|a3 [|a4 [|a5 [|a6 [|b1 [|b2 [|b3 [|b4 t]]]]]]]]]].
    all: tests.
    all: intros _; discriminate. }
  apply four_digits_has in H4.
  rewrite <- (firstn_skipn 6 t). now apply has_four_digits_app.
Qed.

Lemma token_has_year : forall s,
  is_period_token s = true -> has_four_digits (strip s).
Proof.
  intros s. unfold is_period_token. cbv zeta.
  set (t := strip s). intros H.
  apply orb_true_iff in H. destruct H as [H|H].
  2: { apply four_digits_has. now apply year_only_leads. }
  apply orb_true_iff in H. destruct H as [H|H].
  2: { apply dotted_has_year in H.
       destruct (has_four_digits_dec t) as [Ht|Ht]; auto.
       now rewrite (normalize_without_year t Ht) in H. }
  apply orb_true_iff in H. destruct H as [H|H].
  - apply four_digits_has. now apply quarter_leads.
  - apply four_digits_has. now apply iso_leads.
Qed.

End TokenYear.

(** X7. Every period token has a year: whenever [is_period_token] accepts
    a text, [period_year] extracts a year from it. *)
Theorem period_token_has_year :
  forall (U : UnicodeData) (s : Str),
    is_period_token s = true -> exists y, period_year s = Some y.
Proof.
  intros U s H. destruct (period_year s) as [y|] eqn:E; [now exists y|].
  exfalso. apply period_year_none_iff in E. apply E. now apply token_has_year.
Qed.

Lemma period_token_has_year_witness :
  exists y, period_year (U:=latin_only) (py " 7 Marca 2024 r. ") = Some y.
Proof.
  apply (period_token_has_year latin_only (py " 7 Marca 2024 r. ")).
  vm_compute. reflexivity.
Defined.

(** X8. [normalize_polish_dates] leaves a text that has no run of four
    decimal digits as it is. *)
Theorem normalize_needs_year :
  forall (U : UnicodeData) (t : Str),
    ~ has_four_digits t -> normalize_polish_dates t = t.
Proof. intros U t. apply normalize_without_year. Qed.

Lemma normalize_needs_year_witness :
  normalize_polish_dates (U:=latin_only) (py "1 marca") = py "1 marca".
Proof.
  apply (normalize_needs_year latin_only (py "1 marca")).
  apply (first_four_none (U:=latin_only) (py "1 marca") None). reflexivity.
Defined.

(** ** One file, stage by stage *)

Section FileProps.
Context {U : UnicodeData}.
Variable read_csv_any : Str -> result DataFrame.

(** [process_file] as the composition of its stages. *)
Lemma outcome_stages : forall path,
  outcome read_csv_any path
  = match read_csv_any path with
    | Raise e => Raise e
    | Ok df0 =>
      match table_has_any_period (prepared df0) with
      | Raise e => Raise e
      | Ok _ =>
        match melt (prepared df0) (id_vars_in (prepared df0))
                   (value_vars_in (prepared df0)) with
        | Raise e => Raise e
        | Ok melted => Ok (year_filter (long_of path (prepared df0) melted))
        end
      end
    end.
Proof.
  intros path. unfold outcome, process_file, bind, lift.
  destruct (read_csv_any path) as [df|e]; cbn [snd fst]; [|reflexivity].
  change (replace_dashes (map (fun col => (strip (fst col), snd col)) df))
    with (prepared df).
  destruct (table_has_any_period (prepared df)) as [b|e] eqn:Eb; cbn [snd fst];
    [|reflexivity].
  apply table_has_any_period_ok in Eb. subst b.
  change (find_special_col (df_columns (prepared df)) REGION_NAMES REGION_PATTERNS)
    with (region_col_of (prepared df)).
  change (find_special_col (df_columns (prepared df)) PERIOD_NAMES PERIOD_PATTERNS)
    with (period_col_of (prepared df)).
  change (find (fun c => str_eqb (norm c) (py "typ")) (df_columns (prepared df)))
    with (typ_col_of (prepared df)).
  change (id_vars_of (region_col_of (prepared df)) (period_col_of (prepared df))
            (typ_col_of (prepared df))) with (id_vars_in (prepared df)).
  change (value_vars_of (df_columns (prepared df)) (region_col_of (prepared df))
            (period_col_of (prepared df)) (typ_col_of (prepared df)))
    with (value_vars_in (prepared df)).
  destruct (melt (prepared df) (id_vars_in (prepared df)) (value_vars_in (prepared df)))
    as [m|e]; cbn [snd fst]; [|reflexivity].
  rewrite !map_map.
  change (map (fun x => clean_row (splitext_root (basename path))
                          (backfill (to_long (id_vars_in (prepared df))
                                       (region_col_of (prepared df))
                                       (period_col_of (prepared df))
                                       (typ_col_of (prepared df)) x))) m)
    with (map (row_of path (prepared df)) m).
  change (period_policy (period_evidence (prepared df))
            (map (row_of path (prepared df)) m))
    with (long_of path (prepared df) m).
  destruct (year_filter (long_of path (prepared df) m)); reflexivity.
Qed.

Lemma outcome_rows : forall path rows,
  outcome read_csv_any path = Ok rows ->
  exists df0 melted,
    read_csv_any path = Ok df0
    /\ melt (prepared df0) (id_vars_in (prepared df0)) (value_vars_in (prepared df0))
       = Ok melted
    /\ rows = year_filter (long_of path (prepared df0) melted).
Proof.
  intros path rows. rewrite outcome_stages.
  destruct (read_csv_any path) as [df0|e]; [|discriminate].
  destruct (table_has_any_period (prepared df0)) as [b|e]; [|discriminate].
  destruct (melt _ _ _) as [melted|e] eqn:E; [|discriminate].
  intros H. inversion H. eauto.
Qed.

End FileProps.

(** ** The rows of one file *)

Section RowProps.
Context {U : UnicodeData}.

Lemma fill_default_cases : forall d x,
  fill_default d x = x
  \/ (period x = [] /\ fill_default d x = set_period (str_of_Z d) x).
Proof.
  intros d x. unfold fill_default. destruct (period x); auto.
Qed.

(** A row after step 8 is a row of step 7 whose period is as it was, or is
    "2025", or is a year written out. *)
Lemma long_of_in : forall path df melted r,
  In r (long_of path df melted) ->
  exists m, In m melted
    /\ dataset r = dataset (row_of path df m)
    /\ measure r = measure (row_of path df m)
    /\ value r = value (row_of path df m)
    /\ region r = region (row_of path df m)
    /\ typ r = typ (row_of path df m)
    /\ (period r = period (row_of path df m)
        \/ period r = py "2025"
        \/ exists d, period r = str_of_Z d).
Proof.
  intros path df melted r. unfold long_of, period_policy.
  intros H. apply in_map_iff in H. destruct H as [x [<- Hx]].
  assert (exists m, In m melted
            /\ (x = row_of path df m \/ x = set_period (py "2025") (row_of path df m)))
    as [m [Hm Hxm]].
  { destruct (period_evidence df).
    - apply in_map_iff in Hx. destruct Hx as [m [<- Hm]]. eauto.
    - apply in_map_iff in Hx. destruct Hx as [y [<- Hy]].
      apply in_map_iff in Hy. destruct Hy as [m [<- Hm]]. eauto. }
  exists m. split; [exact Hm|].
  match goal with |- context [fill_default ?d x] =>
    destruct (fill_default_cases d x) as [->|[_ ->]] end;
    destruct Hxm as [->| ->]; cbn; repeat split; eauto.
Qed.

Lemma tidy_2025 : tidy (py "2025") = true.
Proof. reflexivity. Qed.

Lemma row_of_fields : forall path df m,
  dataset (row_of path df m) = splitext_root (basename path)
  /\ tidy (measure (row_of path df m)) = true
  /\ tidy (value (row_of path df m)) = true
  /\ tidy (region (row_of path df m)) = true
  /\ tidy (period (row_of path df m)) = true
  /\ tidy (typ (row_of path df m)) = true.
Proof.
  intros path df m. unfold row_of, clean_row. cbn.
  repeat split; apply clean_cell_tidy.
Qed.

Variable read_csv_any : Str -> result DataFrame.

Lemma outcome_row : forall path rows r,
  outcome read_csv_any path = Ok rows -> In r rows ->
  dataset r = splitext_root (basename path)
  /\ tidy (measure r) = true /\ tidy (value r) = true /\ tidy (region r) = true
  /\ tidy (period r) = true /\ tidy (typ r) = true.
Proof.
  intros path rows r Hout Hr.
  destruct (outcome_rows read_csv_any path rows Hout) as [df0 [melted [_ [_ ->]]]].
  unfold year_filter in Hr. apply filter_In in Hr. destruct Hr as [Hr _].
  destruct (long_of_in _ _ _ _ Hr) as [m [_ [Hd [Hm [Hv [Hg [Ht Hp]]]]]]].
  destruct (row_of_fields path (prepared df0) m) as [Fd [Fm [Fv [Fg [Fp Ft]]]]].
  rewrite Hd, Hm, Hv, Hg, Ht. repeat split; auto.
  destruct Hp as [->|[->|[d ->]]]; auto.
  apply no_space_tidy, str_of_Z_no_space.
Qed.

Lemma tidy_strip : forall s, tidy s = true -> strip s = s.
Proof.
  intros s H. unfold tidy in H. apply andb_true_iff in H. now apply trimmed_strip.
Qed.

Lemma fill_tidy : forall d s, tidy s = true -> fill d s = or_default d s.
Proof.
  intros d s H. unfold fill, or_default. rewrite (tidy_strip s H). now destruct s.
Qed.

End RowProps.

(** ** Paths *)

Section PathProps.

Lemma before_sep_app : forall sep a b,
  forallb (fun c => negb (c =? sep)%N) a = true ->
  before_sep sep (a ++ sep :: b) = a.
Proof.
  intros sep. induction a as [|c a IH]; intros b H; simpl.
  - now rewrite N.eqb_refl.
  - simpl in H. apply andb_true_iff in H. destruct H as [Hc H].
    apply negb_true_iff in Hc. rewrite Hc. now rewrite IH.
Qed.

Lemma forallb_rev : forall (p : N -> bool) l, forallb p (rev l) = forallb p l.
Proof.
  intros p. induction l as [|c l IH]; [reflexivity|].
  simpl. rewrite forallb_app, IH. simpl. rewrite andb_true_r. apply andb_comm.
Qed.

Lemma basename_join : forall dir name,
  forallb (fun c => negb (c =? ch "/")%N) name = true ->
  basename (dir ++ py "/" ++ name) = name.
Proof.
  intros dir name H. unfold basename.
  change (py "/") with [ch "/"]. rewrite !rev_app_distr. cbn [rev app].
  rewrite <- app_assoc. cbn [app].
  rewrite before_sep_app; [apply rev_involutive|].
  now rewrite forallb_rev.
Qed.

Lemma splitext_csv : forall name,
  existsb (fun c => negb (c =? ch ".")%N) name = true ->
  splitext_root (name ++ py ".csv") = name.
Proof.
  intros name H. unfold splitext_root. rewrite rev_app_distr.
  change (rev (py ".csv")) with [ch "v"; ch "s"; ch "c"; ch "."].
  cbn [app after_dot]. change (ch "v" =? ch ".")%N with false.
  change (ch "s" =? ch ".")%N with false. change (ch "c" =? ch ".")%N with false.
  rewrite N.eqb_refl.
  destruct (forallb (N.eqb (ch ".")) (rev name)) eqn:F; [|apply rev_involutive].
  exfalso. rewrite forallb_rev in F. apply existsb_exists in H.
  destruct H as [c [Hc Hn]]. rewrite forallb_forall in F.
  specialize (F c Hc). rewrite N.eqb_sym in F. rewrite F in Hn. discriminate.
Qed.

End PathProps.

(** X9. Every row a file gives carries the file's name as its data set:
    for a path made of a directory, a name and the extension .csv, the
    name itself. *)
Theorem dataset_is_file_name :
  forall (U : UnicodeData) (read : Str -> result DataFrame)
         (dir name : Str) (rows : list Row) (r : Row),
    forallb (fun c => negb (c =? ch "/")%N) name = true ->
    existsb (fun c => negb (c =? ch ".")%N) name = true ->
    outcome read (dir ++ py "/" ++ name ++ py ".csv") = Ok rows ->
    In r rows ->
    dataset r = name.
Proof.
  intros U read dir name rows r Hslash Hdot Hout Hr.
  destruct (outcome_row read _ rows r Hout Hr) as [-> _].
  rewrite basename_join.
  - now apply splitext_csv.
  - rewrite forallb_app, Hslash. reflexivity.
Qed.

Lemma dataset_is_file_name_witness : dataset sample_row = py "a".
Proof.
  apply (dataset_is_file_name latin_only sample_read (py "/dane") (py "a")
           [sample_row;
            Build_Row (py "a") (py "2025") (py "20") (py "Polska") (py "2025")
                      (py "ogółem")]
           sample_row).
  - reflexivity.
  - reflexivity.
  - vm_compute. reflexivity.
  - now left.
Defined.


(** X10. In every row [process_file] returns, the measure, value, region,
    period and typ are trimmed and have their white space collapsed to
    single spaces. *)
Theorem process_file_rows_tidy :
  forall (U : UnicodeData) (read : Str -> result DataFrame)
         (path : Str) (rows : list Row) (r : Row),
    outcome read path = Ok rows -> In r rows ->
    tidy (measure r) = true /\ tidy (value r) = true /\ tidy (region r) = true
    /\ tidy (period r) = true /\ tidy (typ r) = true.
Proof.
  intros U read path rows r Hout Hr.
  now destruct (outcome_row read path rows r Hout Hr) as [_ H].
Qed.

Lemma process_file_rows_tidy_witness :
  tidy (measure sample_row) = true /\ tidy (value sample_row) = true
  /\ tidy (region sample_row) = true /\ tidy (period sample_row) = true
  /\ tidy (typ sample_row) = true.
Proof.
  apply (process_file_rows_tidy latin_only sample_read (py "/dane/a.csv")
           [sample_row;
            Build_Row (py "a") (py "2025") (py "20") (py "Polska") (py "2025")
                      (py "ogółem")]).
  - vm_compute. reflexivity.
  - now left.
Defined.


(** X11. On the rows of the files, step 10 does one thing only: an empty
    region or typ becomes "ogółem". The stripping changes nothing and the
    period is never replaced. *)
Theorem step10_fills_region_and_typ :
  forall (U : UnicodeData) (read : Str -> result DataFrame)
         (path : Str) (rows : list Row) (r : Row),
    outcome read path = Ok rows -> In r rows ->
    fill_row r
    = {| dataset := dataset r; measure := measure r; value := value r;
         region := or_default (py "ogółem") (region r);
         period := period r;
         typ := or_default (py "ogółem") (typ r) |}.
Proof.
  intros U read path rows r Hout Hr.
  destruct (outcome_row read path rows r Hout Hr) as [_ [_ [_ [Hg [Hp Ht]]]]].
  unfold fill_row. rewrite (fill_tidy _ _ Hg), (fill_tidy _ _ Ht), (fill_tidy _ _ Hp).
  f_equal. unfold or_default. destruct (period r) eqn:E; [|reflexivity].
  exfalso.
  destruct (outcome_filtered read path rows Hout) as [long ->].
  unfold year_filter in Hr. apply filter_In in Hr. destruct Hr as [_ Hy].
  rewrite E in Hy. discriminate Hy.
Qed.

Lemma step10_fills_region_and_typ_witness :
  fill_row sample_row
  = {| dataset := dataset sample_row; measure := measure sample_row;
       value := value sample_row;
       region := or_default (py "ogółem") (region sample_row);
       period := period sample_row;
       typ := or_default (py "ogółem") (typ sample_row) |}.
Proof.
  apply (step10_fills_region_and_typ latin_only sample_read (py "/dane/a.csv")
           [sample_row;
            Build_Row (py "a") (py "2025") (py "20") (py "Polska") (py "2025")
                      (py "ogółem")]).
  - vm_compute. reflexivity.
  - now left.
Defined.

(** ** Period evidence and the default period *)

Section EvidenceProps.
Context {U : UnicodeData}.

Lemma is_period_token_strip : forall s, is_period_token (strip s) = is_period_token s.
Proof. intros s. unfold is_period_token. now rewrite strip_idem. Qed.

Lemma has_four_digits_length : forall t, has_four_digits t -> 4 <= length t.
Proof.
  intros t [pre [a [b [c [d [post [E _]]]]]]]. rewrite E.
  rewrite length_app. simpl. lia.
Qed.

(** A period token has at least four characters. *)
Lemma short_no_token : forall s, length (strip s) < 4 -> is_period_token s = false.
Proof.
  intros s H. destruct (is_period_token s) eqn:E; [|reflexivity].
  apply token_has_year, has_four_digits_length in E. lia.
Qed.

Lemma lstrip_spaces_app : forall a b,
  forallb isspace a = true -> lstrip (a ++ b) = lstrip b.
Proof.
  induction a as [|c a IH]; intros b H; [reflexivity|].
  simpl in *. apply andb_true_iff in H. destruct H as [Hc H]. rewrite Hc. auto.
Qed.

Lemma dash_cell_strip : forall s,
  dash_cell s = true -> exists c, strip s = [c].
Proof.
  intros s H. unfold dash_cell in H. rewrite <- lstrip_drop_while in H.
  unfold strip. destruct (lstrip s) as [|c r] eqn:E; [discriminate|].
  apply andb_true_iff in H. destruct H as [Hc Hr].
  exists c. unfold rstrip. cbn [rev].
  rewrite lstrip_spaces_app by now rewrite forallb_rev.
  rewrite lstrip_nonspace_head by now apply dash_not_white. reflexivity.
Qed.

Lemma dash_cell_no_token : forall s, dash_cell s = true -> is_period_token s = false.
Proof.
  intros s H. apply short_no_token.
  destruct (dash_cell_strip s H) as [c ->]. simpl. lia.
Qed.

Lemma brak_no_token : is_period_token (py "brak danych") = false.
Proof. vm_compute. reflexivity. Qed.

Lemma replaced_cell_token : forall v,
  is_period_token
    (str_of_val match v with
                | VStr s => VStr (re_sub false DASH_RE (fun _ => py "brak danych") s)
                | _ => v
                end)
  = is_period_token (str_of_val v).
Proof.
  intros [| |f|z|b|s]; try reflexivity. rewrite dash_sub.
  destruct (dash_cell s) eqn:E; [|reflexivity].
  cbn [str_of_val]. now rewrite brak_no_token, (dash_cell_no_token s E).
Qed.

Lemma existsb_map_ext : forall {A B} (f : B -> bool) (g : A -> B) (h : A -> bool) l,
  (forall x, f (g x) = h x) -> existsb f (map g l) = existsb h l.
Proof.
  intros A B f g h l H. induction l as [|x l IH]; [reflexivity|].
  simpl. now rewrite H, IH.
Qed.

(** Stripping the labels and replacing the dash cells neither adds nor
    removes period evidence. *)
Lemma prepared_evidence : forall df,
  period_evidence (prepared df) = period_evidence df.
Proof.
  intros df. unfold period_evidence, prepared, replace_dashes, df_columns.
  rewrite !map_map. cbn [fst snd]. f_equal.
  - rewrite <- (map_map (fun col : Str * list pyval => fst col) strip).
    apply existsb_map_ext. apply is_period_token_strip.
  - induction df as [|col df IH]; [reflexivity|].
    cbn [map existsb fst snd]. rewrite IH. f_equal.
    apply existsb_map_ext. apply replaced_cell_token.
Qed.

Lemma period_year_2025 : period_year (py "2025") = Some 2025%Z.
Proof. vm_compute. reflexivity. Qed.

Lemma no_evidence_rows : forall path df melted,
  period_evidence df = false ->
  year_filter (long_of path df melted)
  = map (fun m => set_period (py "2025") (row_of path df m)) melted.
Proof.
  intros path df melted H. unfold long_of, period_policy. rewrite H.
  rewrite !map_map. unfold year_filter.
  generalize (default_year (map (fun x => set_period (py "2025") (row_of path df x))
                                melted)).
  intros d. induction melted as [|m l IH]; [reflexivity|].
  cbn [map filter]. rewrite IH.
  change (fill_default d (set_period (py "2025") (row_of path df m)))
    with (set_period (py "2025") (row_of path df m)).
  cbn [period set_period]. rewrite period_year_2025. reflexivity.
Qed.

End EvidenceProps.

(** ** When [process_file] raises *)

Section RaiseProps.
Context {U : UnicodeData}.

Lemma prepared_columns : forall df,
  df_columns (prepared df) = map (fun col => strip (fst col)) df.
Proof.
  intros df. unfold df_columns, prepared, replace_dashes. now rewrite !map_map.
Qed.

Lemma norm_nil : norm [] = [].
Proof. reflexivity. Qed.

Lemma special_col_nonempty : forall columns c,
  (find_special_col columns REGION_NAMES REGION_PATTERNS = Some c
   \/ find_special_col columns PERIOD_NAMES PERIOD_PATTERNS = Some c) ->
  In c columns /\ c <> [].
Proof.
  intros columns c H.
  assert (In c columns /\
          (exact_hit REGION_NAMES c = true \/ pattern_hit REGION_PATTERNS c = true
           \/ exact_hit PERIOD_NAMES c = true \/ pattern_hit PERIOD_PATTERNS c = true))
    as [Hin Hhit].
  { destruct H as [H|H]; rewrite find_special_col_passes in H.
    - destruct (find (exact_hit REGION_NAMES) columns) eqn:E.
      + inversion H; subst. apply find_some in E. tauto.
      + apply find_some in H. tauto.
    - destruct (find (exact_hit PERIOD_NAMES) columns) eqn:E.
      + inversion H; subst. apply find_some in E. tauto.
      + apply find_some in H. tauto. }
  split; [exact Hin|]. intros ->.
  unfold exact_hit, pattern_hit in Hhit. rewrite norm_nil in Hhit.
  vm_compute in Hhit. intuition discriminate.
Qed.

Lemma typ_col_in : forall df c,
  typ_col_of df = Some c -> In c (df_columns df) /\ norm c = py "typ".
Proof.
  intros df c H. unfold typ_col_of in H. apply find_some in H.
  destruct H as [Hin H]. split; [exact Hin|]. now apply str_eqb_eq.
Qed.

(** A column whose normalized name is "typ" is neither the region nor the
    period column. *)
Lemma typ_not_special : forall columns c,
  norm c = py "typ" ->
  find_special_col columns REGION_NAMES REGION_PATTERNS <> Some c
  /\ find_special_col columns PERIOD_NAMES PERIOD_PATTERNS <> Some c.
Proof.
  intros columns c Hn.
  assert (exact_hit REGION_NAMES c = false /\ pattern_hit REGION_PATTERNS c = false
          /\ exact_hit PERIOD_NAMES c = false /\ pattern_hit PERIOD_PATTERNS c = false)
    as [H1 [H2 [H3 H4]]].
  { unfold exact_hit, pattern_hit. rewrite Hn. vm_compute. auto. }
  split; intros H; rewrite find_special_col_passes in H.
  - destruct (find (exact_hit REGION_NAMES) columns) eqn:E.
    + inversion H; subst. apply find_some in E. destruct E. congruence.
    + apply find_some in H. destruct H. congruence.
  - destruct (find (exact_hit PERIOD_NAMES) columns) eqn:E.
    + inversion H; subst. apply find_some in E. destruct E. congruence.
    + apply find_some in H. destruct H. congruence.
Qed.

Lemma opt_list_cases : forall o,
  opt_list o = [] \/ exists c, o = Some c /\ c <> [] /\ opt_list o = [c].
Proof.
  intros [[|a s]|]; auto. right. exists (a :: s). repeat split. discriminate.
Qed.

Lemma id_vars_in_columns : forall df l,
  In l (id_vars_in df) -> In l (df_columns df).
Proof.
  intros df l. unfold id_vars_in, id_vars_of. rewrite !in_app_iff.
  intros [H|[H|H]].
  - destruct (opt_list_cases (region_col_of df)) as [E|[c [E [_ E']]]].
    + rewrite E in H. destruct H.
    + rewrite E' in H. destruct H as [<-|[]].
      now apply (special_col_nonempty (df_columns df) c); left.
  - destruct (opt_list_cases (period_col_of df)) as [E|[c [E [_ E']]]].
    + rewrite E in H. destruct H.
    + rewrite E' in H. destruct H as [<-|[]].
      now apply (special_col_nonempty (df_columns df) c); right.
  - destruct (opt_list_cases (typ_col_of df)) as [E|[c [E [_ E']]]].
    + rewrite E in H. destruct H.
    + rewrite E' in H. destruct H as [<-|[]].
      now apply typ_col_in.
Qed.

Lemma value_vars_in_columns : forall df l,
  In l (value_vars_in df) -> In l (df_columns df).
Proof.
  intros df l. unfold value_vars_in, value_vars_of, not_in.
  destruct (filter _ (df_columns df)) as [|c r] eqn:E1.
  - destruct (filter (fun c => negb (mem c (soft_id_of _ _))) (df_columns df))
      as [|c r] eqn:E2; [auto|].
    rewrite <- E2. intros H. now apply filter_In in H.
  - rewrite <- E1. intros H. now apply filter_In in H.
Qed.

Lemma labels_present : forall df,
  find (fun l => negb (mem l (df_columns df))) (id_vars_in df ++ value_vars_in df)
  = None.
Proof.
  intros df. apply find_none_all. intros l Hl. apply negb_false_iff, mem_In.
  apply in_app_or in Hl. destruct Hl as [Hl|Hl].
  - now apply id_vars_in_columns.
  - now apply value_vars_in_columns.
Qed.

Lemma mem_refl_cons : forall c l, mem c (c :: l) = true.
Proof. intros c l. apply mem_In. now left. Qed.

(** The identifier list names a column twice only when the region and the
    period are the same column. *)
Lemma id_vars_nodup : forall df,
  (region_col_of df = None \/ region_col_of df <> period_col_of df) ->
  NoDup (id_vars_in df).
Proof.
  intros df H. unfold id_vars_in, id_vars_of.
  destruct (opt_list_cases (region_col_of df)) as [Er|[r [Er [_ Er']]]];
  destruct (opt_list_cases (period_col_of df)) as [Ep|[p [Ep [_ Ep']]]];
  destruct (opt_list_cases (typ_col_of df)) as [Et|[t [Et [_ Et']]]];
  repeat match goal with
         | E : opt_list _ = _ |- _ => rewrite E; clear E
         end;
  cbn [app]; repeat constructor; cbn [In]; try tauto.
  all: try (destruct (typ_col_in df t Et) as [_ Hn];
            destruct (typ_not_special (df_columns df) t Hn) as [N1 N2]).
  all: unfold region_col_of, period_col_of in *.
  all: intuition congruence.
Qed.

(** The reshaping of [process_file] gives its rows for a table with
    distinct labels, no column called value, and the region and the
    period in different columns. *)
Lemma process_melt_ok : forall df,
  NoDup (df_columns df) -> ~ In (py "value") (df_columns df) ->
  (region_col_of df = None \/ region_col_of df <> period_col_of df) ->
  exists melted, melt df (id_vars_in df) (value_vars_in df) = Ok melted.
Proof.
  intros df Hn Hv Hrp. apply melt_ok; auto.
  - intros l Hl. apply in_app_or in Hl. destruct Hl as [Hl|Hl].
    + now apply id_vars_in_columns.
    + now apply value_vars_in_columns.
  - now apply id_vars_nodup.
Qed.

End RaiseProps.

Section LogProps.
Context {U : UnicodeData}.
Variable read_csv_any : Str -> result DataFrame.

Lemma printed_info : forall path e,
  In e (printed read_csv_any path) -> exists name years, e = EvInfo name years.
Proof.
  intros path e. unfold printed, process_file, bind, lift.
  destruct (read_csv_any path) as [df|x]; cbn [fst snd w_log empty_world];
    [|intros []].
  match goal with |- context [table_has_any_period ?d] =>
    destruct (table_has_any_period d) as [b|x] end;
    cbn [fst snd w_log empty_world]; [|intros []].
  match goal with |- context [melt ?d ?i ?v] => destruct (melt d i v) as [m|x] end;
    cbn [fst snd w_log empty_world]; [|intros []].
  match goal with |- context [year_filter ?l] => destruct (year_filter l) as [|r k] end;
    cbn; [|intros []].
  intros [<-|[]]. eauto.
Qed.

Lemma loop_log_no_warn : forall paths col n,
  ~ In (EvWarn col n) (loop_log read_csv_any paths).
Proof.
  intros paths col n H. unfold loop_log in H. apply in_flat_map in H.
  destruct H as [p [_ H]]. apply in_app_or in H. destruct H as [H|H].
  - apply printed_info in H. destruct H as [name [years H]]. discriminate.
  - destruct H as [H|[]]. destruct (outcome read_csv_any p); discriminate.
Qed.

End LogProps.

(** X12. A table with a column named value (once the labels are stripped)
    is not processed: [process_file] raises, and the file gives no rows. *)
Theorem value_column_is_refused :
  forall (U : UnicodeData) (read : Str -> result DataFrame) (path : Str)
         (df0 : DataFrame),
    read path = Ok df0 ->
    In (py "value") (map (fun col => strip (fst col)) df0) ->
    (exists msg, outcome read path = Raise (ValueError msg))
    /\ successes read [path] = [].
Proof.
  intros U read path df0 Hread Hin.
  assert (exists msg, outcome read path = Raise (ValueError msg)) as [msg H].
  { rewrite outcome_stages, Hread.
    destruct (table_has_any_period (prepared df0)) as [b|e] eqn:Eb.
    - unfold melt.
      rewrite <- prepared_columns in Hin. apply mem_In in Hin. rewrite Hin. eauto.
    - destruct (table_has_any_period_raises _ _ Eb) as [msg ->]. eauto. }
  split; [eauto|]. unfold successes. cbn. now rewrite H.
Qed.

Lemma value_column_is_refused_witness :
  (exists msg, outcome (U:=latin_only) (read_as sample_value) (py "/dane/v.csv")
               = Raise (ValueError msg))
  /\ successes (U:=latin_only) (read_as sample_value) [py "/dane/v.csv"] = [].
Proof.
  apply (value_column_is_refused latin_only (read_as sample_value) (py "/dane/v.csv")
           sample_value).
  - reflexivity.
  - vm_compute. right. now left.
Defined.


(** X13. When the region and the period are found in the same column, the
    identifier list names it twice and the reshaping raises: the file gives
    no rows. *)
Theorem shared_column_is_refused :
  forall (U : UnicodeData) (read : Str -> result DataFrame) (path : Str)
         (df0 : DataFrame) (c : Str),
    read path = Ok df0 ->
    region_col_of (prepared df0) = Some c ->
    period_col_of (prepared df0) = Some c ->
    (exists e, outcome read path = Raise e) /\ successes read [path] = [].
Proof.
  intros U read path df0 c Hread Hr Hp.
  assert (exists e, outcome read path = Raise e) as [e H].
  { rewrite outcome_stages, Hread.
    destruct (table_has_any_period (prepared df0)) as [b|e]; [|eauto].
    unfold melt.
    destruct (mem (py "value") (df_columns (prepared df0))); [eauto|].
    rewrite labels_present.
    destruct (special_col_nonempty (df_columns (prepared df0)) c (or_introl Hr))
      as [_ Hc].
    unfold id_vars_in, id_vars_of. rewrite Hr, Hp.
    destruct c as [|a s]; [contradiction|]. cbn [opt_list app].
    match goal with |- context [pop_ids ?n ?z ?f (?x :: ?x :: ?r)] =>
      destruct (pop_ids_twice n z f x r) as [e ->] end.
    eauto. }
  split; [eauto|]. unfold successes. cbn. now rewrite H.
Qed.

Lemma shared_column_is_refused_witness :
  (exists e, outcome (U:=latin_only) (read_as sample_shared) (py "/dane/s.csv") = Raise e)
  /\ successes (U:=latin_only) (read_as sample_shared) [py "/dane/s.csv"] = [].
Proof.
  apply (shared_column_is_refused latin_only (read_as sample_shared) (py "/dane/s.csv")
           sample_shared (py "region okres")).
  - reflexivity.
  - vm_compute. reflexivity.
  - vm_compute. reflexivity.
Defined.


(** X14. These are the only tables [process_file] refuses: a table that
    was read, has distinct labels, has no column named value and has its
    region and period in different columns (or has no region column) is
    processed to the end. *)
Theorem process_file_returns :
  forall (U : UnicodeData) (read : Str -> result DataFrame) (path : Str)
         (df0 : DataFrame),
    read path = Ok df0 ->
    NoDup (df_columns (prepared df0)) ->
    ~ In (py "value") (df_columns (prepared df0)) ->
    (region_col_of (prepared df0) = None
     \/ region_col_of (prepared df0) <> period_col_of (prepared df0)) ->
    exists rows, outcome read path = Ok rows.
Proof.
  intros U read path df0 Hread Hn Hv Hrp.
  rewrite outcome_stages, Hread, (table_has_any_period_nodup _ Hn).
  destruct (process_melt_ok (prepared df0) Hn Hv Hrp) as [melted ->]. eauto.
Qed.

Lemma process_file_returns_witness :
  exists rows, outcome (U:=latin_only) sample_read (py "/dane/a.csv") = Ok rows.
Proof.
  apply (process_file_returns latin_only sample_read (py "/dane/a.csv") sample_wide).
  - reflexivity.
  - vm_compute. repeat constructor; cbn; intuition discriminate.
  - vm_compute. intuition discriminate.
  - right. vm_compute. discriminate.
Defined.


(** X15. The warning of the sanity check is never printed: after step 10
    no region, typ or period is empty. *)
Theorem sanity_check_never_warns :
  forall (U : UnicodeData) (listing : list Str) (read : Str -> result DataFrame)
         (col : Str) (n : nat),
    ~ In (EvWarn col n) (w_log (fst (main listing read empty_world))).
Proof.
  intros U listing read col n. rewrite main_run by reflexivity.
  destruct (successes read (sorted listing)); cbn [fst w_log empty_world app];
    intros H; apply in_app_or in H; destruct H as [H|[H|[]]];
    try discriminate; now apply loop_log_no_warn in H.
Qed.

(** X16. A table without period evidence: when no label and no cell of
    the table read is a period token, every row of the reshaped table is
    kept, with the period "2025". *)
Theorem no_period_evidence_gives_2025 :
  forall (U : UnicodeData) (read : Str -> result DataFrame) (path : Str)
         (df0 : DataFrame) (melted : list MeltRow),
    read path = Ok df0 ->
    NoDup (df_columns (prepared df0)) ->
    period_evidence df0 = false ->
    melt (prepared df0) (id_vars_in (prepared df0)) (value_vars_in (prepared df0))
    = Ok melted ->
    outcome read path
    = Ok (map (fun m => set_period (py "2025") (row_of path (prepared df0) m)) melted).
Proof.
  intros U read path df0 melted Hread Hn Hev Hm.
  rewrite outcome_stages, Hread, (table_has_any_period_nodup _ Hn), Hm. f_equal.
  apply no_evidence_rows. now rewrite prepared_evidence.
Qed.

Lemma no_period_evidence_gives_2025_witness :
  outcome (U:=latin_only) (read_as sample_plain) (py "/dane/p.csv")
  = Ok (map (fun m => set_period (py "2025")
                        (row_of (py "/dane/p.csv") (prepared sample_plain) m))
            [ {| ids := [VStr (py "Polska")]; var := py "liczba"; val := VInt 7 |};
              {| ids := [VStr (py "Mazowsze")]; var := py "liczba";
                 val := VStr (py "brak danych") |} ]).
Proof.
  apply (no_period_evidence_gives_2025 latin_only (read_as sample_plain)
           (py "/dane/p.csv") sample_plain).
  - reflexivity.
  - vm_compute. repeat constructor; cbn; intuition discriminate.
  - vm_compute. reflexivity.
  - vm_compute. reflexivity.
Defined.

(** ** Long-form dates *)

Section LongDates.
Context {U : UnicodeData}.

Local Abbreviation norm_go := (sub_go true POLISH_DATE_RE repl).

Lemma length4_app : forall (y y' X X' : Str),
  length y = 4 -> length y' = 4 -> y ++ X = y' ++ X' -> y = y' /\ X = X'.
Proof.
  intros y y' X X' H H' E.
  destruct y as [|a [|b [|c [|d [|]]]]]; try discriminate H.
  destruct y' as [|a' [|b' [|c' [|d' [|]]]]]; try discriminate H'.
  cbn [app] in E. inversion E. auto.
Qed.

(** A text decomposes in one way only as the date pattern needs. *)
Lemma date_unique : forall p d w1 mo w2 y X p' d' w1' mo' w2' y' X',
  date_core p d w1 mo w2 y -> date_core p' d' w1' mo' w2' y' ->
  d ++ w1 ++ mo ++ w2 ++ y ++ X = d' ++ w1' ++ mo' ++ w2' ++ y' ++ X' ->
  d = d' /\ w1 = w1' /\ mo = mo' /\ w2 = w2' /\ y = y' /\ X = X'.
Proof.
  intros p d w1 mo w2 y X p' d' w1' mo' w2' y' X' Hc Hc' E.
  pose proof (month_unique _ _ _ _ _ _ _ _ _ _ _ _ _ _ Hc Hc' E) as Hmo.
  destruct Hc as [_ [_ [Hd [Hw1n [Hw1 [Hmo1 [Hw2n [Hw2 [Hy4 Hy]]]]]]]]].
  destruct Hc' as [_ [_ [Hd' [Hw1n' [Hw1' [Hmo1' [Hw2n' [Hw2' [Hy4' Hy']]]]]]]]].
  subst mo'.
  destruct (month_text_chars mo Hmo1) as [Hmn Hmc].
  destruct w1 as [|s w1]; [contradiction|].
  destruct w1' as [|s' w1']; [contradiction|].
  destruct mo as [|l mo]; [contradiction|].
  assert (isspace s = true /\ isspace s' = true) as [Hs Hs'].
  { simpl in Hw1, Hw1'. apply andb_true_iff in Hw1, Hw1'. tauto. }
  assert (isspace l = false) as Hl.
  { simpl in Hmc. apply andb_true_iff in Hmc. destruct Hmc as [Hmc _].
    apply andb_true_iff in Hmc. destruct Hmc as [_ Hmc].
    now apply negb_true_iff in Hmc. }
  cbn [app] in E.
  destruct (span_unique isdecimal d d' s s' _ _ E Hd Hd'
              (space_not_decimal s Hs) (space_not_decimal s' Hs')) as [Ed E1].
  split; [exact Ed|].
  change (s :: w1 ++ l :: mo ++ w2 ++ y ++ X)
    with ((s :: w1) ++ l :: mo ++ w2 ++ y ++ X) in E1.
  change (s' :: w1' ++ l :: mo ++ w2' ++ y' ++ X')
    with ((s' :: w1') ++ l :: mo ++ w2' ++ y' ++ X') in E1.
  destruct (span_unique isspace _ _ l l _ _ E1 Hw1 Hw1' Hl Hl) as [Ew1 E2].
  split; [exact Ew1|]. split; [reflexivity|].
  inversion E2 as [E3]. apply app_inv_head in E3.
  destruct y as [|a y]; [discriminate Hy4|].
  destruct y' as [|a' y']; [discriminate Hy4'|].
  assert (isspace a = false /\ isspace a' = false) as [Ha Ha'].
  { simpl in Hy, Hy'. apply andb_true_iff in Hy, Hy'.
    split; apply decimal_not_space; tauto. }
  cbn [app] in E3.
  destruct (span_unique isspace _ _ a a' _ _ E3 Hw2 Hw2' Ha Ha') as [Ew2 E4].
  split; [exact Ew2|].
  change (a :: y ++ X) with ((a :: y) ++ X) in E4.
  change (a' :: y' ++ X') with ((a' :: y') ++ X') in E4.
  now apply length4_app.
Qed.

Lemma month_words_match : forall w, In w MONTH_WORDS -> word_match w w = true.
Proof.
  assert (forallb (fun w => word_match w w) MONTH_WORDS = true) as H
      by (vm_compute; reflexivity).
  intros w Hw. rewrite forallb_forall in H. now apply H.
Qed.

Lemma months_map_words : forall w mm,
  In (w, mm) MONTHS_MAP -> In w MONTH_WORDS /\ dict_get w MONTHS_MAP = Some mm.
Proof.
  intros w mm H. unfold MONTHS_MAP in H. cbn [In] in H.
  repeat (destruct H as [H|H];
          [inversion H; subst; split; [vm_compute; tauto|reflexivity]|]).
  destruct H.
Qed.

(** The date pattern on a text that is a long-form date and nothing else. *)
Lemma long_date_sub : forall d w1 mo w2 y mm,
  date_core None d w1 mo w2 y ->
  dict_get (lower mo) MONTHS_MAP = Some mm ->
  normalize_polish_dates (d ++ w1 ++ mo ++ w2 ++ y)
  = zfill2 d ++ py "." ++ mm ++ py "." ++ y.
Proof.
  intros d w1 mo w2 y mm Hc Hmm.
  unfold normalize_polish_dates, re_sub.
  pose proof (match_complete None d w1 mo w2 y [] Hc) as Hm.
  rewrite app_nil_r in Hm.
  destruct (match_here true POLISH_DATE_RE None (d ++ w1 ++ mo ++ w2 ++ y))
    as [m|] eqn:E; [clear Hm|contradiction].
  destruct (match_sound _ _ _ E)
    as [d' [w1' [mo' [w2' [y' [t [r [Er [Hc' [_ [Hg [G1 [G2 G3]]]]]]]]]]]]].
  assert (d ++ w1 ++ mo ++ w2 ++ y ++ [] = d' ++ w1' ++ mo' ++ w2' ++ y' ++ t ++ r)
    as Er' by (now rewrite app_nil_r).
  destruct (date_unique _ _ _ _ _ _ _ _ _ _ _ _ _ _ Hc Hc' Er')
    as [<- [<- [<- [<- [<- Htr]]]]].
  symmetry in Htr. apply app_eq_nil in Htr. destruct Htr as [-> ->].
  destruct (step_some _ _ _ E) as [rest' [Hr [_ ->]]].
  rewrite Hg, app_nil_r in Hr.
  assert (rest' = []) as ->.
  { apply (f_equal (@length N)) in Hr. rewrite !length_app in Hr.
    destruct rest'; [reflexivity|simpl in Hr; lia]. }
  rewrite (step_none _ [] (match_empty _)), app_nil_r.
  unfold repl. rewrite G1, G2, G3, Hmm. reflexivity.
Qed.

End LongDates.

Section LongDateToken.
Context {U : UnicodeData}.

Lemma isdecimal_zero : isdecimal 0x30 = true.
Proof. reflexivity. Qed.

Lemma dotted_matches : forall a b m1 m2 y1 y2 y3 y4,
  isdecimal a = true -> isdecimal b = true ->
  isdecimal m1 = true -> isdecimal m2 = true ->
  isdecimal y1 = true -> isdecimal y2 = true ->
  isdecimal y3 = true -> isdecimal y4 = true ->
  matches false PERIOD_PL_RE
    ([a; b] ++ py "." ++ [m1; m2] ++ py "." ++ [y1; y2; y3; y4]) = true.
Proof.
  intros a b m1 m2 y1 y2 y3 y4 Ha Hb Hm1 Hm2 Hy1 Hy2 Hy3 Hy4.
  unfold matches, re_match, match_here, PERIOD_PL_RE, digits.
  cbn [cat runs start m_rest m_prev flat_map app py].
  cbn. rewrite Ha. cbn. rewrite Hb. cbn. rewrite Hm1. cbn. rewrite Hm2. cbn.
  rewrite Hy1. cbn. rewrite Hy2. cbn. rewrite Hy3. cbn. rewrite Hy4. reflexivity.
Qed.

Lemma date_core_intro : forall d w1 mo w2 y w,
  (length d = 1 \/ length d = 2) -> forallb isdecimal d = true ->
  w1 <> [] -> forallb isspace w1 = true ->
  In w MONTH_WORDS -> word_match w mo = true ->
  w2 <> [] -> forallb isspace w2 = true ->
  length y = 4 -> forallb isdecimal y = true ->
  date_core None d w1 mo w2 y.
Proof.
  intros d w1 mo w2 y w Hd1 Hd2 Hw1 Hw1' Hw Hm Hw2 Hw2' Hy1 Hy2.
  unfold date_core. repeat split; auto.
  unfold month_text. apply existsb_exists. eauto.
Qed.

End LongDateToken.

(** X17. A long-form date standing alone, that is one or two digits,
    white space, a month name of [MONTHS_MAP] in any letter case, white
    space and four digits, is rewritten to DD.MM.YYYY with the day padded
    to two digits and the month's number from the table. *)
Theorem long_date_is_rewritten :
  forall (U : UnicodeData) (d w1 mo w2 y w mm : Str),
    (length d = 1 \/ length d = 2) -> forallb isdecimal d = true ->
    w1 <> [] -> forallb isspace w1 = true ->
    In (w, mm) MONTHS_MAP -> word_match w mo = true -> lower mo = w ->
    w2 <> [] -> forallb isspace w2 = true ->
    length y = 4 -> forallb isdecimal y = true ->
    normalize_polish_dates (d ++ w1 ++ mo ++ w2 ++ y)
    = zfill2 d ++ py "." ++ mm ++ py "." ++ y.
Proof.
  intros U d w1 mo w2 y w mm Hd1 Hd2 Hw1 Hw1' Hw Hm Hl Hw2 Hw2' Hy1 Hy2.
  destruct (months_map_words w mm Hw) as [Hin Hget].
  apply long_date_sub.
  - now apply (date_core_intro d w1 mo w2 y w).
  - now rewrite Hl.
Qed.

Lemma long_date_is_rewritten_witness :
  normalize_polish_dates (U:=latin_only)
    (py "7" ++ py " " ++ py "Marca" ++ py "  " ++ py "2024")
  = zfill2 (py "7") ++ py "." ++ py "03" ++ py "." ++ py "2024".
Proof.
  apply (long_date_is_rewritten latin_only (py "7") (py " ") (py "Marca") (py "  ")
           (py "2024") (py "marca") (py "03")).
  - left. reflexivity.
  - reflexivity.
  - discriminate.
  - reflexivity.
  - vm_compute. tauto.
  - vm_compute. reflexivity.
  - vm_compute. reflexivity.
  - discriminate.
  - reflexivity.
  - reflexivity.
  - reflexivity.
Defined.

(** X18. Such a long-form date is a period token. *)
Theorem long_date_is_period_token :
  forall (U : UnicodeData) (d w1 mo w2 y w mm : Str),
    (length d = 1 \/ length d = 2) -> forallb isdecimal d = true ->
    w1 <> [] -> forallb isspace w1 = true ->
    In (w, mm) MONTHS_MAP -> word_match w mo = true -> lower mo = w ->
    w2 <> [] -> forallb isspace w2 = true ->
    length y = 4 -> forallb isdecimal y = true ->
    is_period_token (d ++ w1 ++ mo ++ w2 ++ y) = true.
Proof.
  intros U d w1 mo w2 y w mm Hd1 Hd2 Hw1 Hw1' Hw Hm Hl Hw2 Hw2' Hy1 Hy2.
  destruct (months_map_words w mm Hw) as [Hin Hget].
  pose proof (date_core_intro d w1 mo w2 y w Hd1 Hd2 Hw1 Hw1' Hin Hm Hw2 Hw2' Hy1 Hy2)
    as Hc.
  assert (dict_get (lower mo) MONTHS_MAP = Some mm) as Hg by (now rewrite Hl).
  pose proof (long_date_sub d w1 mo w2 y mm Hc Hg) as Hn.
  destruct (months_two_digits _ _ Hget) as [m1 [m2 [-> [Hm1 Hm2]]]].
  destruct y as [|y1 [|y2 [|y3 [|y4 [|]]]]]; try discriminate Hy1.
  cbn [forallb] in Hy2.
  repeat (apply andb_true_iff in Hy2; destruct Hy2 as [? Hy2]).
  assert (strip (d ++ w1 ++ mo ++ w2 ++ [y1; y2; y3; y4])
          = d ++ w1 ++ mo ++ w2 ++ [y1; y2; y3; y4]) as Hs.
  { apply trimmed_strip.
    destruct d as [|a d]; [destruct Hd1; discriminate|].
    cbn [forallb] in Hd2. apply andb_true_iff in Hd2. destruct Hd2 as [Ha _].
    cbn [app].
    apply (trimmed_intro a _ (a :: d ++ w1 ++ mo ++ w2 ++ [y1; y2; y3]) y4).
    - cbn [app]. f_equal. rewrite <- !app_assoc. reflexivity.
    - now apply decimal_not_space.
    - now apply decimal_not_space. }
  unfold is_period_token. cbv zeta. rewrite Hs, Hn.
  assert (matches false PERIOD_PL_RE
            (zfill2 d ++ py "." ++ [m1; m2] ++ py "." ++ [y1; y2; y3; y4]) = true)
    as Hpl.
  { destruct d as [|a [|b [|]]]; cbn [length] in Hd1;
      try (destruct Hd1; discriminate || lia).
    - cbn [forallb] in Hd2. apply andb_true_iff in Hd2. destruct Hd2 as [Ha _].
      apply (dotted_matches 48%N a); auto.
    - cbn [forallb] in Hd2.
      repeat (apply andb_true_iff in Hd2; destruct Hd2 as [? Hd2]).
      apply (dotted_matches a b); auto. }
  rewrite Hpl. now rewrite !orb_true_r.
Qed.

Lemma long_date_is_period_token_witness :
  is_period_token (U:=latin_only)
    (py "7" ++ py " " ++ py "Marca" ++ py "  " ++ py "2024") = true.
Proof.
  apply (long_date_is_period_token latin_only (py "7") (py " ") (py "Marca") (py "  ")
           (py "2024") (py "marca") (py "03")).
  - left. reflexivity.
  - reflexivity.
  - discriminate.
  - reflexivity.
  - vm_compute. tauto.
  - vm_compute. reflexivity.
  - vm_compute. reflexivity.
  - discriminate.
  - reflexivity.
  - reflexivity.
  - reflexivity.
Defined.

(** ** Step 6: the period taken from the measure or an identifier *)

Section BackfillProps.
Context {U : UnicodeData}.

Lemma token_nonempty : forall c, is_period_token c = true -> c <> [].
Proof. intros c H ->. discriminate H. Qed.

Lemma adopt_period : forall c r,
  l_period (adopt c r)
  = if is_period_token c && empty_period (l_period r) then Some c else l_period r.
Proof.
  intros c r. unfold adopt.
  destruct (is_period_token c && empty_period (l_period r)); reflexivity.
Qed.

Lemma adopt_rest : forall c r,
  l_ids (adopt c r) = l_ids r /\ l_measure (adopt c r) = l_measure r
  /\ l_value (adopt c r) = l_value r /\ l_region (adopt c r) = l_region r
  /\ l_typ (adopt c r) = l_typ r.
Proof.
  intros c r. unfold adopt.
  destruct (is_period_token c && empty_period (l_period r)); cbn; auto.
Qed.

Lemma fold_adopt_period : forall cands r,
  l_period (fold_left (fun acc c => adopt c acc) cands r)
  = if empty_period (l_period r)
    then match find is_period_token cands with
         | Some t => Some t
         | None => l_period r
         end
    else l_period r.
Proof.
  induction cands as [|c cands IH]; intros r; cbn [fold_left find].
  - now destruct (empty_period (l_period r)).
  - rewrite IH, adopt_period.
    destruct (is_period_token c) eqn:Ec; cbn [andb].
    + destruct (empty_period (l_period r)) eqn:Er; [|now rewrite Er].
      destruct c as [|a c]; [now apply token_nonempty in Ec|reflexivity].
    + reflexivity.
Qed.

Lemma fold_adopt_rest : forall cands r,
  let r' := fold_left (fun acc c => adopt c acc) cands r in
  l_ids r' = l_ids r /\ l_measure r' = l_measure r /\ l_value r' = l_value r
  /\ l_region r' = l_region r /\ l_typ r' = l_typ r.
Proof.
  induction cands as [|c cands IH]; intros r; cbn [fold_left]; [auto|].
  destruct (IH (adopt c r)) as [H1 [H2 [H3 [H4 H5]]]].
  destruct (adopt_rest c r) as [A1 [A2 [A3 [A4 A5]]]].
  cbv zeta. rewrite H1, H2, H3, H4, H5. auto.
Qed.

Lemma backfill_fold : forall r,
  backfill r = fold_left (fun acc c => adopt c acc) (candidates r) r.
Proof.
  intros r. unfold backfill, candidates. cbn [fold_left].
  generalize (adopt (str_of_val (of_string (l_measure r))) r).
  induction (l_ids r) as [|v l IH]; intros x; [reflexivity|].
  cbn [map fold_left]. apply IH.
Qed.

End BackfillProps.

(** X19. Step 6 touches the period only, and only when it is missing or
    empty: it then becomes the first period token among the measure and
    the identifier cells, in that order, and stays as it is when none of
    them is one. *)
Theorem backfill_first_token :
  forall (U : UnicodeData) (r : LongRow),
    l_period (backfill r)
    = (if empty_period (l_period r)
       then match find is_period_token (candidates r) with
            | Some t => Some t
            | None => l_period r
            end
       else l_period r)
    /\ l_ids (backfill r) = l_ids r
    /\ l_measure (backfill r) = l_measure r
    /\ l_value (backfill r) = l_value r
    /\ l_region (backfill r) = l_region r
    /\ l_typ (backfill r) = l_typ r.
Proof.
  intros U r. rewrite backfill_fold. split.
  - apply fold_adopt_period.
  - apply (fold_adopt_rest (candidates r) r).
Qed.

(** ** [clean_value] on text with more than one ".0" *)

Section DotZero.
Context {U : UnicodeData}.

Lemma drop_dot0_through : forall ds rest,
  forallb isdigit_char ds = true ->
  drop_dot0 (ds ++ py ".0" ++ rest) = ds ++ drop_dot0 rest.
Proof.
  induction ds as [|c ds IH]; intros rest H.
  - reflexivity.
  - cbn [forallb] in H. apply andb_true_iff in H. destruct H as [Hc H].
    cbn [app]. change (drop_dot0 (c :: ds ++ py ".0" ++ rest))
      with (match ds ++ py ".0" ++ rest with
            | d :: tl' =>
              if ((c =? 0x2E) && (d =? 0x30))%N then drop_dot0 tl'
              else c :: drop_dot0 (ds ++ py ".0" ++ rest)
            | [] => [c]
            end).
    destruct (ds ++ py ".0" ++ rest) as [|d tl'] eqn:E.
    + destruct ds; discriminate E.
    + rewrite (digit_not_dot c Hc). cbn [andb]. rewrite <- E. now rewrite IH.
Qed.

End DotZero.

(** X20. [clean_value] removes every ".0" of a text, not only the one at
    its end: digits, ".0", digits, ".0" come out as the two runs of digits
    joined ("10.05.0" gives "105"). *)
Theorem clean_value_drops_every_dot0 :
  forall (U : UnicodeData) (a b : Str),
    forallb isdigit_char a = true -> forallb isdigit_char b = true ->
    a ++ b <> [] ->
    clean_value (VStr (a ++ py ".0" ++ b ++ py ".0")) = a ++ b.
Proof.
  intros U a b Ha Hb Hn. unfold clean_value. cbn [isna str_of_val].
  assert (endswith (py ".0") (a ++ py ".0" ++ b ++ py ".0") = true) as He.
  { rewrite !app_assoc. apply endswith_app. }
  assert (drop_dot0 (a ++ py ".0" ++ b ++ py ".0") = a ++ b) as Hd.
  { rewrite drop_dot0_through by exact Ha. f_equal. now apply drop_dot0_digits. }
  rewrite He, Hd. cbn [andb].
  assert (isdigit (a ++ b) = true) as Hi.
  { unfold isdigit. destruct (a ++ b) eqn:E; [contradiction|].
    rewrite <- E. rewrite forallb_app, Ha, Hb. reflexivity. }
  now rewrite Hi.
Qed.

Lemma clean_value_drops_every_dot0_witness :
  clean_value (U:=latin_only) (VStr (py "10" ++ py ".0" ++ py "5" ++ py ".0"))
  = py "10" ++ py "5".
Proof.
  apply (clean_value_drops_every_dot0 latin_only (py "10") (py "5")).
  - reflexivity.
  - reflexivity.
  - discriminate.
Defined.

(** ** Rows without a period *)

Section UndatedProps.
Context {U : UnicodeData}.

Lemma default_year_range : forall rows,
  default_year rows = 2024%Z \/ default_year rows = 2025%Z.
Proof.
  intros rows. unfold default_year.
  destruct (mode (dominant_years rows)) as [|y t] eqn:E; [now right|].
  destruct (mode_head _ _ _ E) as [Hin _].
  apply dominant_years_in in Hin. tauto.
Qed.

Lemma period_year_2024 : period_year (py "2024") = Some 2024%Z.
Proof. vm_compute. reflexivity. Qed.

Lemma measure_period : forall path df m,
  period_col_of df = None -> is_period_token (var m) = true ->
  period (row_of path df m) = measure (row_of path df m).
Proof.
  intros path df m Hp Ht. unfold row_of, clean_row. cbn [period measure].
  rewrite backfill_fold.
  match goal with |- context [fold_left _ (candidates ?r) ?r] =>
    destruct (fold_adopt_rest (candidates r) r) as [_ [Hm _]];
    rewrite (fold_adopt_period (candidates r) r) end.
  cbv zeta in Hm. rewrite Hm. rewrite Hp. cbn. rewrite Ht. reflexivity.
Qed.

Lemma undated_kept : forall b rows r,
  In r rows -> period r = [] ->
  exists p, (p = py "2024" \/ p = py "2025")
            /\ In (set_period p r) (year_filter (period_policy b rows)).
Proof.
  intros b rows r Hin He. unfold period_policy, year_filter.
  destruct b.
  - destruct (default_year_range rows) as [Hd|Hd].
    + exists (py "2024"). split; [now left|]. apply filter_In. split.
      * apply in_map_iff. exists r. split; [|exact Hin].
        unfold fill_default. rewrite He, Hd. reflexivity.
      * cbn [period set_period]. now rewrite period_year_2024.
    + exists (py "2025"). split; [now right|]. apply filter_In. split.
      * apply in_map_iff. exists r. split; [|exact Hin].
        unfold fill_default. rewrite He, Hd. reflexivity.
      * cbn [period set_period]. now rewrite period_year_2025.
  - exists (py "2025"). split; [now right|]. apply filter_In. split.
    + apply in_map_iff. exists (set_period (py "2025") r). split; [reflexivity|].
      apply in_map_iff. eauto.
    + cbn [period set_period]. now rewrite period_year_2025.
Qed.

End UndatedProps.

(** X21. In a table without a period column, a row that comes from a
    value column whose label is a period token has that label as its
    period: after step 7 its period is the same text as its measure. *)
Theorem measure_token_becomes_period :
  forall (U : UnicodeData) (path : Str) (df : DataFrame) (m : MeltRow),
    period_col_of df = None ->
    is_period_token (var m) = true ->
    period (row_of path df m) = measure (row_of path df m).
Proof. intros U path df m. apply measure_period. Qed.

Lemma measure_token_becomes_period_witness :
  period (row_of (U:=latin_only) (py "/dane/a.csv") sample_wide sample_melted)
  = measure (row_of (U:=latin_only) (py "/dane/a.csv") sample_wide sample_melted).
Proof.
  apply (measure_token_becomes_period latin_only (py "/dane/a.csv") sample_wide
           sample_melted).
  - vm_compute. reflexivity.
  - vm_compute. reflexivity.
Defined.


(** X22. No row is dropped for want of a period: a row whose period is
    empty after step 7 is given "2024" or "2025" by step 8 and passes the
    year filter. *)
Theorem undated_rows_are_kept :
  forall (U : UnicodeData) (has_any_period : bool) (rows : list Row) (r : Row),
    In r rows -> period r = [] ->
    exists p, (p = py "2024" \/ p = py "2025")
              /\ In (set_period p r)
                    (year_filter (period_policy has_any_period rows)).
Proof. intros U b rows r. apply undated_kept. Qed.

Lemma undated_rows_are_kept_witness :
  exists p, (p = py "2024" \/ p = py "2025")
            /\ In (set_period p (Build_Row (py "a") (py "liczba") (py "7") [] [] []))
                  (year_filter (U:=latin_only)
                     (period_policy true
                        [Build_Row (py "a") (py "liczba") (py "7") [] [] []])).
Proof.
  apply (undated_rows_are_kept latin_only true
           [Build_Row (py "a") (py "liczba") (py "7") [] [] []]
           (Build_Row (py "a") (py "liczba") (py "7") [] [] [])).
  - now left.
  - reflexivity.
Defined.

(** ** Value columns named by a period *)

Section TokenColumns.
Context {U : UnicodeData}.

Lemma isdecimal_dot : isdecimal 46 = false.
Proof. reflexivity. Qed.

Lemma lit_q_dot : lit_match true (ch "q") 46 = false.
Proof. reflexivity. Qed.

Lemma range_zero : in_range 49 52 48 = false.
Proof. reflexivity. Qed.

Local Opaque isdecimal lit_match in_range.
Local Arguments N.eqb : simpl never.

Ltac shape :=
  cbn; try (intros H; discriminate H); try (intros _; reflexivity);
  repeat (match goal with
          | E : N.eqb 48 ?c = true |- _ => apply N.eqb_eq in E; subst c
          | E : N.eqb 46 ?c = true |- _ => apply N.eqb_eq in E; subst c
          | |- context [isdecimal 46] => rewrite isdecimal_dot
          | |- context [in_range 49 52 48] => rewrite range_zero
          | |- context [lit_match true (ch "q") 46] => rewrite lit_q_dot
          | E : isdecimal ?c = _ |- context [isdecimal ?c] => rewrite E
          | E : lit_match ?i ?k ?c = _ |- context [lit_match ?i ?k ?c] => rewrite E
          | E : N.eqb ?c ?k = _ |- context [N.eqb ?c ?k] => rewrite E
          | E : in_range ?a ?b ?c = _ |- context [in_range ?a ?b ?c] => rewrite E
          | |- context [N.eqb 48 ?c] => is_var c; destruct (N.eqb 48 c) eqn:?
          | |- context [N.eqb 46 ?c] => is_var c; destruct (N.eqb 46 c) eqn:?
          | |- context [isdecimal ?c] => destruct (isdecimal c) eqn:?
          | |- context [lit_match ?i ?k ?c] => destruct (lit_match i k c) eqn:?
          | |- context [N.eqb ?c ?k] => destruct (N.eqb c k) eqn:?
          | |- context [in_range ?a ?b ?c] => is_var c; destruct (in_range a b c) eqn:?
          | |- context [match ?l with [] => _ | _ :: _ => _ end] => is_var l; destruct l
          end; cbn; try (intros H; discriminate H); try (intros _; reflexivity)).

Lemma year_only_no_dot0 : forall h,
  matches false YEAR_ONLY_RE h = true -> endswith (py ".0") h = false.
Proof.
  intros h. unfold matches, re_match, match_here, endswith.
  destruct h as [|a1 [|a2 [|a3 [|a4 [|a5 [|a6 h]]]]]].
  all: shape.
Qed.

Lemma quarter_no_dot0 : forall h,
  matches true PERIOD_Q_RE h = true -> endswith (py ".0") h = false.
Proof.
  intros h. unfold matches, re_match, match_here, endswith.
  destruct h as [|a1 [|a2 [|a3 [|a4 [|a5 [|a6 [|a7 [|a8 [|a9 h]]]]]]]]].
  all: shape.
Qed.

Lemma iso_no_dot0 : forall h,
  matches false PERIOD_ISO_RE h = true -> endswith (py ".0") h = false.
Proof.
  intros h. unfold matches, re_match, match_here, endswith.
  destruct h as [|a1 [|a2 [|a3 [|a4 [|a5 [|a6 [|a7 [|a8 [|a9 [|b1 [|b2 [|b3 h]]]]]]]]]]]].
  all: shape.
Qed.

Lemma dotted_no_dot0 : forall h,
  matches false PERIOD_PL_RE h = true -> endswith (py ".0") h = false.
Proof.
  intros h. unfold matches, re_match, match_here, endswith.
  destruct h as [|a1 [|a2 [|a3 [|a4 [|a5 [|a6 [|a7 [|a8 [|a9 [|b1 [|b2 [|b3 h]]]]]]]]]]]].
  all: shape.
Qed.

End TokenColumns.

Section TokenColumnRows.
Context {U : UnicodeData}.

Lemma token_no_dot0 : forall h,
  no_space h = true -> is_period_token h = true -> endswith (py ".0") h = false.
Proof.
  intros h Hs Ht. unfold is_period_token in Ht. cbv zeta in Ht.
  rewrite (strip_no_space h Hs) in Ht. unfold normalize_polish_dates in Ht.
  rewrite (sub_no_space true POLISH_DATE_RE repl h polish_date_none Hs) in Ht.
  apply orb_true_iff in Ht. destruct Ht as [Ht|Ht]; [|now apply year_only_no_dot0].
  apply orb_true_iff in Ht. destruct Ht as [Ht|Ht]; [|now apply dotted_no_dot0].
  apply orb_true_iff in Ht. destruct Ht as [Ht|Ht];
    [now apply quarter_no_dot0|now apply iso_no_dot0].
Qed.

(** Cleaning leaves a period token without white space as it is. *)
Lemma token_clean : forall h,
  no_space h = true -> is_period_token h = true -> clean_cell (VStr h) = h.
Proof.
  intros h Hs Ht. unfold clean_cell, clean_value. cbn [isna str_of_val].
  rewrite (token_no_dot0 h Hs Ht). cbn [andb]. now apply clean_steps_no_space.
Qed.

End TokenColumnRows.

(** X23. A table without a period column, read column by column: every
    line of a value column whose label is a period token of 2024 or 2025
    (written without white space, as "2024" or "2025-Q1") is kept, with
    that label as its period and as its measure. *)
Theorem token_columns_give_periods :
  forall (U : UnicodeData) (read : Str -> result DataFrame) (path : Str)
         (df0 : DataFrame) (melted : list MeltRow) (m : MeltRow),
    read path = Ok df0 ->
    NoDup (df_columns (prepared df0)) ->
    melt (prepared df0) (id_vars_in (prepared df0)) (value_vars_in (prepared df0))
    = Ok melted ->
    period_col_of (prepared df0) = None ->
    In m melted ->
    no_space (var m) = true ->
    is_period_token (var m) = true ->
    isin_years (period_year (var m)) = true ->
    exists rows,
      outcome read path = Ok rows
      /\ In (row_of path (prepared df0) m) rows
      /\ period (row_of path (prepared df0) m) = var m
      /\ measure (row_of path (prepared df0) m) = var m.
Proof.
  intros U read path df0 melted m Hread Hn Hmelt Hp Hm Hs Ht Hy.
  set (df := prepared df0) in *.
  assert (measure (row_of path df m) = var m) as Hmeas.
  { unfold row_of, clean_row. cbn [measure]. rewrite backfill_fold.
    match goal with |- context [fold_left _ (candidates ?r) ?r] =>
      destruct (fold_adopt_rest (candidates r) r) as [_ [Hx _]] end.
    cbv zeta in Hx. rewrite Hx. cbn. now apply token_clean. }
  assert (period (row_of path df m) = var m) as Hper.
  { now rewrite (measure_period path df m Hp Ht). }
  exists (year_filter (long_of path df melted)).
  split; [|split; [|split; [exact Hper|exact Hmeas]]].
  - rewrite outcome_stages, Hread. fold df.
    now rewrite (table_has_any_period_nodup _ Hn), Hmelt.
  - unfold year_filter. apply filter_In. split.
    + unfold long_of, period_policy.
      assert (period_evidence df = true) as ->.
      { unfold period_evidence. apply orb_true_iff. left.
        apply existsb_exists. exists (var m). split; [|exact Ht].
        exact (proj1 (melt_var_in _ _ _ _ _ Hmelt Hm)). }
      apply in_map_iff. exists (row_of path df m). split.
      * unfold fill_default. rewrite Hper.
        destruct (var m); [discriminate Ht|reflexivity].
      * now apply in_map.
    + now rewrite Hper.
Qed.

Lemma token_columns_give_periods_witness :
  exists rows,
    outcome (U:=latin_only) sample_read (py "/dane/a.csv") = Ok rows
    /\ In (row_of (py "/dane/a.csv") (prepared sample_wide) sample_melted) rows
    /\ period (row_of (U:=latin_only) (py "/dane/a.csv") (prepared sample_wide)
                      sample_melted) = var sample_melted
    /\ measure (row_of (U:=latin_only) (py "/dane/a.csv") (prepared sample_wide)
                       sample_melted) = var sample_melted.
Proof.
  apply (token_columns_give_periods latin_only sample_read (py "/dane/a.csv")
           sample_wide
           [ sample_melted;
             {| ids := [VStr (py "Polska"); VStr (py "ogółem")]; var := py "2025";
                val := VInt 20 |} ]
           sample_melted).
  - reflexivity.
  - vm_compute. repeat constructor; cbn; intuition discriminate.
  - vm_compute. reflexivity.
  - vm_compute. reflexivity.
  - now left.
  - reflexivity.
  - vm_compute. reflexivity.
  - vm_compute. reflexivity.
Defined.

(** ** ISO dates: the two separators *)

Section IsoSeparators.
Context {U : UnicodeData}.

Lemma decimal_not_q : forall x, isdecimal x = true -> lit_match true 113 x = false.
Proof.
  intros x H. destruct (lit_match true 113 x) eqn:E; [|reflexivity].
  apply lit_match_uncased in E; [|now apply decimal_uncased].
  cbn in E. destruct E as [E|[E|E]]; try subst x; try discriminate H.
  contradiction.
Qed.

Lemma sep_not_q : lit_match true 113 45 = false /\ lit_match true 113 47 = false.
Proof. split; reflexivity. Qed.

Lemma lit_match_plain : forall c x, lit_match false c x = (x =? c)%N.
Proof. reflexivity. Qed.

Local Opaque isdecimal lit_match.

Ltac decided :=
  unfold matches, re_match, match_here; cbn;
  repeat (match goal with
          | |- context [lit_match false ?k ?c] => rewrite (lit_match_plain k c)
          | E : isdecimal ?c = true |- context [isdecimal ?c] => rewrite E
          | |- context [lit_match true 113 45] => rewrite (proj1 sep_not_q)
          | |- context [lit_match true 113 47] => rewrite (proj2 sep_not_q)
          | E : isdecimal ?c = true |- context [lit_match true 113 ?c] =>
            rewrite (decimal_not_q c E)
          | E : isdecimal ?c = true |- context [(?c =? 46)%N] =>
            let D := fresh in
            pose proof (decimal_not_dot c E) as D;
            change (ch ".") with 46%N in D; rewrite D; clear D
          end; cbn).

Lemma iso_shape : forall a1 a2 a3 a4 s1 b1 b2 s2 c1 c2,
  isdecimal a1 = true -> isdecimal a2 = true -> isdecimal a3 = true ->
  isdecimal a4 = true -> isdecimal b1 = true -> isdecimal b2 = true ->
  isdecimal c1 = true -> isdecimal c2 = true ->
  In s1 (py "-/") -> In s2 (py "-/") ->
  is_period_token [a1; a2; a3; a4; s1; b1; b2; s2; c1; c2] = (s1 =? s2)%N.
Proof.
  intros a1 a2 a3 a4 s1 b1 b2 s2 c1 c2 A1 A2 A3 A4 B1 B2 C1 C2 S1 S2.
  assert (no_space [a1; a2; a3; a4; s1; b1; b2; s2; c1; c2] = true) as Hs.
  { unfold no_space. cbn [forallb].
    rewrite (decimal_not_space a1 A1), (decimal_not_space a2 A2),
            (decimal_not_space a3 A3), (decimal_not_space a4 A4),
            (decimal_not_space b1 B1), (decimal_not_space b2 B2),
            (decimal_not_space c1 C1), (decimal_not_space c2 C2).
    cbn in S1, S2. destruct S1 as [<-|[<-|[]]]; destruct S2 as [<-|[<-|[]]];
      reflexivity. }
  unfold is_period_token. cbv zeta.
  rewrite (strip_no_space _ Hs). unfold normalize_polish_dates.
  rewrite (sub_no_space true POLISH_DATE_RE repl _ polish_date_none Hs).
  cbn in S1, S2. destruct S1 as [<-|[<-|[]]]; destruct S2 as [<-|[<-|[]]].
  all: decided.
  all: try reflexivity.
Qed.

End IsoSeparators.

(** X24. A text of the form YYYY, separator, MM, separator, DD, each
    separator a hyphen or a slash, is a period token exactly when the two
    separators are the same. *)
Theorem iso_needs_matching_separators :
  forall (U : UnicodeData) (a1 a2 a3 a4 s1 b1 b2 s2 c1 c2 : N),
    isdecimal a1 = true -> isdecimal a2 = true -> isdecimal a3 = true ->
    isdecimal a4 = true -> isdecimal b1 = true -> isdecimal b2 = true ->
    isdecimal c1 = true -> isdecimal c2 = true ->
    In s1 (py "-/") -> In s2 (py "-/") ->
    is_period_token [a1; a2; a3; a4; s1; b1; b2; s2; c1; c2] = (s1 =? s2)%N.
Proof. intros U. apply iso_shape. Qed.

Lemma iso_needs_matching_separators_witness :
  is_period_token (U:=latin_only)
    [ch "2"; ch "0"; ch "2"; ch "5"; ch "-"; ch "0"; ch "3"; ch "/"; ch "3"; ch "1"]
  = (ch "-" =? ch "/")%N.
Proof.
  apply (iso_needs_matching_separators latin_only).
  all: try reflexivity.
  - now left.
  - right. now left.
Defined.

(** ** The order of the files *)

Section OrderProps.

Lemma str_leb_total : forall a b, str_leb a b = false -> str_leb b a = true.
Proof.
  induction a as [|x a IH]; intros [|y b] H; simpl in *; try discriminate; auto.
  apply orb_false_iff in H. destruct H as [Hlt H].
  apply N.ltb_ge in Hlt. destruct (N.eqb_spec x y) as [->|Hne].
  - cbn [andb] in H. rewrite N.eqb_refl, (IH b H). apply orb_true_r.
  - assert ((y <? x)%N = true) as Hyx by (apply N.ltb_lt; lia). now rewrite Hyx.
Qed.

Lemma str_le_trans : forall a b c, str_le a b -> str_le b c -> str_le a c.
Proof.
  unfold str_le. induction a as [|x a IH]; intros [|y b] [|z c] H1 H2;
    simpl in *; try discriminate; auto.
  apply orb_true_iff in H1, H2. apply orb_true_iff.
  destruct H1 as [H1|H1], H2 as [H2|H2].
  - left. apply N.ltb_lt in H1, H2. apply N.ltb_lt. lia.
  - apply andb_true_iff in H2. destruct H2 as [E _]. apply N.eqb_eq in E. subst z.
    now left.
  - apply andb_true_iff in H1. destruct H1 as [E _]. apply N.eqb_eq in E. subst y.
    now left.
  - apply andb_true_iff in H1, H2. destruct H1 as [E1 H1], H2 as [E2 H2].
    apply N.eqb_eq in E1, E2. subst. right. rewrite N.eqb_refl. cbn [andb].
    eapply IH; eauto.
Qed.

Lemma insert_sorted_perm : forall x l, Permutation (x :: l) (insert_sorted x l).
Proof.
  induction l as [|y l IH]; simpl; auto.
  destruct (str_leb x y); auto.
  apply Permutation_trans with (y :: x :: l); [apply perm_swap|].
  now apply perm_skip.
Qed.

Lemma sorted_perm : forall l, Permutation l (sorted l).
Proof.
  induction l as [|x l IH]; simpl; auto.
  apply Permutation_trans with (x :: sorted l); [now apply perm_skip|].
  apply insert_sorted_perm.
Qed.

Lemma insert_sorted_sorted : forall x l,
  Sorted str_le l -> Sorted str_le (insert_sorted x l).
Proof.
  induction l as [|y l IH]; intros H; simpl.
  - repeat constructor.
  - destruct (str_leb x y) eqn:E.
    + constructor; auto.
    + inversion H; subst. constructor; auto.
      destruct l as [|z l]; simpl.
      * constructor. now apply str_leb_total.
      * destruct (str_leb x z); constructor.
        -- now apply str_leb_total.
        -- now inversion H3.
Qed.

Lemma sorted_sorted : forall l, StronglySorted str_le (sorted l).
Proof.
  intros l. apply Sorted_StronglySorted.
  - intros a b c. apply str_le_trans.
  - induction l as [|x l IH]; simpl; [constructor|].
    now apply insert_sorted_sorted.
Qed.

End OrderProps.

(** X25. The files are handled in ascending order of their paths, each
    once, and the table written is the rows of the files that were
    processed, file after file in that order and in each file's own order,
    with step 10 applied to every row. *)
Theorem files_in_sorted_order :
  forall (U : UnicodeData) (listing : list Str) (read : Str -> result DataFrame),
    Permutation listing (sorted listing)
    /\ StronglySorted str_le (sorted listing)
    /\ w_parts (fst (main listing read empty_world)) = successes read (sorted listing)
    /\ w_csv (fst (main listing read empty_world))
       = match successes read (sorted listing) with
         | [] => None
         | p :: ps => Some (map fill_row (concat (p :: ps)))
         end.
Proof.
  intros U listing read. split; [apply sorted_perm|].
  split; [apply sorted_sorted|].
  rewrite main_run by reflexivity.
  destruct (successes read (sorted listing)); split; reflexivity.
Qed.

(** ** Cells that pass through *)

Section PassThrough.
Context {U : UnicodeData}.

Lemma no_dot_endswith : forall s,
  forallb (fun c => negb (c =? 46)%N) s = true -> endswith (py ".0") s = false.
Proof.
  intros s H. unfold endswith. rewrite <- forallb_rev in H.
  change (rev (py ".0")) with [48%N; 46%N].
  destruct (rev s) as [|a [|b r]]; cbn [startswith].
  - reflexivity.
  - apply andb_false_r.
  - cbn [forallb] in H. apply andb_true_iff in H. destruct H as [_ H].
    apply andb_true_iff in H. destruct H as [Hb _].
    apply negb_true_iff in Hb. rewrite (N.eqb_sym 46 b), Hb.
    cbn [andb]. apply andb_false_r.
Qed.

Lemma uint_no_dot : forall d,
  forallb (fun c => negb (c =? 46)%N)
          (map N_of_ascii (list_ascii_of_string (NilEmpty.string_of_uint d))) = true.
Proof. induction d; simpl; auto. Qed.

Lemma str_of_Z_no_dot : forall z,
  forallb (fun c => negb (c =? 46)%N) (str_of_Z z) = true.
Proof.
  intros z. unfold str_of_Z, NilEmpty.string_of_int.
  destruct (Z.to_int z); [apply uint_no_dot|].
  cbn [list_ascii_of_string map forallb]. apply uint_no_dot.
Qed.

Lemma clean_cell_plain : forall s,
  no_space s = true -> endswith (py ".0") s = false -> clean_cell (VStr s) = s.
Proof.
  intros s Hs He. unfold clean_cell, clean_value. cbn [isna str_of_val].
  rewrite He. cbn [andb]. now apply clean_steps_no_space.
Qed.

Lemma row_of_value : forall path df m,
  value (row_of path df m) = clean_cell (of_string (to_string (val m))).
Proof.
  intros path df m. unfold row_of, clean_row. cbn [value]. rewrite backfill_fold.
  match goal with |- context [fold_left _ (candidates ?r) ?r] =>
    destruct (fold_adopt_rest (candidates r) r) as [_ [_ [Hv _]]] end.
  cbv zeta in Hv. now rewrite Hv.
Qed.

Lemma brak_clean : clean_cell (VStr (py "brak danych")) = py "brak danych".
Proof. vm_compute. reflexivity. Qed.

End PassThrough.

(** X26. Steps 5 to 7 leave an ordinary cell as it is: the value of a row
    is the text of its cell when that text has no white space and does not
    end in ".0", the decimal text of an integer cell, and "brak danych"
    for a cell that held a dash. *)
Theorem plain_cells_pass_through :
  forall (U : UnicodeData) (path : Str) (df : DataFrame) (m : MeltRow),
    (forall s, val m = VStr s -> no_space s = true ->
               endswith (py ".0") s = false ->
               value (row_of path df m) = s)
    /\ (forall z, val m = VInt z -> value (row_of path df m) = str_of_Z z)
    /\ (val m = VStr (py "brak danych") ->
        value (row_of path df m) = py "brak danych").
Proof.
  intros U path df m. rewrite row_of_value. split; [|split].
  - intros s -> Hs He. now apply clean_cell_plain.
  - intros z ->. cbn [to_string isna str_of_val of_string].
    apply clean_cell_plain; [apply str_of_Z_no_space|].
    apply no_dot_endswith, str_of_Z_no_dot.
  - intros ->. apply brak_clean.
Qed.

(** ** The year of a rewritten date *)

Section DottedYear.
Context {U : UnicodeData}.

Local Opaque isdecimal isword.

Lemma dotted_year : forall a b m1 m2 y1 y2 y3 y4,
  isdecimal a = true -> isdecimal b = true ->
  isdecimal m1 = true -> isdecimal m2 = true ->
  isdecimal y1 = true -> isdecimal y2 = true ->
  isdecimal y3 = true -> isdecimal y4 = true ->
  period_year ([a; b] ++ py "." ++ [m1; m2] ++ py "." ++ [y1; y2; y3; y4])
  = Some (int_of_digits [y1; y2; y3; y4]).
Proof.
  intros a b m1 m2 y1 y2 y3 y4 Ha Hb Hm1 Hm2 Hy1 Hy2 Hy3 Hy4.
  rewrite period_year_in_words. unfold extract_year_in_words.
  assert (strip ([a; b] ++ py "." ++ [m1; m2] ++ py "." ++ [y1; y2; y3; y4])
          = [a; b] ++ py "." ++ [m1; m2] ++ py "." ++ [y1; y2; y3; y4]) as ->.
  { apply trimmed_strip.
    apply (trimmed_intro a _ ([a; b] ++ py "." ++ [m1; m2] ++ py "." ++ [y1; y2; y3]) y4).
    - reflexivity.
    - now apply decimal_not_space.
    - now apply decimal_not_space. }
  cbn [app py]. cbn [first_from]. unfold date_year, dotted_date, four_digits.
  cbn. rewrite Ha, Hb, Hm1, Hm2, Hy1, Hy2, Hy3, Hy4. reflexivity.
Qed.

End DottedYear.

(** X27. The year of a long-form date, once rewritten, is the date's own
    year: [period_year] on what [normalize_polish_dates] makes of such a
    date gives the number its four digits spell. *)
Theorem long_date_year :
  forall (U : UnicodeData) (d w1 mo w2 y w mm : Str),
    (length d = 1 \/ length d = 2) -> forallb isdecimal d = true ->
    w1 <> [] -> forallb isspace w1 = true ->
    In (w, mm) MONTHS_MAP -> word_match w mo = true -> lower mo = w ->
    w2 <> [] -> forallb isspace w2 = true ->
    length y = 4 -> forallb isdecimal y = true ->
    period_year (normalize_polish_dates (d ++ w1 ++ mo ++ w2 ++ y))
    = Some (int_of_digits y).
Proof.
  intros U d w1 mo w2 y w mm Hd1 Hd2 Hw1 Hw1' Hw Hm Hl Hw2 Hw2' Hy1 Hy2.
  destruct (months_map_words w mm Hw) as [Hin Hget].
  pose proof (date_core_intro d w1 mo w2 y w Hd1 Hd2 Hw1 Hw1' Hin Hm Hw2 Hw2' Hy1 Hy2)
    as Hc.
  assert (dict_get (lower mo) MONTHS_MAP = Some mm) as Hg by (now rewrite Hl).
  rewrite (long_date_sub d w1 mo w2 y mm Hc Hg).
  destruct (months_two_digits _ _ Hget) as [m1 [m2 [-> [Hm1 Hm2]]]].
  destruct y as [|y1 [|y2 [|y3 [|y4 [|]]]]]; try discriminate Hy1.
  cbn [forallb] in Hy2.
  repeat (apply andb_true_iff in Hy2; destruct Hy2 as [? Hy2]).
  destruct d as [|a [|b [|]]]; cbn [length] in Hd1;
    try (destruct Hd1; discriminate || lia).
  - cbn [forallb] in Hd2. apply andb_true_iff in Hd2. destruct Hd2 as [Ha _].
    apply (dotted_year 48%N a); auto.
  - cbn [forallb] in Hd2.
    repeat (apply andb_true_iff in Hd2; destruct Hd2 as [? Hd2]).
    apply (dotted_year a b); auto.
Qed.

Lemma long_date_year_witness :
  period_year (U:=latin_only)
    (normalize_polish_dates (py "7" ++ py " " ++ py "Marca" ++ py "  " ++ py "2024"))
  = Some (int_of_digits (py "2024")).
Proof.
  apply (long_date_year latin_only (py "7") (py " ") (py "Marca") (py "  ")
           (py "2024") (py "marca") (py "03")).
  - left. reflexivity.
  - reflexivity.
  - discriminate.
  - reflexivity.
  - vm_compute. tauto.
  - vm_compute. reflexivity.
  - vm_compute. reflexivity.
  - discriminate.
  - reflexivity.
  - reflexivity.
  - reflexivity.
Defined.

(** ** What the cleaning loop does to a cell *)




(** ** A table whose columns are all identifiers *)

(** C3. When the identifier columns leave no value column, step 3 does
    compute the value columns again, first as the columns that are neither
    the region nor the type column. But the reshape is still handed the
    identifiers of step 2: every value column is one of them, no column is
    left to melt, and the file gives no row. The reshape the claim
    describes, with the region and type columns as the only identifiers,
    is the one that gives rows: on the table with the one column "okres"
    it gives a row for each line, where [process_file] gives none. *)
Theorem C3_fallback_frees_no_column :
  forall U : UnicodeData,
    (forall (read : Str -> result DataFrame) (path : Str) (df0 : DataFrame),
        read path = Ok df0 ->
        let df := prepared df0 in
        not_in (id_vars_in df) (df_columns df) = [] ->
        (forall c, In c (value_vars_in df) -> In c (id_vars_in df))
        /\ (forall melted,
               melt df (id_vars_in df) (value_vars_in df) = Ok melted -> melted = [])
        /\ (forall rows, outcome read path = Ok rows -> rows = [])
        /\ (NoDup (df_columns df) -> ~ In (py "value") (df_columns df) ->
            (region_col_of df = None \/ region_col_of df <> period_col_of df) ->
            outcome read path = Ok []))
    /\ (let df := prepared sample_period_only in
        id_vars_in df = [py "okres"]
        /\ soft_id_of (region_col_of df) (typ_col_of df) = []
        /\ value_vars_in df = [py "okres"]
        /\ melt df (soft_id_of (region_col_of df) (typ_col_of df)) (value_vars_in df)
           = Ok [ {| ids := []; var := py "okres"; val := VStr (py "2024-Q1") |};
                  {| ids := []; var := py "okres"; val := VStr (py "2025-Q1") |} ]
        /\ melt df (id_vars_in df) (value_vars_in df) = Ok []
        /\ outcome (read_as sample_period_only) (py "/dane/a.csv") = Ok []).
Proof.
  intros U. split.
  - intros read path df0 Hread df Hnone.
    assert (forall c, In c (df_columns df) -> In c (id_vars_in df)) as Hall
        by (now apply not_in_nil).
    assert (forall melted,
               melt df (id_vars_in df) (value_vars_in df) = Ok melted -> melted = [])
      as Hmelt by (intros melted; now apply melt_all_ids).
    assert (forall b, year_filter (period_policy b (map (row_of path df) [])) = [])
      as Hrows by (intros []; reflexivity).
    split; [|split; [exact Hmelt|split]].
    + intros c Hc. apply Hall. now apply value_vars_in_columns.
    + intros rows H. apply outcome_rows in H.
      destruct H as [df1 [melted [H1 [H2 ->]]]].
      rewrite Hread in H1. inversion H1. subst df1. fold df in H2.
      rewrite (Hmelt melted H2). apply Hrows.
    + intros Hn Hv Hrp. rewrite outcome_stages, Hread. fold df.
      rewrite (table_has_any_period_nodup _ Hn).
      destruct (process_melt_ok df Hn Hv Hrp) as [melted E]. rewrite E.
      rewrite (Hmelt melted E). unfold long_of. now rewrite Hrows.
  - vm_compute. repeat split; reflexivity.
Qed.

(** ** Labels that are equal once stripped *)

Section DuplicateLabels.
Context {U : UnicodeData}.

Lemma filter_eqb_in : forall c l, In c l -> 1 <= length (filter (str_eqb c) l).
Proof.
  induction l as [|x l IH]; intros H; [contradiction|].
  cbn [filter]. destruct (str_eqb c x) eqn:E; [cbn [length]; lia|].
  destruct H as [H|H]; [subst x; now rewrite str_eqb_refl in E|now apply IH].
Qed.

Lemma filter_eqb_cons : forall c x l,
  length (filter (str_eqb c) l) <= length (filter (str_eqb c) (x :: l)).
Proof.
  intros c x l. cbn [filter]. destruct (str_eqb c x); cbn [length]; lia.
Qed.

(** Labels that are not distinct hold one that comes twice. *)
Lemma twice_among : forall l : list Str,
  ~ NoDup l -> exists c, In c l /\ 2 <= length (filter (str_eqb c) l).
Proof.
  induction l as [|x l IH]; intros H.
  - exfalso. apply H. constructor.
  - destruct (in_dec (list_eq_dec N.eq_dec) x l) as [Hin|Hout].
    + exists x. split; [now left|]. cbn [filter]. rewrite str_eqb_refl.
      cbn [length]. pose proof (filter_eqb_in x l Hin). lia.
    + destruct IH as [c [Hc Hn]].
      { intros Hl. apply H. now constructor. }
      exists c. split; [now right|].
      pose proof (filter_eqb_cons c x l). lia.
Qed.

(** With no period token in the cells, the loop over the columns comes to
    the first column whose label another column has, and raises. *)
Lemma cells_have_period_twice : forall labels cols,
  (exists col, In col cols /\ 2 <= length (filter (str_eqb (fst col)) labels)) ->
  existsb (fun col => existsb (fun v => is_period_token (str_of_val v)) (snd col)) cols
  = false ->
  exists msg, cells_have_period labels cols = Raise (ValueError msg).
Proof.
  induction cols as [|col0 rest IH]; intros [col [Hin Hn]] Hev.
  - contradiction.
  - cbn [existsb] in Hev. apply orb_false_iff in Hev. destruct Hev as [Hev0 Hev].
    cbn [cells_have_period]. rewrite Hev0.
    destruct (filter (str_eqb (fst col0)) labels) as [|a [|b l]] eqn:E; eauto.
    + apply IH; [|exact Hev]. destruct Hin as [->|Hin]; [|eauto].
      rewrite E in Hn. cbn in Hn. lia.
    + apply IH; [|exact Hev]. destruct Hin as [->|Hin]; [|eauto].
      rewrite E in Hn. cbn in Hn. lia.
Qed.

Lemma table_has_any_period_twice : forall df,
  ~ NoDup (df_columns df) -> period_evidence df = false ->
  exists msg, table_has_any_period df = Raise (ValueError msg).
Proof.
  intros df Hn Hev. unfold period_evidence in Hev.
  apply orb_false_iff in Hev. destruct Hev as [Hl Hc].
  unfold table_has_any_period. rewrite Hl.
  apply cells_have_period_twice; [|exact Hc].
  destruct (twice_among _ Hn) as [c [Hin H2]].
  unfold df_columns in Hin. apply in_map_iff in Hin.
  destruct Hin as [col [<- Hin]]. eauto.
Qed.

End DuplicateLabels.

(** X28. Labels that are equal once stripped: when no label and no cell
    of such a table is a period token, [table_has_any_period] comes to a
    label that two columns carry, cannot decide its test, and raises; the
    file gives no rows. *)
Theorem duplicate_labels_are_refused :
  forall (U : UnicodeData) (read : Str -> result DataFrame) (path : Str)
         (df0 : DataFrame),
    read path = Ok df0 ->
    ~ NoDup (map (fun col => strip (fst col)) df0) ->
    period_evidence df0 = false ->
    (exists msg, outcome read path = Raise (ValueError msg))
    /\ successes read [path] = [].
Proof.
  intros U read path df0 Hread Hn Hev.
  assert (exists msg, outcome read path = Raise (ValueError msg)) as [msg H].
  { rewrite outcome_stages, Hread.
    destruct (table_has_any_period_twice (prepared df0)) as [msg ->]; eauto.
    - now rewrite prepared_columns.
    - now rewrite prepared_evidence. }
  split; [eauto|]. unfold successes. cbn. now rewrite H.
Qed.

Lemma duplicate_labels_are_refused_witness :
  (exists msg, outcome (U:=latin_only) (read_as sample_twice) (py "/dane/t.csv")
               = Raise (ValueError msg))
  /\ successes (U:=latin_only) (read_as sample_twice) [py "/dane/t.csv"] = [].
Proof.
  apply (duplicate_labels_are_refused latin_only (read_as sample_twice)
           (py "/dane/t.csv") sample_twice).
  - reflexivity.
  - vm_compute. intros H. inversion H as [|x l Hx Hl]. apply Hx. now left.
  - vm_compute. reflexivity.
Defined.

(** ** Integers among floats *)

Section FloatProps.
Context {U : UnicodeData}.








End FloatProps.

